(** * Path canonicalisation of toylib/xfile.c ([xabspath])

    A shallow embedding of [xabspath] and of the wrappers it calls, together
    with a model of the kernel services it consumes (a descriptor table,
    [errno], relative symlink reads and relative opens), and the properties
    of the resolution loop: loop budget, symlink splicing, lookup failures,
    cleanup on failure, handle discipline and the shape of the result. *)

From Stdlib Require Import ZArith String Ascii List Lia Bool.
From stdpp Require Import gmap strings list.
Import ListNotations.

Local Open Scope string_scope.
Local Open Scope Z_scope.

(** ** Error numbers (Linux values; only their distinctness matters) *)

Definition ENOENT : Z := 2.
Definition EBADF : Z := 9.
Definition ENOTDIR : Z := 20.
Definition EINVAL : Z := 22.
Definition ELOOP : Z := 40.

(** ** The kernel as seen by [xabspath]

    A system call either succeeds with a value or fails with an error
    number. The file system is fixed for the duration of one call (the
    function is synchronous and nothing else is modelled as running). What a
    descriptor refers to is an [inode]; [os_readlinkat] gives the whole
    target of a link (the wrapper truncates it to the buffer), and
    [os_openat] resolves one name below a directory. Resource exhaustion is
    left out: the descriptor table and the allocator never run out. *)

Inductive sysres (A : Type) : Type :=
| Ok (a : A)
| Err (e : Z).
Arguments Ok {A} a.
Arguments Err {A} e.

Record OS : Type := {
  inode : Type;
  os_root : inode;
  os_getcwd : sysres string;
  os_readlinkat : inode -> string -> sysres string;
  os_openat : inode -> string -> sysres inode
}.

(** Descriptor events, kept in a log so that the order of opens and closes
    can be stated. *)
Inductive event : Type :=
| Opened (fd : Z)
| Closed (fd : Z).

Section Model.
Context (os : OS).

(** ** Process state

    [errno], the table of open descriptors, the number of live
    [struct string_list] nodes and of live heap strings (the buffer of
    [getcwd] and the result), and the log of descriptor events, most recent
    first. *)
Record pstate : Type := {
  errno : Z;
  fds : gmap Z (inode os);
  nodes : Z;
  bufs : Z;
  log : list event
}.

Definition set_errno (e : Z) (st : pstate) : pstate :=
  {| errno := e; fds := fds st; nodes := nodes st; bufs := bufs st; log := log st |}.
Definition set_fds (t : gmap Z (inode os)) (ev : event) (st : pstate) : pstate :=
  {| errno := errno st; fds := t; nodes := nodes st; bufs := bufs st; log := ev :: log st |}.
Definition add_nodes (n : Z) (st : pstate) : pstate :=
  {| errno := errno st; fds := fds st; nodes := nodes st + n; bufs := bufs st; log := log st |}.
Definition add_bufs (n : Z) (st : pstate) : pstate :=
  {| errno := errno st; fds := fds st; nodes := nodes st; bufs := bufs st + n; log := log st |}.

(** A descriptor is valid when it is non-negative and in the table. *)
Definition fd_lookup (t : gmap Z (inode os)) (fd : Z) : option (inode os) :=
  if fd <? 0 then None else t !! fd.

(** POSIX hands out the lowest descriptor that is not open. *)
Fixpoint lowest_free (t : gmap Z (inode os)) (fuel : nat) (n : Z) : Z :=
  match fuel with
  | O => n
  | S fuel' => match t !! n with
               | None => n
               | Some _ => lowest_free t fuel' (n + 1)
               end
  end.
Definition fd_alloc (t : gmap Z (inode os)) : Z := lowest_free t (size t) 0.

(** [open("/", 0)]: a new descriptor on the root. *)
Definition open_root (st : pstate) : Z * pstate :=
  let fd := fd_alloc (fds st) in
  (fd, set_fds (<[fd := os_root os]> (fds st)) (Opened fd) st).

(** Modelled from the spec: [xopenat] is declared in xfuncs.h and defined
    outside src/. It is the spec's "open-relative(directory_handle, name,
    flags) -> handle | failure(errno)": [xopenat(dirfd, s, 0)] gives a new
    descriptor for [s] below the directory of [dirfd], or -1 with [errno]
    set; a [dirfd] that is not open gives EBADF. *)
Definition xopenat (dirfd : Z) (s : string) (st : pstate) : Z * pstate :=
  match fd_lookup (fds st) dirfd with
  | None => (-1, set_errno EBADF st)
  | Some dir =>
      match os_openat os dir s with
      | Ok i => let fd := fd_alloc (fds st) in
                (fd, set_fds (<[fd := i]> (fds st)) (Opened fd) st)
      | Err e => (-1, set_errno e st)
      end
  end.

(** Modelled from the spec: [xreadlinkat] is declared in xfuncs.h and
    defined outside src/. It is the spec's "read-symlink-relative(
    directory_handle, name, buffer, max_len) -> byte_count |
    failure(errno)": [xreadlinkat(dirfd, name, buf, bufsiz)] gives the
    number of bytes placed in [buf] (the target, cut off at [bufsiz]) and
    those bytes, or -1 with [errno] set (EINVAL when the name exists and is
    no link, ENOENT when it does not exist). A successful call leaves
    [errno] alone. A failed call does not write [buf]; the model hands back
    an empty string, which the caller does not read: it reads [buf] only
    when the count is at least 1. *)
Definition xreadlinkat (dirfd : Z) (name : string) (bufsiz : nat) (st : pstate)
  : Z * string * pstate :=
  match fd_lookup (fds st) dirfd with
  | None => (-1, "", set_errno EBADF st)
  | Some dir =>
      match os_readlinkat os dir name with
      | Ok target =>
          let buf := String.substring 0 bufsiz target in
          (Z.of_nat (String.length buf), buf, st)
      | Err e => (-1, "", set_errno e st)
      end
  end.

(** [close(fd)]: EBADF when [fd] is not open. *)
Definition close (fd : Z) (st : pstate) : pstate :=
  match fd_lookup (fds st) fd with
  | None => set_errno EBADF st
  | Some _ => set_fds (delete fd (fds st)) (Closed fd) st
  end.

(** [xgetcwd]: [getcwd(NULL, 0)] returns a fresh heap string; on
    failure it sets [errno], and the wrapper calls [perror_exit]: the
    process ends ([None]) in the state that is returned. *)
Definition xgetcwd (st : pstate) : option string * pstate :=
  match os_getcwd os with
  | Ok buf => (Some buf, add_bufs 1 st)
  | Err e => (None, set_errno e st)
  end.

(** [free] of one list node, of one heap string; [xmalloc(size)] of the
    result buffer (which ends the process instead of failing). *)
Definition free_node (st : pstate) : pstate := add_nodes (-1) st.
Definition free_buf (st : pstate) : pstate := add_bufs (-1) st.
Definition xmalloc (size : Z) (st : pstate) : pstate := add_bufs 1 st.

(** ** List helpers *)

(** Modelled from the spec: [splitpath] is declared in toys.h and defined
    outside src/. It splits a string on '/', drops empty components, and
    makes one node per component, in order; the caller splices the run in
    front of what it already has. [component cur] is the run of characters
    collected since the last '/'. *)
Definition component (cur : string) : list string :=
  match cur with
  | EmptyString => []
  | _ => [cur]
  end.

Fixpoint splitpath_from (cur path : string) : list string :=
  match path with
  | EmptyString => component cur
  | String c rest =>
      if Ascii.eqb c "/" then component cur ++ splitpath_from "" rest
      else splitpath_from (cur +:+ String c "") rest
  end.

Definition splitpath (path : string) : list string := splitpath_from "" path.

(** The nodes [splitpath] allocates. *)
Definition splitpath_alloc (path : string) (st : pstate) : list string * pstate :=
  let comps := splitpath path in
  (comps, add_nodes (Z.of_nat (length comps)) st).

(** Modelled from the spec: [llist_pop] (outside src/) unlinks and returns
    the head of a list, or nothing when the list is empty. *)
Definition llist_pop (l : list string) : option string * list string :=
  match l with
  | [] => (None, [])
  | x :: rest => (Some x, rest)
  end.

(** Modelled from the spec: [llist_traverse(list, free)] (outside src/)
    frees every node of a list. *)
Definition llist_traverse_free (l : list string) (st : pstate) : pstate :=
  add_nodes (- Z.of_nat (length l)) st.

(** ** The locals of [xabspath] that live across loop iterations *)
Record frame : Type := {
  todo : list string;
  done : list string;
  try : Z;
  dirfd : Z
}.

Definition set_todo (v : list string) (l : frame) : frame :=
  {| todo := v; done := done l; try := try l; dirfd := dirfd l |}.
Definition set_done (v : list string) (l : frame) : frame :=
  {| todo := todo l; done := v; try := try l; dirfd := dirfd l |}.
Definition set_try (v : Z) (l : frame) : frame :=
  {| todo := todo l; done := done l; try := v; dirfd := dirfd l |}.
Definition set_dirfd (v : Z) (l : frame) : frame :=
  {| todo := todo l; done := done l; try := try l; dirfd := v |}.

(** How one iteration of the [while (todo)] loop ends. *)
Inductive ctl : Type :=
| Continue (l : frame) (st : pstate)
| Break (l : frame) (st : pstate)
| GotoError (l : frame) (st : pstate).

(** [new->str[1]] for a string of at least one character. *)
Definition str_at (s : string) (n : nat) : Z :=
  match String.get n s with
  | Some c => Z.of_N (N_of_ascii c)
  | None => 0
  end.

Definition starts_with_slash (s : string) : bool :=
  match s with
  | String c _ => Ascii.eqb c "/"
  | EmptyString => false
  end.

Definition nonempty {A} (l : list A) : bool :=
  match l with [] => false | _ => true end.

(** [fd = xopenat(dirfd, s, 0); if (fd == -1 && (exact || todo || errno !=
    ENOENT)) goto error; close(dirfd); dirfd = fd; continue;] *)
Definition xabspath_move (exact : Z) (s : string) (l : frame) (st : pstate) : ctl :=
  let '(fd, st) := xopenat (dirfd l) s st in
  if (fd =? -1) && (negb (exact =? 0) || nonempty (todo l) || negb (errno st =? ENOENT))
  then GotoError l st
  else
    let st := close (dirfd l) st in
    Continue (set_dirfd fd l) st.

(** The loop body from [if (len>4095)] on: [len] is 0 for "..", otherwise
    what [xreadlinkat] returned, with [buf] the bytes it read. *)
Definition xabspath_lookup (exact : Z) (new : string) (len : Z) (buf : string)
                           (l : frame) (st : pstate) : ctl :=
  if 4095 <? len then GotoError l st
  else if len <? 1 then
    if len =? 0 then
      (* For .. just move dirfd *)
      xabspath_move exact ".." l st
    else
      (* Not a symlink: add to linked list, move dirfd, fail if error *)
      if (negb (exact =? 0) || nonempty (todo l)) && negb (errno st =? EINVAL)
      then GotoError l st
      else
        let l := set_done (new :: done l) l in
        if (errno st =? EINVAL) && negb (nonempty (todo l)) then Break l st
        else xabspath_move exact new l st
  else
    (* If this symlink is to an absolute path, discard existing resolved path *)
    let '(l, st) :=
      if starts_with_slash buf then
        let st := llist_traverse_free (done l) st in
        let l := set_done [] l in
        let st := close (dirfd l) st in
        let '(fd, st) := open_root st in
        (set_dirfd fd l, st)
      else (l, st) in
    let st := free_node st in
    (* prepend components of new path *)
    let '(comps, st) := splitpath_alloc buf st in
    let l := if nonempty comps then set_todo (comps ++ todo l) l else l in
    Continue l st.

(** One iteration, after [new = llist_pop(&todo)]: [l] holds the rest of
    [todo]. *)
Definition xabspath_body (exact : Z) (new : string) (l : frame) (st : pstate) : ctl :=
  let t := try l in
  let l := set_try (t - 1) l in
  if t =? 0 then GotoError l (set_errno ELOOP st)
  else if String.eqb new "." || String.eqb new ".." then
    (* Removable path componenents. *)
    let x := str_at new 1 in
    let st := free_node st in
    if x =? 0 then Continue l st
    else
      let '(l, st) :=
        match llist_pop (done l) with
        | (Some _, d) => (set_done d l, free_node st)
        | (None, _) => (l, st)
        end in
      xabspath_lookup exact new 0 "" l st
  else
    (* Is this a symlink? *)
    let '(len, buf, st) := xreadlinkat (dirfd l) new 4096 st in
    xabspath_lookup exact new len buf l st.

(** How the loop ends: it ran out of [todo] or hit [break], or it jumped to
    the [error] label. *)
Inductive loop_end : Type :=
| LoopExit (l : frame) (st : pstate)
| LoopError (l : frame) (st : pstate).

(** [while (todo) { new = llist_pop(&todo); ... }]. The recursion is on a
    fuel argument; [None] means the fuel ran out before the loop ended. *)
Fixpoint xabspath_loop (fuel : nat) (exact : Z) (l : frame) (st : pstate)
  : option loop_end :=
  match llist_pop (todo l) with
  | (None, _) => Some (LoopExit l st)
  | (Some new, rest) =>
      match fuel with
      | O => None
      | S fuel' =>
          match xabspath_body exact new (set_todo rest l) st with
          | Continue l' st' => xabspath_loop fuel' exact l' st'
          | Break l' st' => Some (LoopExit l' st')
          | GotoError l' st' => Some (LoopError l' st')
          end
      end
  end.

(** The loop with as much fuel as the budget [try] can pay for. *)
Definition run (exact : Z) (l : frame) (st : pstate) : option loop_end :=
  xabspath_loop (Z.to_nat (try l) + 1) exact l st.

(** ** Assembly of the result *)

(** [try = 2; while (done) { temp = llist_pop(&done); if (todo) try++;
    try += strlen(temp->str); temp->next = todo; todo = temp; }]. The
    count is kept in Z: the names are at most 9999 components that the
    kernel has accepted, far from the range of [int]. *)
Fixpoint reverse_count (done todo : list string) (try : Z) : list string * Z :=
  match done with
  | [] => (todo, try)
  | temp :: done' =>
      let try := if nonempty todo then try + 1 else try in
      reverse_count done' (temp :: todo) (try + Z.of_nat (String.length temp))
  end.

(** [while (todo) { if (try>1) ret[try++] = '/'; try = stpcpy(ret+try,
    todo->str) - ret; free(llist_pop(&todo)); }]: [ret] is the string held
    by the buffer and [try] its length. *)
Fixpoint assemble (todo : list string) (ret : string) (st : pstate) : string * pstate :=
  match todo with
  | [] => (ret, st)
  | str :: todo' =>
      let ret := if 1 <? Z.of_nat (String.length ret) then ret +:+ "/" else ret in
      assemble todo' (ret +:+ str) (free_node st)
  end.

(** What a call does: it returns a string or NULL, or the process exits in
    [xgetcwd], or the model ran out of fuel. *)
Inductive outcome : Type :=
| Returned (ret : option string) (st : pstate)
| Exited (st : pstate)
| Diverged.

(** After the loop: [close(dirfd)], reverse, measure, allocate, fill. *)
Definition xabspath_finish (l : frame) (st : pstate) : outcome :=
  let st := close (dirfd l) st in
  let '(todo', size) := reverse_count (done l) (todo l) 2 in
  let st := xmalloc size st in
  let '(ret, st) := assemble todo' "/" st in
  Returned (Some ret) st.

(** The [error] label. *)
Definition xabspath_error (l : frame) (st : pstate) : outcome :=
  let st := close (dirfd l) st in
  let st := llist_traverse_free (todo l) st in
  let st := llist_traverse_free (done l) st in
  Returned None st.

(** The declarations and the seeding of [todo]: [None] when [xgetcwd]
    exits. [budget] is the initial value of [try], 9999 in the source. *)
Definition xabspath_seed (budget : Z) (path : string) (st : pstate)
  : option (frame * pstate) :=
  let '(fd, st) := open_root st in
  if negb (starts_with_slash path) then
    match xgetcwd st with
    | (None, _) => None
    | (Some temp, st) =>
        let '(c1, st) := splitpath_alloc temp st in
        let '(c2, st) := splitpath_alloc path st in
        let st := free_buf st in
        Some ({| todo := c1 ++ c2; done := []; try := budget; dirfd := fd |}, st)
    end
  else
    let '(c, st) := splitpath_alloc path st in
    Some ({| todo := c; done := []; try := budget; dirfd := fd |}, st).

Definition xabspath_end (r : option loop_end) : outcome :=
  match r with
  | None => Diverged
  | Some (LoopExit l st) => xabspath_finish l st
  | Some (LoopError l st) => xabspath_error l st
  end.

Definition xabspath_budget (budget : Z) (path : string) (exact : Z) (st : pstate)
  : outcome :=
  match xabspath_seed budget path st with
  | None =>
      (* [perror_exit] in [xgetcwd], after [open("/", 0)] *)
      Exited (snd (xgetcwd (snd (open_root st))))
  | Some (l, st) => xabspath_end (run exact l st)
  end.

Definition xabspath (path : string) (exact : Z) (st : pstate) : outcome :=
  xabspath_budget 9999 path exact st.

(** ** Notions used to state the properties *)

(** [after exact k l st]: the frame and the state at the head of the loop
    once [k] more iterations have run and each of them ended in
    [continue]. *)
Fixpoint after (exact : Z) (k : nat) (l : frame) (st : pstate)
  : option (frame * pstate) :=
  match k with
  | O => Some (l, st)
  | S k' =>
      match llist_pop (todo l) with
      | (None, _) => None
      | (Some new, rest) =>
          match xabspath_body exact new (set_todo rest l) st with
          | Continue l' st' => after exact k' l' st'
          | _ => None
          end
      end
  end.

(** Two states that the kernel cannot tell apart: same [errno], same
    descriptors. The heap counters and the log are bookkeeping. *)
Definition same_world (s1 s2 : pstate) : Prop :=
  errno s1 = errno s2 /\ fds s1 = fds s2.

Definition same_ctl (c1 c2 : ctl) : Prop :=
  match c1, c2 with
  | Continue l1 s1, Continue l2 s2 => l1 = l2 /\ same_world s1 s2
  | Break l1 s1, Break l2 s2 => l1 = l2 /\ same_world s1 s2
  | GotoError l1 s1, GotoError l2 s2 => l1 = l2 /\ same_world s1 s2
  | _, _ => False
  end.

Definition same_end (r1 r2 : option loop_end) : Prop :=
  match r1, r2 with
  | None, None => True
  | Some (LoopExit l1 s1), Some (LoopExit l2 s2) => l1 = l2 /\ same_world s1 s2
  | Some (LoopError l1 s1), Some (LoopError l2 s2) => l1 = l2 /\ same_world s1 s2
  | _, _ => False
  end.

(** What the caller can observe of two calls is the same. *)
Definition same_outcome (o1 o2 : outcome) : Prop :=
  match o1, o2 with
  | Returned r1 s1, Returned r2 s2 => r1 = r2 /\ same_world s1 s2
  | Exited s1, Exited s2 => same_world s1 s2
  | Diverged, Diverged => True
  | _, _ => False
  end.

(** The string a call returned, if it returned one. *)
Definition returned (o : outcome) : option string :=
  match o with
  | Returned ret _ => ret
  | _ => None
  end.

(** The discipline of the directory cursor, read off a log (most recent
    event first): from no handle a handle is opened; a live handle is
    closed; or a new handle is opened while the old one is still open and
    the old one is closed right after. The index is the live cursor. *)
Inductive cursor_log : option Z -> list event -> Prop :=
| cursor_start : cursor_log None []
| cursor_open fd lg :
    cursor_log None lg -> cursor_log (Some fd) (Opened fd :: lg)
| cursor_close old lg :
    cursor_log (Some old) lg -> cursor_log None (Closed old :: lg)
| cursor_descend old fd lg :
    cursor_log (Some old) lg -> fd <> old ->
    cursor_log (Some fd) (Closed old :: Opened fd :: lg).

(** The cursor invariant at the head of the loop, relative to the
    descriptor table [base] and the log [blog] the call started with:
    either [dirfd] is the one descriptor the call holds, or the last
    component was accepted as missing, [dirfd] is -1 and nothing is held. *)
Definition cursor_at (base : gmap Z (inode os)) (blog : list event)
                     (l : frame) (st : pstate) : Prop :=
  0 <= dirfd l /\ base !! dirfd l = None /\
  (exists i, fds st = <[dirfd l := i]> base) /\
  exists evs, log st = (evs ++ blog)%list /\ cursor_log (Some (dirfd l)) evs.

(** The cursor invariant with the directory the cursor refers to. *)
Definition cursor_on (base : gmap Z (inode os)) (blog : list event)
                     (i : inode os) (l : frame) (st : pstate) : Prop :=
  cursor_at base blog l st /\ fd_lookup (fds st) (dirfd l) = Some i.

(** A frame with [d] more units of budget. *)
Definition bump (d : Z) (l : frame) : frame := set_try (try l + d) l.

Definition bump_ctl (d : Z) (c : ctl) : ctl :=
  match c with
  | Continue l st => Continue (bump d l) st
  | Break l st => Break (bump d l) st
  | GotoError l st => GotoError (bump d l) st
  end.

Definition cursor_lost (base : gmap Z (inode os)) (blog : list event)
                       (l : frame) (st : pstate) : Prop :=
  dirfd l = -1 /\ todo l = [] /\ fds st = base /\
  exists evs, log st = (evs ++ blog)%list /\ cursor_log None evs.

End Model.

Arguments errno {os} _.
Arguments fds {os} _.
Arguments nodes {os} _.
Arguments bufs {os} _.
Arguments log {os} _.
Arguments Continue {os} _ _.
Arguments Break {os} _ _.
Arguments GotoError {os} _ _.
Arguments LoopExit {os} _ _.
Arguments LoopError {os} _ _.
Arguments Returned {os} _ _.
Arguments Exited {os} _.
Arguments Diverged {os}.
Arguments same_world {os} _ _.
Arguments cursor_at {os} _ _ _ _.
Arguments cursor_lost {os} _ _ _ _.
Arguments cursor_on {os} _ _ _ _ _.
Arguments same_ctl {os} _ _.
Arguments same_end {os} _ _.
Arguments same_outcome {os} _ _.
Arguments returned {os} _.
Arguments bump_ctl {os} _ _.

(** Handles open at a point of a log: opens minus closes. *)
Fixpoint live (lg : list event) : Z :=
  match lg with
  | [] => 0
  | Opened _ :: lg' => live lg' + 1
  | Closed _ :: lg' => live lg' - 1
  end.



(** Components as [splitpath] makes them: not empty, no '/'. *)
Fixpoint has_slash (s : string) : bool :=
  match s with
  | EmptyString => false
  | String c s' => Ascii.eqb c "/" || has_slash s'
  end.

Definition good (c : string) : Prop := c <> "" /\ has_slash c = false.

(** Two '/' in a row somewhere in a string. *)
Fixpoint double_slash (s : string) : bool :=
  match s with
  | String c1 ((String c2 _) as s') =>
      (Ascii.eqb c1 "/" && Ascii.eqb c2 "/") || double_slash s'
  | _ => false
  end.

(** The last character of a string. *)
Fixpoint last_char (s : string) : option ascii :=
  match s with
  | EmptyString => None
  | String c EmptyString => Some c
  | String _ s' => last_char s'
  end.

(** The spelling of a list of components: every component after a '/',
    and "/" alone when there is none. *)
Fixpoint slashed (comps : list string) : string :=
  match comps with
  | [] => ""
  | c :: comps' => "/" +:+ c +:+ slashed comps'
  end.

Definition canonical (comps : list string) : string :=
  match comps with
  | [] => "/"
  | _ => slashed comps
  end.

(** Both lists only ever hold components made by [splitpath]. *)
Definition good_frame (l : frame) : Prop :=
  Forall good (todo l) /\ Forall good (done l).

Definition good_ctl {os : OS} (c : ctl os) : Prop :=
  match c with
  | Continue l' _ | Break l' _ | GotoError l' _ => good_frame l'
  end.

(** ** A concrete file system for examples

    Files are named by their path from the root; a descriptor refers to such
    a path. The root is a directory. [openat] of a name that is a link is
    never asked for by [xabspath] (it opens a name only after [readlinkat]
    said the name is no link); a kernel would follow the link, this table
    answers ELOOP. *)
Module TreeFS.

Inductive kind : Type :=
| Dir
| File
| Link (target : string).

Definition tree : Type := list (list string * kind).

Fixpoint find (t : tree) (p : list string) : option kind :=
  match t with
  | [] => None
  | (q, k) :: t' => if bool_decide (p = q) then Some k else find t' p
  end.

Definition kind_of (t : tree) (p : list string) : option kind :=
  match p with
  | [] => Some Dir
  | _ => find t p
  end.

Definition readlinkat (t : tree) (dir : list string) (name : string) : sysres string :=
  match kind_of t dir with
  | None => Err ENOENT
  | Some Dir =>
      if String.eqb name "." || String.eqb name ".." then Err EINVAL
      else match find t (dir ++ [name])%list with
           | None => Err ENOENT
           | Some (Link target) => Ok target
           | Some _ => Err EINVAL
           end
  | Some _ => Err ENOTDIR
  end.

Definition openat (t : tree) (dir : list string) (name : string)
  : sysres (list string) :=
  match kind_of t dir with
  | None => Err ENOENT
  | Some Dir =>
      if String.eqb name "." then Ok dir
      else if String.eqb name ".." then Ok (removelast dir)
      else match find t (dir ++ [name])%list with
           | None => Err ENOENT
           | Some (Link _) => Err ELOOP
           | Some _ => Ok (dir ++ [name])%list
           end
  | Some _ => Err ENOTDIR
  end.

Definition make (t : tree) (cwd : sysres string) : OS :=
  {| inode := list string;
     os_root := [];
     os_getcwd := cwd;
     os_readlinkat := readlinkat t;
     os_openat := openat t |}.

(** A process with the three standard descriptors open on a terminal. *)
Definition tty : list string := ["dev"; "tty"].
Definition start (t : tree) (cwd : sysres string) : pstate (make t cwd) :=
  {| errno := 0;
     fds := <[0 := tty]> (<[1 := tty]> (<[2 := tty]> ∅));
     nodes := 0;
     bufs := 0;
     log := [] |}.

(** What a caller sees of a call: the returned string and [errno]. *)
Definition result {os} (o : outcome os) : option (option string * Z) :=
  match o with
  | Returned ret st => Some (ret, errno st)
  | _ => None
  end.

Definition canon (t : tree) (cwd : string) (path : string) (exact : Z)
  : option (option string * Z) :=
  result (xabspath (make t (Ok cwd)) path exact (start t (Ok cwd))).

(** The descriptor events of a call, oldest first. *)
Definition events {os} (o : outcome os) : list event :=
  match o with
  | Returned _ st | Exited st => rev (log st)
  | Diverged => []
  end.


(** [n] copies of a string. *)
Fixpoint copies (n : nat) (s : string) : string :=
  match n with
  | O => ""
  | S n' => s +:+ copies n' s
  end.

(** /a and /a/b are directories and /a/c is a file; /a/k is a link to
    /a/b, /r a relative link that leaves and re-enters /a, /big a link
    whose target has 4096 characters. *)
Definition sample : tree :=
  [ (["a"], Dir); (["a"; "b"], Dir); (["a"; "c"], File);
    (["a"; "k"], Link "/a/b"); (["r"], Link "a/./b/..");
    (["big"], Link (copies 4096 "x")) ].

(** Two links that point at each other. *)
Definition cycle : tree := [ (["a"], Link "/b"); (["b"], Link "/a") ].

(** /a is a link to /b/c, where /b is the first of five links in a row,
    each to [n] times "./" followed by the next name, the last one to the
    directory /e, which holds c/d. Resolving "/b/c/d" takes 5 + 4 * 2040 +
    1831 + 3 = 9999 iterations. *)
Definition dots (n : nat) (name : string) : string := copies n "./" +:+ name.

Definition chain : tree :=
  [ (["a"], Link "/b/c");
    (["b"], Link (dots 2040 "b1")); (["b1"], Link (dots 2040 "b2"));
    (["b2"], Link (dots 2040 "b3")); (["b3"], Link (dots 2040 "b4"));
    (["b4"], Link (dots 1831 "e"));
    (["e"], Dir); (["e"; "c"], Dir); (["e"; "c"; "d"], File) ].

End TreeFS.

(** ** More notions for [xabspath] *)

(** A name that is neither "." nor "..". *)
Definition dotless (c : string) : Prop := c <> "." /\ c <> "..".

(** [plain_walk os i comps]: below the directory [i] the names [comps]
    lead down one after the other, none of them a link, all but the last
    one opening. *)
Fixpoint plain_walk (os : OS) (i : inode os) (comps : list string) : Prop :=
  match comps with
  | [] => True
  | c :: rest =>
      os_readlinkat os i c = Err EINVAL /\
      match rest with
      | [] => True
      | _ => exists j, os_openat os i c = Ok j /\ plain_walk os j rest
      end
  end.

(** The nodes that are allocated beyond those on the two lists. *)
Definition unlisted {os : OS} (l : frame) (st : pstate os) : Z :=
  nodes st - Z.of_nat (length (todo l)) - Z.of_nat (length (done l)).

(** ** The descriptor wrappers and [xreadlink]

    [xcreate], [xopen], [xclose], [xdup] and [xreadlink] of the same file.
    A wrapper returns, or it calls [perror_exit] and the process ends. The
    kernel is asked through [open], [close], [dup] and [readlink]; what it
    answers to [open(path, flags, mode)] and to [readlink(name)] are
    parameters. *)

Inductive call (os : OS) (A : Type) : Type :=
| Ret (a : A) (st : pstate os)
| Die (st : pstate os).
Arguments Ret {os A} a st.
Arguments Die {os A} st.

(** The value of [O_CLOEXEC] in the Linux headers (02000000 octal). *)
Definition O_CLOEXEC : Z := 524288.

Section Wrappers.
Context (os : OS).
Context (os_open : string -> Z -> Z -> sysres (inode os)).
Context (os_readlink : string -> sysres string).

(** [open(path, flags, mode)] *)
Definition open_path (path : string) (flags mode : Z) (st : pstate os)
  : Z * pstate os :=
  match os_open path flags mode with
  | Ok i => let fd := fd_alloc os (fds st) in
            (fd, set_fds os (<[fd := i]> (fds st)) (Opened fd) st)
  | Err e => (-1, set_errno os e st)
  end.

(** [int fd = open(path, flags^O_CLOEXEC, mode); if (fd == -1)
    perror_exit("%s", path); return fd;] *)
Definition xcreate (path : string) (flags mode : Z) (st : pstate os) : call os Z :=
  let '(fd, st) := open_path path (Z.lxor flags O_CLOEXEC) mode st in
  if fd =? -1 then Die st else Ret fd st.

(** [return xcreate(path, flags, 0);] *)
Definition xopen (path : string) (flags : Z) (st : pstate os) : call os Z :=
  xcreate path flags 0 st.

(** [close(fd)] with the value it returns. *)
Definition close_rc (fd : Z) (st : pstate os) : Z * pstate os :=
  match fd_lookup os (fds st) fd with
  | None => (-1, close os fd st)
  | Some _ => (0, close os fd st)
  end.

(** [if (close(fd)) perror_exit("xclose");] *)
Definition xclose (fd : Z) (st : pstate os) : call os unit :=
  let '(rc, st) := close_rc fd st in
  if rc =? 0 then Ret tt st else Die st.

(** [dup(fd)]: the lowest free descriptor, on the file of [fd]. *)
Definition dup (fd : Z) (st : pstate os) : Z * pstate os :=
  match fd_lookup os (fds st) fd with
  | None => (-1, set_errno os EBADF st)
  | Some i => let fd' := fd_alloc os (fds st) in
              (fd', set_fds os (<[fd' := i]> (fds st)) (Opened fd') st)
  end.

(** [if (fd != -1) { fd = dup(fd); if (fd == -1) perror_exit("xdup"); }
    return fd;] *)
Definition xdup (fd : Z) (st : pstate os) : call os Z :=
  if negb (fd =? -1) then
    let '(fd, st) := dup fd st in
    if fd =? -1 then Die st else Ret fd st
  else Ret fd st.

(** [readlink(name, buf, size)]: the bytes of the target that fit. *)
Definition readlink (name : string) (size : Z) (st : pstate os)
  : Z * string * pstate os :=
  match os_readlink name with
  | Ok target =>
      let buf := String.substring 0 (Z.to_nat size) target in
      (Z.of_nat (String.length buf), buf, st)
  | Err e => (-1, "", set_errno os e st)
  end.

(** [xrealloc(buf, size)]: a null [buf] makes a new heap string, a live
    one is resized. *)
Definition xrealloc (live : bool) (size : Z) (st : pstate os) : pstate os :=
  if live then st else add_bufs os 1 st.

(** [for(;;) { size +=64; buf = xrealloc(buf, size); len = readlink(name,
    buf, size); if (len<0) { free(buf); return 0; } if (len<size) {
    buf[len]=0; return buf; } }]: what is returned, the size of the buffer
    at that moment, and the state; [None] when the fuel runs out. [size] is
    kept in Z (an [int] in the source, far above any target length). *)
Fixpoint xreadlink_loop (fuel : nat) (name : string) (size : Z) (live : bool)
                        (st : pstate os) : option (option string * Z * pstate os) :=
  match fuel with
  | O => None
  | S fuel' =>
      let size := size + 64 in
      let st := xrealloc live size st in
      let '(len, buf, st) := readlink name size st in
      if len <? 0 then Some (None, size, free_buf os st)
      else if len <? size then Some (Some buf, size, st)
      else xreadlink_loop fuel' name size true st
  end.

(** As many rounds as the length of the target can ask for. *)
Definition xreadlink_fuel (name : string) : nat :=
  match os_readlink name with
  | Ok target => (String.length target / 64 + 1)%nat
  | Err _ => 1%nat
  end.

(** [int len, size = 0; char *buf = 0; for(;;) ...] *)
Definition xreadlink (name : string) (st : pstate os)
  : option (option string * Z * pstate os) :=
  xreadlink_loop (xreadlink_fuel name) name 0 false st.

End Wrappers.

(** * Properties *)

Section Facts.
Context (os : OS).
Implicit Types (st : pstate os) (l : frame) (t base : gmap Z (inode os)).

(** ** The descriptor table *)

Lemma lowest_free_nonneg t fuel n : 0 <= n -> 0 <= lowest_free os t fuel n.
Proof.
  revert n. induction fuel as [|fuel IH]; intros n Hn; simpl; [lia|].
  destruct (t !! n); [apply IH; lia | lia].
Qed.

Lemma lowest_free_fresh t fuel : forall n (rest : gmap Z (inode os)),
  (forall k, n <= k -> is_Some (t !! k) -> is_Some (rest !! k)) ->
  (size rest <= fuel)%nat ->
  t !! lowest_free os t fuel n = None.
Proof.
  induction fuel as [|fuel IH]; intros n rest Hcover Hsize; simpl.
  - assert (rest = ∅) as -> by (apply map_size_empty_inv; lia).
    destruct (t !! n) eqn:Hn; [|reflexivity].
    destruct (Hcover n) as [x Hx]; [lia | eauto |].
    rewrite lookup_empty in Hx. discriminate.
  - destruct (t !! n) eqn:Hn; [|assumption].
    apply (IH (n + 1) (delete n rest)).
    + intros k Hk Hsome. rewrite lookup_delete_ne by lia.
      apply Hcover; [lia | assumption].
    + destruct (Hcover n) as [x Hx]; [lia | eauto |].
      pose proof (map_size_delete_Some n rest (ltac:(eauto))) as Hd.
      lia.
Qed.

Lemma fd_alloc_fresh t : t !! fd_alloc os t = None.
Proof. unfold fd_alloc. apply (lowest_free_fresh t (size t) 0 t); auto. Qed.

Lemma fd_alloc_nonneg t : 0 <= fd_alloc os t.
Proof. apply lowest_free_nonneg. lia. Qed.

Lemma fd_lookup_insert base fd i :
  0 <= fd -> fd_lookup os (<[fd := i]> base) fd = Some i.
Proof.
  intros Hfd. unfold fd_lookup.
  destruct (fd <? 0) eqn:E; [lia|]. apply lookup_insert_eq.
Qed.

Lemma fd_lookup_minus_one t : fd_lookup os t (-1) = None.
Proof. reflexivity. Qed.

Lemma fd_lookup_Some t fd i :
  fd_lookup os t fd = Some i -> 0 <= fd /\ t !! fd = Some i.
Proof.
  unfold fd_lookup. destruct (fd <? 0) eqn:E; [discriminate|].
  intros H. split; [lia | assumption].
Qed.

End Facts.

Section Budget.
Context (os : OS).
Implicit Types (st : pstate os) (l : frame).

(** ** The loop budget *)

Lemma xabspath_move_try exact s l st l' st' :
  xabspath_move os exact s l st = Continue l' st' -> try l' = try l.
Proof.
  unfold xabspath_move. destruct (xopenat os (dirfd l) s st) as [fd st1].
  destruct (_ && _); [discriminate|]. intros [= <- <-]. reflexivity.
Qed.

Lemma xabspath_lookup_try exact new len buf l st l' st' :
  xabspath_lookup os exact new len buf l st = Continue l' st' -> try l' = try l.
Proof.
  unfold xabspath_lookup.
  destruct (4095 <? len); [discriminate|].
  destruct (len <? 1).
  - destruct (len =? 0); [apply xabspath_move_try|].
    destruct (_ && _); [discriminate|].
    destruct (_ && _); [discriminate|].
    intros H. apply xabspath_move_try in H. exact H.
  - destruct (starts_with_slash buf); simpl;
      destruct (nonempty (splitpath buf)); intros [= <- <-]; reflexivity.
Qed.

(** Every iteration that continues has paid one unit of budget. *)
Lemma xabspath_body_try exact new l st l' st' :
  xabspath_body os exact new l st = Continue l' st' ->
  try l <> 0 /\ try l' = try l - 1.
Proof.
  unfold xabspath_body.
  destruct (try l =? 0) eqn:E0; [discriminate|].
  intros H. split; [lia|]. revert H.
  destruct (_ || _).
  - destruct (str_at new 1 =? 0); [intros [= <- <-]; reflexivity|].
    destruct (llist_pop (done (set_try (try l - 1) l))) as [[x|] d];
      intros H; apply xabspath_lookup_try in H; exact H.
  - destruct (xreadlinkat os _ new 4096 st) as [[len buf] st1].
    intros H; apply xabspath_lookup_try in H; exact H.
Qed.

Lemma xabspath_loop_total exact fuel : forall l st,
  0 <= try l -> (Z.to_nat (try l) < fuel)%nat ->
  xabspath_loop os fuel exact l st <> None.
Proof.
  induction fuel as [|fuel IH]; intros l st Hpos Hfuel; [lia|].
  simpl. destruct (llist_pop (todo l)) as [[new|] rest]; [|discriminate].
  destruct (xabspath_body os exact new (set_todo rest l) st) as [l' st'| |] eqn:Hb;
    try discriminate.
  apply xabspath_body_try in Hb. simpl in Hb. destruct Hb as [Hne Ht].
  apply IH; lia.
Qed.

(** More fuel than the budget needs changes nothing. *)
Lemma xabspath_loop_fuel exact fuel1 : forall fuel2 l st,
  0 <= try l -> (Z.to_nat (try l) < fuel1)%nat -> (Z.to_nat (try l) < fuel2)%nat ->
  xabspath_loop os fuel1 exact l st = xabspath_loop os fuel2 exact l st.
Proof.
  induction fuel1 as [|fuel1 IH]; intros fuel2 l st Hpos H1 H2; [lia|].
  destruct fuel2 as [|fuel2]; [lia|].
  simpl. destruct (llist_pop (todo l)) as [[new|] rest]; [|reflexivity].
  destruct (xabspath_body os exact new (set_todo rest l) st) as [l' st'| |] eqn:Hb;
    try reflexivity.
  apply xabspath_body_try in Hb. simpl in Hb. destruct Hb as [Hne Ht].
  apply IH; lia.
Qed.

Lemma run_total exact l st : 0 <= try l -> run os exact l st <> None.
Proof. intros H. apply xabspath_loop_total; [assumption | lia]. Qed.

(** One [continue] step in front of a run. *)
Lemma run_step exact new rest l st l' st' :
  0 <= try l -> todo l = new :: rest ->
  xabspath_body os exact new (set_todo rest l) st = Continue l' st' ->
  run os exact l st = run os exact l' st'.
Proof.
  intros Hpos Htodo Hb. unfold run at 1.
  replace (Z.to_nat (try l) + 1)%nat with (S (Z.to_nat (try l))) by lia.
  simpl. rewrite Htodo. simpl. rewrite Hb.
  apply xabspath_body_try in Hb. simpl in Hb. destruct Hb as [Hne Ht].
  apply xabspath_loop_fuel; lia.
Qed.

Lemma after_try exact k : forall l st l' st',
  after os exact k l st = Some (l', st') -> try l' = try l - Z.of_nat k.
Proof.
  induction k as [|k IH]; intros l st l' st' H; simpl in H.
  - injection H as <- <-. lia.
  - destruct (llist_pop (todo l)) as [[new|] rest]; [|discriminate].
    destruct (xabspath_body os exact new (set_todo rest l) st) as [l1 st1| |] eqn:Hb;
      try discriminate.
    apply xabspath_body_try in Hb. simpl in Hb. destruct Hb as [Hne Ht].
    apply IH in H. lia.
Qed.

Lemma after_positive exact k : forall l st l' st',
  0 <= try l -> after os exact k l st = Some (l', st') -> 0 <= try l'.
Proof.
  induction k as [|k IH]; intros l st l' st' Hpos H; simpl in H.
  - injection H as <- <-. lia.
  - destruct (llist_pop (todo l)) as [[new|] rest]; [|discriminate].
    destruct (xabspath_body os exact new (set_todo rest l) st) as [l1 st1| |] eqn:Hb;
      try discriminate.
    apply xabspath_body_try in Hb. simpl in Hb. destruct Hb as [Hne Ht].
    apply IH in H; lia.
Qed.

(** A run is the run from any frame that it passes through. *)
Lemma run_after exact k : forall l st l' st',
  0 <= try l -> after os exact k l st = Some (l', st') ->
  run os exact l st = run os exact l' st'.
Proof.
  induction k as [|k IH]; intros l st l' st' Hpos H; simpl in H.
  - injection H as <- <-. reflexivity.
  - destruct (todo l) as [|new rest] eqn:Htodo; [discriminate|]. simpl in H.
    destruct (xabspath_body os exact new (set_todo rest l) st) as [l1 st1| |] eqn:Hb;
      try discriminate.
    rewrite (run_step exact new rest l st l1 st1 Hpos Htodo Hb).
    apply xabspath_body_try in Hb. simpl in Hb. destruct Hb as [Hne Ht].
    apply IH; [lia | assumption].
Qed.

End Budget.

Section Cursor.
Context (os : OS).
Implicit Types (st : pstate os) (l : frame) (base : gmap Z (inode os))
               (blog : list event).

(** ** The directory cursor *)

Lemma cursor_at_ext base blog l l' st st' :
  dirfd l' = dirfd l -> fds st' = fds st -> log st' = log st ->
  cursor_at base blog l st -> cursor_at base blog l' st'.
Proof.
  intros Hd Hf Hl (H0 & Hfresh & [i Hi] & evs & Hlog & Hcl).
  unfold cursor_at. rewrite Hd, Hf, Hl. eauto 10.
Qed.

Lemma cursor_at_lookup base blog l st :
  cursor_at base blog l st -> exists i, fd_lookup os (fds st) (dirfd l) = Some i.
Proof.
  intros (H0 & Hfresh & [i Hi] & _). exists i. rewrite Hi.
  apply fd_lookup_insert. assumption.
Qed.

(** Closing the cursor gives back the table the call started with. *)
Lemma close_cursor base blog l st :
  cursor_at base blog l st ->
  close os (dirfd l) st = set_fds os base (Closed (dirfd l)) st.
Proof.
  intros (H0 & Hfresh & [i Hi] & _). unfold close. rewrite Hi.
  rewrite fd_lookup_insert by assumption.
  rewrite delete_insert_id by assumption. reflexivity.
Qed.

Lemma close_lost st : close os (-1) st = set_errno os EBADF st.
Proof. reflexivity. Qed.

(** After a close, the log can go on with an open. *)
Lemma cursor_reopen base blog l st l' st' fd i :
  cursor_at base blog l st ->
  dirfd l' = fd -> fd = fd_alloc os base ->
  fds st' = <[fd := i]> base ->
  log st' = Opened fd :: Closed (dirfd l) :: log st ->
  cursor_at base blog l' st'.
Proof.
  intros (H0 & Hfresh & [j Hj] & evs & Hlog & Hcl) Hd Hfd Hf Hl.
  subst fd. unfold cursor_at. rewrite Hf, Hl, Hlog, !Hfd.
  split; [apply fd_alloc_nonneg|].
  split; [apply fd_alloc_fresh|].
  split; [eauto|].
  exists (Opened (fd_alloc os base) :: Closed (dirfd l) :: evs).
  split; [reflexivity|]. apply cursor_open, cursor_close. assumption.
Qed.

Lemma xabspath_move_cursor base blog exact s l st :
  cursor_at base blog l st ->
  match xabspath_move os exact s l st with
  | Continue l' st' =>
      todo l' = todo l /\ done l' = done l /\
      (cursor_at base blog l' st' \/ cursor_lost base blog l' st')
  | Break _ _ => False
  | GotoError l' st' =>
      l' = l /\ fds st' = fds st /\ log st' = log st /\ nodes st' = nodes st /\
      bufs st' = bufs st
  end.
Proof.
  intros Hc. pose proof Hc as (H0 & Hfresh & [i Hi] & evs & Hlog & Hcl).
  assert (fd_lookup os (fds st) (dirfd l) = Some i) as Hlk.
  { rewrite Hi. apply fd_lookup_insert. assumption. }
  unfold xabspath_move, xopenat. rewrite Hlk.
  destruct (os_openat os i s) as [j|e].
  - pose proof (fd_alloc_fresh os (fds st)) as Hnew.
    pose proof (fd_alloc_nonneg os (fds st)) as Hnn.
    set (fd := fd_alloc os (fds st)) in *.
    destruct (fd =? -1) eqn:E; [lia|]. simpl.
    assert (fd <> dirfd l) as Hne.
    { intros ->. rewrite Hi, lookup_insert_eq in Hnew. discriminate. }
    split; [reflexivity|]. split; [reflexivity|]. left.
    unfold cursor_at, close. simpl.
    assert (fd_lookup os (<[fd:=j]> (fds st)) (dirfd l) = Some i) as ->.
    { unfold fd_lookup. destruct (dirfd l <? 0) eqn:E2; [lia|].
      rewrite lookup_insert_ne by assumption.
      rewrite Hi. apply lookup_insert_eq. }
    simpl.
    split; [assumption|].
    split. { rewrite Hi, lookup_insert_ne in Hnew by congruence. assumption. }
    split.
    { exists j. rewrite Hi. rewrite delete_insert_ne by congruence.
      rewrite delete_insert_id by assumption. reflexivity. }
    exists (Closed (dirfd l) :: Opened fd :: evs). rewrite Hlog.
    split; [reflexivity|]. apply cursor_descend; assumption.
  - simpl.
    destruct (_ || _ || _) eqn:Hfatal; simpl.
    + repeat split; reflexivity.
    + split; [reflexivity|]. split; [reflexivity|]. right.
      apply orb_false_elim in Hfatal as [Hfatal _].
      apply orb_false_elim in Hfatal as [_ Htodo].
      unfold cursor_lost. simpl.
      split; [reflexivity|].
      split. { destruct (todo l); [reflexivity | discriminate]. }
      unfold close. simpl. rewrite Hlk.
      simpl. split. { rewrite Hi. apply delete_insert_id. assumption. }
      exists (Closed (dirfd l) :: evs). rewrite Hlog.
      split; [reflexivity|]. apply cursor_close. assumption.
Qed.

Lemma xreadlinkat_frame fd name n st :
  let '(len, buf, st') := xreadlinkat os fd name n st in
  fds st' = fds st /\ log st' = log st /\ nodes st' = nodes st /\ bufs st' = bufs st.
Proof.
  unfold xreadlinkat. destruct (fd_lookup os (fds st) fd) as [i|]; [|simpl; auto].
  destruct (os_readlinkat os i name); simpl; auto.
Qed.

Lemma xabspath_lookup_cursor base blog exact new len buf l st :
  cursor_at base blog l st ->
  match xabspath_lookup os exact new len buf l st with
  | Continue l' st' => cursor_at base blog l' st' \/ cursor_lost base blog l' st'
  | Break l' st' => cursor_at base blog l' st' /\ todo l' = []
  | GotoError l' st' => cursor_at base blog l' st'
  end.
Proof.
  intros Hc. unfold xabspath_lookup.
  destruct (4095 <? len); [assumption|].
  destruct (len <? 1).
  - destruct (len =? 0).
    + pose proof (xabspath_move_cursor base blog exact ".." l st Hc) as Hm.
      destruct (xabspath_move os exact ".." l st) as [l' st'| |l' st'].
      * tauto.
      * contradiction.
      * destruct Hm as (-> & Hf & Hl & _).
        eapply cursor_at_ext; [reflexivity | eassumption | eassumption | assumption].
    + destruct (_ && _); [assumption|].
      assert (cursor_at base blog (set_done (new :: done l) l) st) as Hc'.
      { eapply cursor_at_ext; [reflexivity | reflexivity | reflexivity | assumption]. }
      destruct (_ && _) eqn:Hbrk.
      * split; [assumption|].
        apply andb_true_iff in Hbrk as [_ Hbrk]. simpl in Hbrk |- *.
        destruct (todo l); [reflexivity | discriminate].
      * pose proof (xabspath_move_cursor base blog exact new _ st Hc') as Hm.
        destruct (xabspath_move os exact new _ st) as [l' st'| |l' st'].
        -- tauto.
        -- contradiction.
        -- destruct Hm as (-> & Hf & Hl & _).
           eapply cursor_at_ext; [reflexivity | eassumption | eassumption | assumption].
  - destruct (starts_with_slash buf).
    + rewrite (close_cursor base blog (set_done [] l) (llist_traverse_free os (done l) st)).
      2:{ eapply cursor_at_ext; [reflexivity | reflexivity | reflexivity | assumption]. }
      simpl. left.
      destruct (nonempty (splitpath buf));
        (eapply (cursor_reopen base blog l st);
         [assumption | reflexivity | reflexivity | reflexivity | reflexivity]).
    + simpl. left.
      destruct (nonempty (splitpath buf));
        (eapply cursor_at_ext; [reflexivity | reflexivity | reflexivity | assumption]).
Qed.

(** The cursor invariant across one iteration. *)
Lemma xabspath_body_cursor base blog exact new l st :
  cursor_at base blog l st ->
  match xabspath_body os exact new l st with
  | Continue l' st' => cursor_at base blog l' st' \/ cursor_lost base blog l' st'
  | Break l' st' => cursor_at base blog l' st' /\ todo l' = []
  | GotoError l' st' => cursor_at base blog l' st'
  end.
Proof.
  intros Hc. unfold xabspath_body.
  destruct (try l =? 0).
  { eapply cursor_at_ext; [reflexivity | reflexivity | reflexivity | assumption]. }
  destruct (_ || _).
  - destruct (str_at new 1 =? 0).
    { left. eapply cursor_at_ext; [reflexivity | reflexivity | reflexivity | assumption]. }
    destruct (llist_pop (done (set_try (try l - 1) l))) as [[x|] d];
      apply xabspath_lookup_cursor;
      (eapply cursor_at_ext; [reflexivity | reflexivity | reflexivity | assumption]).
  - pose proof (xreadlinkat_frame (dirfd (set_try (try l - 1) l)) new 4096 st) as Hr.
    destruct (xreadlinkat os _ new 4096 st) as [[len buf] st1].
    destruct Hr as (Hf & Hl & _).
    apply xabspath_lookup_cursor.
    eapply cursor_at_ext; [reflexivity | eassumption | eassumption | assumption].
Qed.

(** At the end of the loop there is nothing left to resolve and the cursor
    invariant holds; at the [error] label the cursor is still held. *)
Lemma xabspath_loop_cursor base blog exact fuel : forall l st,
  cursor_at base blog l st \/ cursor_lost base blog l st ->
  match xabspath_loop os fuel exact l st with
  | None => True
  | Some (LoopExit l' st') =>
      todo l' = [] /\ (cursor_at base blog l' st' \/ cursor_lost base blog l' st')
  | Some (LoopError l' st') => cursor_at base blog l' st'
  end.
Proof.
  induction fuel as [|fuel IH]; intros l st Hc; simpl.
  - destruct (todo l) eqn:Ht; simpl; auto.
  - destruct (todo l) as [|new rest] eqn:Ht; simpl; [auto|].
    destruct Hc as [Hc | (_ & Hnil & _)]; [|congruence].
    assert (cursor_at base blog (set_todo rest l) st) as Hc'.
    { eapply cursor_at_ext; [reflexivity | reflexivity | reflexivity | assumption]. }
    pose proof (xabspath_body_cursor base blog exact new _ st Hc') as Hb.
    destruct (xabspath_body os exact new (set_todo rest l) st) as [l' st'|l' st'|l' st'].
    + apply IH. assumption.
    + destruct Hb as [Hb Hnil]. auto.
    + assumption.
Qed.

End Cursor.

(** ** Components and the assembled string *)

Lemma has_slash_app a b : has_slash (a +:+ b) = has_slash a || has_slash b.
Proof.
  induction a as [|c a IH]; [reflexivity|].
  change (String c a +:+ b) with (String c (a +:+ b)). simpl.
  rewrite IH. apply orb_assoc.
Qed.

Lemma component_good cur :
  has_slash cur = false -> Forall good (component cur).
Proof.
  intros H. destruct cur; simpl; constructor; [|constructor].
  split; [discriminate | assumption].
Qed.

Lemma splitpath_from_good path : forall cur,
  has_slash cur = false -> Forall good (splitpath_from cur path).
Proof.
  induction path as [|c path IH]; intros cur Hcur; simpl.
  - apply component_good. assumption.
  - destruct (Ascii.eqb c "/") eqn:Hc.
    + apply Forall_app. split; [apply component_good; assumption | apply IH; reflexivity].
    + apply IH. rewrite has_slash_app. simpl. rewrite Hcur, Hc. reflexivity.
Qed.

Lemma splitpath_good path : Forall good (splitpath path).
Proof. apply splitpath_from_good. reflexivity. Qed.

Lemma reverse_count_fst d : forall t n,
  fst (reverse_count d t n) = (rev d ++ t)%list.
Proof.
  induction d as [|x d IH]; intros t n; simpl; [reflexivity|].
  rewrite IH. rewrite <- app_assoc. reflexivity.
Qed.


Lemma app_string_cons x a b : String x a +:+ b = String x (a +:+ b).
Proof. reflexivity. Qed.

Lemma app_string_empty b : "" +:+ b = b.
Proof. reflexivity. Qed.

Lemma length_app_string a b :
  String.length (a +:+ b) = (String.length a + String.length b)%nat.
Proof.
  induction a as [|c a IH]; [reflexivity|].
  rewrite app_string_cons. simpl. rewrite IH. reflexivity.
Qed.

Lemma app_string_assoc a b c : (a +:+ b) +:+ c = a +:+ (b +:+ c).
Proof.
  induction a as [|x a IH]; [reflexivity|].
  rewrite !app_string_cons, IH. reflexivity.
Qed.

Lemma app_string_nil a : a +:+ "" = a.
Proof.
  induction a as [|x a IH]; [reflexivity|].
  rewrite app_string_cons, IH. reflexivity.
Qed.

Section Assemble.
Context (os : OS).
Implicit Types (st : pstate os).

Lemma assemble_long comps : forall ret st,
  (1 < String.length ret)%nat ->
  fst (assemble os comps ret st) = ret +:+ slashed comps.
Proof.
  induction comps as [|c comps IH]; intros ret st Hlen; simpl.
  - symmetry. apply app_string_nil.
  - destruct (1 <? Z.of_nat (String.length ret)) eqn:E; [|lia].
    rewrite IH.
    + rewrite !app_string_assoc. reflexivity.
    + rewrite !length_app_string. simpl. lia.
Qed.

(** What [assemble] writes after the leading '/'. *)
Lemma assemble_canonical comps st :
  Forall good comps -> fst (assemble os comps "/" st) = canonical comps.
Proof.
  intros Hgood. destruct comps as [|c comps]; [reflexivity|].
  simpl. rewrite assemble_long.
  - reflexivity.
  - apply Forall_cons in Hgood as [[Hne _] _].
    destruct c; [congruence | simpl; lia].
Qed.

Lemma assemble_state comps : forall ret st,
  snd (assemble os comps ret st) = add_nodes os (- Z.of_nat (length comps)) st.
Proof.
  induction comps as [|c comps IH]; intros ret st.
  - simpl. destruct st; unfold add_nodes; simpl. f_equal. lia.
  - cbn [assemble]. rewrite IH. destruct st; unfold add_nodes, free_node; simpl.
    f_equal. lia.
Qed.

End Assemble.

Lemma double_slash_skip x : forall r,
  has_slash x = false -> double_slash (x +:+ r) = double_slash r.
Proof.
  induction x as [|a x IH]; intros r Hx; [reflexivity|].
  simpl in Hx. apply orb_false_elim in Hx as [Ha Hx].
  destruct x as [|b x'].
  - rewrite app_string_cons, app_string_empty.
    destruct r; [reflexivity|]. cbn [double_slash]. rewrite Ha. reflexivity.
  - rewrite <- (IH r Hx). rewrite !app_string_cons.
    cbn [double_slash]. rewrite Ha. reflexivity.
Qed.

Lemma slashed_no_double comps :
  Forall good comps -> double_slash (slashed comps) = false.
Proof.
  induction 1 as [|c comps [Hne Hc] _ IH]; [reflexivity|].
  destruct c as [|a c']; [congruence|].
  pose proof Hc as Hc'. simpl in Hc'. apply orb_false_elim in Hc' as [Ha _].
  rewrite <- IH, <- (double_slash_skip (String a c') (slashed comps) Hc).
  cbn [slashed]. rewrite !app_string_cons, app_string_empty.
  cbn [double_slash]. rewrite Ha, andb_false_r. reflexivity.
Qed.

Lemma last_char_app a : forall b, b <> "" -> last_char (a +:+ b) = last_char b.
Proof.
  induction a as [|x a IH]; intros b Hb; [reflexivity|].
  rewrite app_string_cons. cbn [last_char]. rewrite IH by assumption.
  destruct (a +:+ b) eqn:E; [|reflexivity].
  destruct a; [rewrite app_string_empty in E; congruence|].
  rewrite app_string_cons in E. discriminate.
Qed.

Lemma last_char_no_slash c ch :
  has_slash c = false -> last_char c = Some ch -> Ascii.eqb ch "/" = false.
Proof.
  induction c as [|a c IH]; intros Hc Hl; [discriminate|].
  simpl in Hc. apply orb_false_elim in Hc as [Ha Hc].
  simpl in Hl. destruct c; [injection Hl as <-; assumption|].
  apply IH; assumption.
Qed.

Lemma slashed_last comps :
  Forall good comps -> comps <> [] ->
  exists ch, last_char (slashed comps) = Some ch /\ Ascii.eqb ch "/" = false.
Proof.
  induction 1 as [|c comps [Hne Hc] Hall IH]; intros Hnil; [congruence|].
  cbn [slashed]. destruct comps as [|c2 comps'].
  - cbn [slashed]. rewrite app_string_nil.
    rewrite last_char_app by assumption.
    destruct (last_char c) as [ch|] eqn:E.
    + exists ch. split; [reflexivity | eapply last_char_no_slash; eassumption].
    + exfalso. clear -E Hne. induction c as [|a c IH]; [congruence|].
      simpl in E. destruct c; [discriminate|]. apply IH; [discriminate | assumption].
  - destruct IH as (ch & Hch & Hns); [discriminate|].
    exists ch. split; [|assumption].
    rewrite <- app_string_assoc.
    rewrite last_char_app; [assumption|].
    cbn [slashed]. rewrite app_string_cons. discriminate.
Qed.

Section Components.
Context (os : OS).
Implicit Types (st : pstate os) (l : frame).

Lemma xabspath_move_good exact s l st :
  good_frame l -> good_ctl (xabspath_move os exact s l st).
Proof.
  intros Hg. unfold xabspath_move.
  destruct (xopenat os (dirfd l) s st) as [fd st1].
  destruct (_ && _); exact Hg.
Qed.

Lemma xabspath_lookup_good exact new len buf l st :
  good new -> good_frame l -> good_ctl (xabspath_lookup os exact new len buf l st).
Proof.
  intros Hnew Hg. unfold xabspath_lookup.
  destruct (4095 <? len); [exact Hg|].
  destruct (len <? 1).
  - destruct (len =? 0); [apply xabspath_move_good; exact Hg|].
    destruct (_ && _); [exact Hg|].
    assert (good_frame (set_done (new :: done l) l)) as Hg'.
    { destruct Hg as [Ht Hd]. split; [exact Ht | constructor; assumption]. }
    destruct (_ && _); [exact Hg' | apply xabspath_move_good; exact Hg'].
  - destruct Hg as [Ht Hd].
    destruct (starts_with_slash buf); simpl;
      destruct (nonempty (splitpath buf)); simpl; split; simpl;
        try assumption; try constructor;
        (apply Forall_app; split; [apply splitpath_good | assumption]).
Qed.

Lemma xabspath_body_good exact new l st :
  good new -> good_frame l -> good_ctl (xabspath_body os exact new l st).
Proof.
  intros Hnew Hg. unfold xabspath_body.
  destruct (try l =? 0); [exact Hg|].
  destruct (_ || _).
  - destruct (str_at new 1 =? 0); [exact Hg|].
    destruct Hg as [Ht Hd]. simpl.
    destruct (done l) as [|x d] eqn:Hdone; simpl;
      apply xabspath_lookup_good; try assumption; split; simpl;
        try assumption; rewrite ?Hdone; try constructor.
    apply Forall_cons in Hd as [_ Hd]. assumption.
  - destruct (xreadlinkat os _ new 4096 st) as [[len buf] st1].
    apply xabspath_lookup_good; assumption.
Qed.

Lemma xabspath_loop_good exact fuel : forall l st,
  good_frame l ->
  match xabspath_loop os fuel exact l st with
  | None => True
  | Some (LoopExit l' _) | Some (LoopError l' _) => good_frame l'
  end.
Proof.
  induction fuel as [|fuel IH]; intros l st Hg; simpl.
  - destruct (todo l); simpl; auto.
  - destruct (todo l) as [|new rest] eqn:Ht; simpl; [assumption|].
    destruct Hg as [Hgt Hgd]. rewrite Ht in Hgt.
    apply Forall_cons in Hgt as [Hnew Hrest].
    pose proof (xabspath_body_good exact new (set_todo rest l) st Hnew
                  (conj Hrest Hgd)) as Hb.
    destruct (xabspath_body os exact new (set_todo rest l) st) as [l' st'|l' st'|l' st'];
      [apply IH | |]; exact Hb.
Qed.

Lemma after_good exact k : forall l st l' st',
  good_frame l -> after os exact k l st = Some (l', st') -> good_frame l'.
Proof.
  induction k as [|k IH]; intros l st l' st' Hg H; simpl in H.
  - injection H as <- <-. assumption.
  - destruct (todo l) as [|new rest] eqn:Ht; simpl in H; [discriminate|].
    destruct Hg as [Hgt Hgd]. rewrite Ht in Hgt.
    apply Forall_cons in Hgt as [Hnew Hrest].
    pose proof (xabspath_body_good exact new (set_todo rest l) st Hnew
                  (conj Hrest Hgd)) as Hb.
    destruct (xabspath_body os exact new (set_todo rest l) st) as [l1 st1| |];
      try discriminate.
    eapply IH; eassumption.
Qed.

Lemma after_cursor base blog exact k : forall l st l' st',
  cursor_at base blog l st -> after os exact k l st = Some (l', st') ->
  cursor_at base blog l' st' \/ cursor_lost base blog l' st'.
Proof.
  induction k as [|k IH]; intros l st l' st' Hc H; simpl in H.
  - injection H as <- <-. left. assumption.
  - destruct (todo l) as [|new rest] eqn:Ht; simpl in H; [discriminate|].
    assert (cursor_at base blog (set_todo rest l) st) as Hc'.
    { eapply cursor_at_ext; [reflexivity | reflexivity | reflexivity | assumption]. }
    pose proof (xabspath_body_cursor os base blog exact new _ st Hc') as Hb.
    destruct (xabspath_body os exact new (set_todo rest l) st) as [l1 st1| |];
      try discriminate.
    destruct Hb as [Hb | Hb].
    + eapply IH; eassumption.
    + destruct k; simpl in H.
      * injection H as <- <-. right. assumption.
      * destruct Hb as (_ & Hnil & _). rewrite Hnil in H. discriminate.
Qed.

(** ** The seed *)

Lemma xabspath_seed_facts budget path st l0 st0 :
  xabspath_seed os budget path st = Some (l0, st0) ->
  cursor_at (fds st) (log st) l0 st0 /\ good_frame l0 /\
  try l0 = budget /\ done l0 = [] /\ errno st0 = errno st /\
  bufs st0 = bufs st /\ nodes st0 = nodes st + Z.of_nat (length (todo l0)).
Proof.
  unfold xabspath_seed, open_root.
  assert (forall tl n1 b1 n,
    cursor_at (fds st) (log st)
      {| todo := tl; done := []; try := n; dirfd := fd_alloc os (fds st) |}
      {| errno := errno st;
         fds := <[fd_alloc os (fds st) := os_root os]> (fds st);
         nodes := n1; bufs := b1;
         log := Opened (fd_alloc os (fds st)) :: log st |}) as Hcur.
  { intros. unfold cursor_at. simpl.
    split; [apply fd_alloc_nonneg|]. split; [apply fd_alloc_fresh|].
    split; [eauto|]. exists [Opened (fd_alloc os (fds st))].
    split; [reflexivity|]. apply cursor_open, cursor_start. }
  destruct (negb (starts_with_slash path)).
  - unfold xgetcwd. destruct (os_getcwd os) as [temp|e]; [|discriminate].
    simpl. intros [= <- <-]. simpl.
    split; [apply Hcur|].
    split. { split; simpl; [|constructor].
             apply Forall_app. split; apply splitpath_good. }
    rewrite length_app. repeat split; lia.
  - simpl. intros [= <- <-]. simpl.
    split; [apply Hcur|].
    split. { split; simpl; [apply splitpath_good | constructor]. }
    repeat split; lia.
Qed.

End Components.

Section Steps.
Context (os : OS).
Implicit Types (st : pstate os) (l : frame) (base : gmap Z (inode os))
               (blog : list event).

(** ** What single iterations do *)

Lemma xreadlinkat_err fd name n st i e :
  fd_lookup os (fds st) fd = Some i -> os_readlinkat os i name = Err e ->
  xreadlinkat os fd name n st = (-1, "", set_errno os e st).
Proof. intros Hi He. unfold xreadlinkat. rewrite Hi, He. reflexivity. Qed.

Lemma xreadlinkat_ok fd name n st i target :
  fd_lookup os (fds st) fd = Some i -> os_readlinkat os i name = Ok target ->
  xreadlinkat os fd name n st =
    (Z.of_nat (String.length (String.substring 0 n target)),
     String.substring 0 n target, st).
Proof. intros Hi He. unfold xreadlinkat. rewrite Hi, He. reflexivity. Qed.

Lemma substring_all s : forall n,
  (String.length s <= n)%nat -> String.substring 0 n s = s.
Proof.
  induction s as [|c s IH]; intros n Hn; destruct n; simpl in *;
    try reflexivity; try lia.
  rewrite IH by lia. reflexivity.
Qed.

Lemma length_substring s : forall n,
  String.length (String.substring 0 n s) = Nat.min n (String.length s).
Proof.
  induction s as [|c s IH]; intros n; destruct n; simpl; try reflexivity.
  rewrite IH. reflexivity.
Qed.

(** A name that is neither "." nor ".." goes to the symlink read. *)
Lemma xabspath_body_name exact name l st :
  try l <> 0 -> name <> "." -> name <> ".." ->
  xabspath_body os exact name l st =
    let '(len, buf, st1) := xreadlinkat os (dirfd l) name 4096 st in
    xabspath_lookup os exact name len buf (set_try (try l - 1) l) st1.
Proof.
  intros Ht H1 H2. unfold xabspath_body.
  destruct (try l =? 0) eqn:E; [lia|].
  apply String.eqb_neq in H1, H2. rewrite H1, H2. reflexivity.
Qed.

(** The move to a directory that opens. *)
Lemma xabspath_move_ok base blog exact s l st i j :
  cursor_at base blog l st ->
  fd_lookup os (fds st) (dirfd l) = Some i -> os_openat os i s = Ok j ->
  exists fd st',
    xabspath_move os exact s l st = Continue (set_dirfd fd l) st' /\
    cursor_at base blog (set_dirfd fd l) st' /\
    fd_lookup os (fds st') fd = Some j /\
    errno st' = errno st /\ nodes st' = nodes st /\ bufs st' = bufs st.
Proof.
  intros Hc Hi Hj.
  pose proof (xabspath_move_cursor os base blog exact s l st Hc) as Hm.
  pose proof (fd_lookup_Some os _ _ _ Hi) as [H0 Hi'].
  pose proof (fd_alloc_nonneg os (fds st)) as Hnn.
  pose proof (fd_alloc_fresh os (fds st)) as Hfr.
  assert (fd_alloc os (fds st) <> dirfd l) as Hne by congruence.
  assert (fd_lookup os (<[fd_alloc os (fds st) := j]> (fds st)) (dirfd l) = Some i)
    as Hold.
  { unfold fd_lookup. destruct (dirfd l <? 0) eqn:E2; [lia|].
    rewrite lookup_insert_ne by assumption. assumption. }
  unfold xabspath_move, xopenat in Hm |- *. rewrite Hi, Hj in Hm |- *.
  destruct (fd_alloc os (fds st) =? -1) eqn:E; [lia|].
  cbn [andb] in Hm |- *.
  eexists _, _. split; [reflexivity|].
  destruct Hm as (_ & _ & [Hm | Hm]).
  - split; [exact Hm|].
    unfold close. cbn [fds set_fds]. rewrite Hold. simpl.
    split; [|auto].
    unfold fd_lookup. destruct (fd_alloc os (fds st) <? 0) eqn:E2; [lia|].
    rewrite lookup_delete_ne by congruence. apply lookup_insert_eq.
  - destruct Hm as (Hm & _). simpl in Hm. lia.
Qed.

(** The move that fails. *)
Lemma xabspath_move_err exact s l st i e :
  fd_lookup os (fds st) (dirfd l) = Some i -> os_openat os i s = Err e ->
  xabspath_move os exact s l st =
    if negb (exact =? 0) || nonempty (todo l) || negb (e =? ENOENT)
    then GotoError l (set_errno os e st)
    else Continue (set_dirfd (-1) l) (close os (dirfd l) (set_errno os e st)).
Proof.
  intros Hi He. unfold xabspath_move, xopenat. rewrite Hi, He. reflexivity.
Qed.

End Steps.

Section Endings.
Context (os : OS).
Implicit Types (st : pstate os) (l : frame) (base : gmap Z (inode os))
               (blog : list event).

(** ** The two ways out *)

(** The [error] label: the handle is closed, both lists are freed, and
    [errno] is the one the failure left. *)
Lemma xabspath_error_facts base blog l st :
  cursor_at base blog l st ->
  exists st',
    xabspath_error os l st = Returned None st' /\
    fds st' = base /\ errno st' = errno st /\ bufs st' = bufs st /\
    nodes st' = nodes st - Z.of_nat (length (todo l)) - Z.of_nat (length (done l)) /\
    log st' = Closed (dirfd l) :: log st.
Proof.
  intros Hc. unfold xabspath_error. rewrite (close_cursor os base blog l st Hc).
  eexists. split; [reflexivity|]. simpl. repeat split; lia.
Qed.

Lemma xabspath_finish_ret l st :
  good_frame l -> todo l = [] ->
  exists st', xabspath_finish os l st = Returned (Some (canonical (rev (done l)))) st'.
Proof.
  intros [_ Hgd] Hnil. unfold xabspath_finish.
  pose proof (reverse_count_fst (done l) (todo l) 2) as Hr.
  destruct (reverse_count (done l) (todo l) 2) as [todo' n]. simpl in Hr.
  rewrite Hnil, app_nil_r in Hr. subst todo'.
  pose proof (assemble_canonical os (rev (done l))
                (xmalloc os n (close os (dirfd l) st))) as Ha.
  destruct (assemble os (rev (done l)) "/" _) as [ret st2]. simpl in Ha.
  rewrite Ha.
  - eexists. reflexivity.
  - apply Forall_rev. assumption.
Qed.

Lemma xabspath_finish_state base blog l st ret st' :
  cursor_at base blog l st \/ cursor_lost base blog l st ->
  xabspath_finish os l st = Returned ret st' ->
  fds st' = base /\ bufs st' = bufs st + 1 /\
  exists evs, log st' = (evs ++ blog)%list /\ cursor_log None evs.
Proof.
  intros Hc. unfold xabspath_finish.
  destruct (reverse_count (done l) (todo l) 2) as [todo' n].
  pose proof (assemble_state os todo' "/" (xmalloc os n (close os (dirfd l) st))) as Ha.
  destruct (assemble os todo' "/" _) as [r st2]. simpl in Ha.
  intros [= _ <-]. subst st2.
  destruct Hc as [Hc | (Hd & _ & Hf & evs & Hl & Hcl)].
  - rewrite (close_cursor os base blog l st Hc). simpl.
    split; [reflexivity|]. split; [reflexivity|].
    destruct Hc as (_ & _ & _ & evs & Hl & Hcl).
    exists (Closed (dirfd l) :: evs). rewrite Hl.
    split; [reflexivity|]. apply cursor_close. assumption.
  - rewrite Hd, close_lost. simpl. eauto.
Qed.

(** The loop never allocates or frees a heap string. *)
Lemma close_bufs fd st : bufs (close os fd st) = bufs st.
Proof. unfold close. destruct (fd_lookup os (fds st) fd); reflexivity. Qed.

Lemma xopenat_bufs fd s st : bufs (snd (xopenat os fd s st)) = bufs st.
Proof.
  unfold xopenat. destruct (fd_lookup os (fds st) fd) as [i|]; [|reflexivity].
  destruct (os_openat os i s); reflexivity.
Qed.

Lemma xabspath_move_bufs exact s l st :
  match xabspath_move os exact s l st with
  | Continue _ st' | Break _ st' | GotoError _ st' => bufs st' = bufs st
  end.
Proof.
  unfold xabspath_move.
  pose proof (xopenat_bufs (dirfd l) s st) as Ho.
  destruct (xopenat os (dirfd l) s st) as [fd st1]. simpl in Ho.
  destruct (_ && _); [assumption|]. rewrite close_bufs. assumption.
Qed.

Lemma xabspath_lookup_bufs exact new len buf l st :
  match xabspath_lookup os exact new len buf l st with
  | Continue _ st' | Break _ st' | GotoError _ st' => bufs st' = bufs st
  end.
Proof.
  unfold xabspath_lookup.
  destruct (4095 <? len); [reflexivity|].
  destruct (len <? 1).
  - destruct (len =? 0); [apply xabspath_move_bufs|].
    destruct (_ && _); [reflexivity|].
    destruct (_ && _); [reflexivity|]. apply xabspath_move_bufs.
  - destruct (starts_with_slash buf); simpl; [|reflexivity].
    apply (close_bufs (dirfd l) (llist_traverse_free os (done l) st)).
Qed.

Lemma xabspath_body_bufs exact new l st :
  match xabspath_body os exact new l st with
  | Continue _ st' | Break _ st' | GotoError _ st' => bufs st' = bufs st
  end.
Proof.
  unfold xabspath_body.
  destruct (try l =? 0); [reflexivity|].
  destruct (_ || _).
  - destruct (str_at new 1 =? 0); [reflexivity|].
    destruct (llist_pop (done (set_try (try l - 1) l))) as [[x|] d].
    + apply (xabspath_lookup_bufs exact new 0 "" _ (free_node os (free_node os st))).
    + apply (xabspath_lookup_bufs exact new 0 "" _ (free_node os st)).
  - pose proof (xreadlinkat_frame os (dirfd (set_try (try l - 1) l)) new 4096 st) as Hr.
    destruct (xreadlinkat os _ new 4096 st) as [[len buf] st1].
    destruct Hr as (_ & _ & _ & Hb).
    pose proof (xabspath_lookup_bufs exact new len buf (set_try (try l - 1) l) st1) as H.
    destruct (xabspath_lookup os exact new len buf _ st1); congruence.
Qed.

Lemma xabspath_loop_bufs exact fuel : forall l st,
  match xabspath_loop os fuel exact l st with
  | None => True
  | Some (LoopExit _ st') | Some (LoopError _ st') => bufs st' = bufs st
  end.
Proof.
  induction fuel as [|fuel IH]; intros l st; simpl.
  - destruct (todo l); simpl; auto.
  - destruct (todo l) as [|new rest]; simpl; [reflexivity|].
    pose proof (xabspath_body_bufs exact new (set_todo rest l) st) as Hb.
    destruct (xabspath_body os exact new (set_todo rest l) st) as [l' st'|l' st'|l' st'];
      try assumption.
    specialize (IH l' st').
    destruct (xabspath_loop os fuel exact l' st') as [[? ?|? ?]|];
      try exact I; congruence.
Qed.

(** A call as a seed, a run and one of the two endings. *)
Lemma xabspath_unfold path exact st l0 st0 :
  xabspath_seed os 9999 path st = Some (l0, st0) ->
  xabspath os path exact st = xabspath_end os (run os exact l0 st0).
Proof. intros H. unfold xabspath, xabspath_budget. rewrite H. reflexivity. Qed.

Lemma xabspath_exit path exact st :
  xabspath_seed os 9999 path st = None ->
  xabspath os path exact st = Exited (snd (xgetcwd os (snd (open_root os st)))).
Proof. intros H. unfold xabspath, xabspath_budget. rewrite H. reflexivity. Qed.



End Endings.

Section Calls.
Context (os : OS).
Implicit Types (st : pstate os) (l : frame).

(** ** Whole calls *)

Lemma run_facts budget path exact st l0 st0 :
  0 <= budget ->
  xabspath_seed os budget path st = Some (l0, st0) ->
  match run os exact l0 st0 with
  | None => False
  | Some (LoopExit l stf) =>
      todo l = [] /\ good_frame l /\ bufs stf = bufs st /\
      (cursor_at (fds st) (log st) l stf \/ cursor_lost (fds st) (log st) l stf)
  | Some (LoopError l stf) =>
      good_frame l /\ bufs stf = bufs st /\ cursor_at (fds st) (log st) l stf
  end.
Proof.
  intros Hb Hseed.
  apply xabspath_seed_facts in Hseed as (Hc & Hg & Ht & _ & _ & Hbufs & _).
  pose proof (run_total os exact l0 st0 ltac:(lia)) as Htot.
  pose proof (xabspath_loop_cursor os (fds st) (log st) exact
                (Z.to_nat (try l0) + 1) l0 st0 (or_introl Hc)) as Hcur.
  pose proof (xabspath_loop_good os exact (Z.to_nat (try l0) + 1) l0 st0 Hg) as Hgood.
  pose proof (xabspath_loop_bufs os exact (Z.to_nat (try l0) + 1) l0 st0) as Hbuf.
  unfold run in *.
  destruct (xabspath_loop os _ exact l0 st0) as [[l stf|l stf]|]; [| |congruence].
  - destruct Hcur as [Hnil Hcur].
    split; [assumption|]. split; [assumption|]. split; [congruence | assumption].
  - split; [assumption|]. split; [congruence | assumption].
Qed.

(** C7 (as amended): every failure met once the pending list is seeded
    leaves through the [error] label, and only failures do. There the
    directory handle is still held; the label closes it, so that the
    descriptor table is the one the call started with, frees the nodes of
    [todo] and of [done], leaves [errno] as the failing step left it, and
    returns NULL; no heap string stays allocated (the result buffer is only
    made after the loop has succeeded). The one failure that does not take
    this way is that of [getcwd] on a path that does not start with '/':
    the process ends in [xgetcwd] and nothing is returned, with the handle
    on the root still open, [errno] as [getcwd] set it, and no node and no
    heap string made. *)
Theorem xabspath_failure_cleanup path exact st :
  (forall l0 st0 l stf,
     xabspath_seed os 9999 path st = Some (l0, st0) ->
     run os exact l0 st0 = Some (LoopError l stf) ->
     exists st', xabspath os path exact st = Returned None st') /\
  (forall st',
     xabspath os path exact st = Returned None st' ->
     exists l0 st0 l stf,
       xabspath_seed os 9999 path st = Some (l0, st0) /\
       run os exact l0 st0 = Some (LoopError l stf) /\
       is_Some (fd_lookup os (fds stf) (dirfd l)) /\
       fds st' = fds st /\
       log st' = Closed (dirfd l) :: log stf /\
       errno st' = errno stf /\
       nodes st' = nodes stf - Z.of_nat (length (todo l))
                             - Z.of_nat (length (done l)) /\
       bufs st' = bufs st) /\
  (forall e,
     starts_with_slash path = false -> os_getcwd os = Err e ->
     exists st', xabspath os path exact st = Exited st') /\
  (forall st',
     xabspath os path exact st = Exited st' ->
     starts_with_slash path = false /\
     exists e,
       os_getcwd os = Err e /\
       errno st' = e /\
       fds st' = <[fd_alloc os (fds st) := os_root os]> (fds st) /\
       fd_lookup os (fds st) (fd_alloc os (fds st)) = None /\
       fd_lookup os (fds st') (fd_alloc os (fds st)) = Some (os_root os) /\
       log st' = Opened (fd_alloc os (fds st)) :: log st /\
       nodes st' = nodes st /\ bufs st' = bufs st).
Proof.
  split; [|split; [|split]].
  - intros l0 st0 l stf Hseed Hrun.
    rewrite (xabspath_unfold os path exact st l0 st0 Hseed), Hrun. simpl.
    unfold xabspath_error. eexists. reflexivity.
  - intros st' Hcall.
    destruct (xabspath_seed os 9999 path st) as [[l0 st0]|] eqn:Hseed.
    2:{ rewrite (xabspath_exit os path exact st Hseed) in Hcall. discriminate. }
    rewrite (xabspath_unfold os path exact st l0 st0 Hseed) in Hcall.
    pose proof (run_facts 9999 path exact st l0 st0 ltac:(lia) Hseed) as Hf.
    destruct (run os exact l0 st0) as [[l stf|l stf]|] eqn:Hrun; [| |contradiction].
    + destruct Hf as (Hnil & Hg & _).
      destruct (xabspath_finish_ret os l stf Hg Hnil) as [st2 H2].
      simpl in Hcall. rewrite H2 in Hcall. discriminate.
    + destruct Hf as (Hg & Hbufs & Hc).
      destruct (xabspath_error_facts os _ _ l stf Hc)
        as (st2 & H2 & Hfds & Herr & Hb & Hn & Hl).
      simpl in Hcall. rewrite H2 in Hcall. injection Hcall as <-.
      exists l0, st0, l, stf.
      destruct (cursor_at_lookup os _ _ l stf Hc) as [i Hi].
      repeat split; try assumption; try congruence. rewrite Hi. eauto.
  - intros e Hrel Hcwd.
    assert (xabspath_seed os 9999 path st = None) as Hseed.
    { unfold xabspath_seed, open_root, xgetcwd. rewrite Hrel, Hcwd. reflexivity. }
    rewrite (xabspath_exit os path exact st Hseed). eexists. reflexivity.
  - intros st' Hcall.
    destruct (xabspath_seed os 9999 path st) as [[l0 st0]|] eqn:Hseed.
    + exfalso.
      rewrite (xabspath_unfold os path exact st l0 st0 Hseed) in Hcall.
      pose proof (run_facts 9999 path exact st l0 st0 ltac:(lia) Hseed) as Hf.
      destruct (run os exact l0 st0) as [[l stf|l stf]|]; [| |contradiction].
      * destruct Hf as (Hnil & Hg & _).
        destruct (xabspath_finish_ret os l stf Hg Hnil) as [st2 H2].
        simpl in Hcall. rewrite H2 in Hcall. discriminate.
      * simpl in Hcall. unfold xabspath_error in Hcall. discriminate.
    + rewrite (xabspath_exit os path exact st Hseed) in Hcall.
      revert Hseed Hcall. unfold xabspath_seed, open_root, xgetcwd.
      destruct (starts_with_slash path); [discriminate|]. simpl.
      destruct (os_getcwd os) as [cwd|e]; [discriminate|].
      intros _ [= <-]. simpl.
      split; [reflexivity|]. exists e.
      pose proof (fd_alloc_nonneg os (fds st)) as H0.
      repeat split.
      * unfold fd_lookup. destruct (fd_alloc os (fds st) <? 0); [reflexivity|].
        apply fd_alloc_fresh.
      * apply fd_lookup_insert. exact H0.
Qed.

(** C10: a string that [xabspath] returns spells the components of the
    resolved list, oldest first, each after one '/', and is "/" when the
    list is empty; so it is not empty, starts with '/', has no two '/' in a
    row, and ends in '/' only when it is "/". *)
Theorem xabspath_result_shape path exact st s st' :
  xabspath os path exact st = Returned (Some s) st' ->
  exists l0 st0 l stf,
    xabspath_seed os 9999 path st = Some (l0, st0) /\
    run os exact l0 st0 = Some (LoopExit l stf) /\
    s = canonical (rev (done l)) /\
    Forall good (rev (done l)) /\
    s <> "" /\ starts_with_slash s = true /\
    (done l = [] -> s = "/") /\
    double_slash s = false /\
    (s <> "/" -> exists ch, last_char s = Some ch /\ Ascii.eqb ch "/" = false).
Proof.
  intros Hcall.
  destruct (xabspath_seed os 9999 path st) as [[l0 st0]|] eqn:Hseed.
  2:{ rewrite (xabspath_exit os path exact st Hseed) in Hcall. discriminate. }
  rewrite (xabspath_unfold os path exact st l0 st0 Hseed) in Hcall.
  pose proof (run_facts 9999 path exact st l0 st0 ltac:(lia) Hseed) as Hf.
  destruct (run os exact l0 st0) as [[l stf|l stf]|] eqn:Hrun; [| |contradiction].
  2:{ simpl in Hcall. unfold xabspath_error in Hcall. discriminate. }
  destruct Hf as (Hnil & Hg & _).
  destruct (xabspath_finish_ret os l stf Hg Hnil) as [st2 H2].
  simpl in Hcall. rewrite H2 in Hcall. injection Hcall as <- <-.
  exists l0, st0, l, stf.
  assert (Forall good (rev (done l))) as Hrev by (apply Forall_rev, Hg).
  split; [reflexivity|]. split; [assumption|]. split; [reflexivity|].
  split; [assumption|].
  destruct (rev (done l)) as [|c comps] eqn:Hd.
  - simpl. repeat split; try discriminate; try reflexivity. congruence.
  - assert (done l <> []) as Hne.
    { intros E. rewrite E in Hd. discriminate. }
    change (canonical (c :: comps)) with (slashed (c :: comps)).
    split. { cbn [slashed]. rewrite app_string_cons. discriminate. }
    split. { reflexivity. }
    split. { intros E. contradiction. }
    split. { apply slashed_no_double. assumption. }
    intros _. apply slashed_last; [assumption | discriminate].
Qed.

End Calls.

(** C7 as stated fails where the working directory is gone: on the
    relative path "b", [getcwd] fails with ENOENT and the call does not
    return; the process ends with descriptor 3, the handle on the root,
    open, and the events of the call are that one open, with no close. *)
Lemma xabspath_failure_cleanup_fails :
  let os := TreeFS.make TreeFS.sample (Err ENOENT) in
  let st := TreeFS.start TreeFS.sample (Err ENOENT) in
  TreeFS.result (xabspath os "b" 1 st) = None /\
  TreeFS.events (xabspath os "b" 1 st) = [Opened 3] /\
  fd_lookup os (fds st) 3 = None /\
  exists st', xabspath os "b" 1 st = Exited st' /\
              fd_lookup os (fds st') 3 = Some (os_root os) /\
              errno st' = ENOENT.
Proof.
  intros os st.
  split; [vm_compute; reflexivity|].
  split; [vm_compute; reflexivity|]. split; [reflexivity|].
  vm_compute. eexists. repeat split; reflexivity.
Qed.

(** A failing call on the sample tree: "/a/b/zz/q" with [zz] missing. The
    handles are closed and the lists freed; the node popped for [zz] is on
    neither list and stays allocated. And the relative path "b" when
    [getcwd] fails. *)
Lemma xabspath_failure_cleanup_witness :
  let os := TreeFS.make TreeFS.sample (Ok "/") in
  let st := TreeFS.start TreeFS.sample (Ok "/") in
  let os' := TreeFS.make TreeFS.sample (Err ENOENT) in
  let st0 := TreeFS.start TreeFS.sample (Err ENOENT) in
  (exists st', xabspath os "/a/b/zz/q" 1 st = Returned None st' /\
     fds st' = fds st /\ errno st' = ENOENT /\ bufs st' = bufs st /\
     nodes st' = nodes st + 1) /\
  (exists st', xabspath os' "b" 1 st0 = Exited st' /\ errno st' = ENOENT /\
     nodes st' = nodes st0 /\ bufs st' = bufs st0).
Proof.
  intros os st os' st0. split.
  - assert (exists st', xabspath os "/a/b/zz/q" 1 st = Returned None st' /\
              errno st' = ENOENT /\ nodes st' = nodes st + 1)
      as (st' & Hcall & Herrno & Hnodes).
    { vm_compute. eexists. repeat split; reflexivity. }
    exists st'. split; [exact Hcall|].
    destruct (xabspath_failure_cleanup os "/a/b/zz/q" 1 st) as (_ & Hclean & _).
    destruct (Hclean st' Hcall)
      as (l0 & st1 & l & stf & _ & _ & _ & Hfds & _ & _ & _ & Hbufs).
    auto.
  - destruct (xabspath_failure_cleanup os' "b" 1 st0) as (_ & _ & Hexit & Hstate).
    destruct (Hexit ENOENT eq_refl eq_refl) as [st' Hcall].
    exists st'. split; [exact Hcall|].
    destruct (Hstate st' Hcall) as (_ & e & Hcwd & He & _ & _ & _ & _ & Hn & Hb).
    injection Hcwd as <-. auto.
Defined.

Section Handles.
Context (os : OS).
Implicit Types (st : pstate os) (l : frame).


End Handles.



Section Termination.
Context (os : OS).
Implicit Types (st : pstate os) (l : frame).

(** With the budget spent and a component pending, the iteration sets
    ELOOP and jumps to [error]. *)
Lemma xabspath_body_eloop exact new l st :
  try l = 0 ->
  xabspath_body os exact new l st =
    GotoError (set_try (-1) l) (set_errno os ELOOP st).
Proof. intros H. unfold xabspath_body. rewrite H. reflexivity. Qed.

(** C2: [xabspath] always returns or exits, it never runs on: the budget
    [try] starts at 9999 and every iteration that goes round the loop has
    taken one from it, so after [k] iterations it is 9999 - k; and when
    9999 iterations have gone round and a component is still pending, the
    call returns NULL with [errno] = ELOOP. *)
Theorem xabspath_terminates path exact st :
  xabspath os path exact st <> Diverged /\
  forall l0 st0,
    xabspath_seed os 9999 path st = Some (l0, st0) ->
    try l0 = 9999 /\
    (forall k l stk,
       after os exact k l0 st0 = Some (l, stk) -> try l = 9999 - Z.of_nat k) /\
    (forall l stk,
       after os exact (Z.to_nat 9999) l0 st0 = Some (l, stk) -> todo l <> [] ->
       exists st', xabspath os path exact st = Returned None st' /\
                   errno st' = ELOOP).
Proof.
  split.
  - destruct (xabspath_seed os 9999 path st) as [[l0 st0]|] eqn:Hseed.
    2:{ rewrite (xabspath_exit os path exact st Hseed). discriminate. }
    rewrite (xabspath_unfold os path exact st l0 st0 Hseed).
    pose proof (run_facts os 9999 path exact st l0 st0 ltac:(lia) Hseed) as Hf.
    destruct (run os exact l0 st0) as [[l stf|l stf]|]; [| |contradiction].
    + simpl. unfold xabspath_finish.
      destruct (reverse_count _ _ _). destruct (assemble _ _ _ _). discriminate.
    + discriminate.
  - intros l0 st0 Hseed.
    pose proof (xabspath_seed_facts os 9999 path st l0 st0 Hseed)
      as (Hc & _ & Ht & _).
    split; [assumption|]. split.
    { intros k l stk Hafter. apply after_try in Hafter. lia. }
    intros l stk Hafter Hpending.
    rewrite (xabspath_unfold os path exact st l0 st0 Hseed).
    rewrite (run_after os exact _ l0 st0 l stk ltac:(lia) Hafter).
    pose proof (after_try os exact _ _ _ _ _ Hafter) as Htry.
    rewrite Z2Nat.id in Htry by lia.
    assert (try l = 0) as H0 by lia.
    destruct (after_cursor os _ _ exact _ l0 st0 l stk Hc Hafter)
      as [Hcur | (_ & Hnil & _)]; [|contradiction].
    destruct (todo l) as [|new rest] eqn:Htodo; [contradiction|].
    unfold run. rewrite H0. simpl. rewrite Htodo. simpl.
    rewrite xabspath_body_eloop by assumption. simpl.
    destruct (xabspath_error_facts os (fds st) (log st)
                (set_try (-1) (set_todo rest l)) (set_errno os ELOOP stk))
      as (st' & Herr & _ & He & _).
    { eapply cursor_at_ext; [reflexivity | reflexivity | reflexivity | exact Hcur]. }
    exists st'. split; assumption.
Qed.

End Termination.

(** On two links that point at each other the budget runs out. *)
Lemma xabspath_terminates_witness :
  let os := TreeFS.make TreeFS.cycle (Ok "/") in
  let st := TreeFS.start TreeFS.cycle (Ok "/") in
  xabspath os "/a" 1 st <> Diverged /\
  exists st', xabspath os "/a" 1 st = Returned None st' /\ errno st' = ELOOP.
Proof.
  intros os st.
  destruct (xabspath_terminates os "/a" 1 st) as [Hterm Hbudget].
  split; [exact Hterm|].
  assert (match xabspath_seed os 9999 "/a" st with
          | Some (l0, st0) =>
              match after os 1 (Z.to_nat 9999) l0 st0 with
              | Some (l, _) => todo l = ["b"]
              | None => False
              end
          | None => False
          end) as Hcycle by (vm_compute; reflexivity).
  destruct (xabspath_seed os 9999 "/a" st) as [[l0 st0]|]; [|contradiction].
  destruct (Hbudget l0 st0 eq_refl) as (_ & _ & Hloop).
  destruct (after os 1 (Z.to_nat 9999) l0 st0) as [[l stk]|]; [|contradiction].
  apply (Hloop l stk eq_refl). rewrite Hcycle. discriminate.
Defined.

Section Exact.
Context (os : OS).
Implicit Types (st : pstate os) (l : frame).

(** ** The [exact] flag only matters for the last component *)

Lemma xabspath_move_todo exact s l st l' st' :
  xabspath_move os exact s l st = Continue l' st' -> todo l' = todo l.
Proof.
  unfold xabspath_move. destruct (xopenat os (dirfd l) s st) as [fd st1].
  destruct (_ && _); [discriminate|]. intros [= <- <-]. reflexivity.
Qed.

Lemma xabspath_move_exact e1 e2 s l st l' st' :
  xabspath_move os e1 s l st = Continue l' st' -> todo l' <> [] ->
  xabspath_move os e2 s l st = Continue l' st'.
Proof.
  intros H Hne. pose proof (xabspath_move_todo e1 s l st l' st' H) as Ht.
  revert H. unfold xabspath_move.
  destruct (xopenat os (dirfd l) s st) as [fd st1].
  destruct (todo l) eqn:E; [congruence|]. simpl.
  rewrite !orb_true_r. simpl. auto.
Qed.

Lemma xabspath_lookup_exact e1 e2 new len buf l st l' st' :
  xabspath_lookup os e1 new len buf l st = Continue l' st' -> todo l' <> [] ->
  xabspath_lookup os e2 new len buf l st = Continue l' st'.
Proof.
  unfold xabspath_lookup.
  destruct (4095 <? len); [discriminate|].
  destruct (len <? 1); [|auto].
  destruct (len =? 0); [apply xabspath_move_exact|].
  intros H Hne.
  assert (todo l <> []) as Hl.
  { revert H. destruct (_ && _); [discriminate|].
    destruct (_ && _); [discriminate|].
    intros H. apply xabspath_move_todo in H. simpl in H. congruence. }
  revert H. cbn [set_done todo]. destruct (todo l) eqn:E; [congruence|].
  cbn [nonempty negb]. rewrite !orb_true_r, !andb_false_r. cbn [andb].
  destruct (negb (errno st =? EINVAL)); [discriminate|].
  intros H. eapply xabspath_move_exact; [exact H | assumption].
Qed.

Lemma xabspath_body_exact e1 e2 new l st l' st' :
  xabspath_body os e1 new l st = Continue l' st' -> todo l' <> [] ->
  xabspath_body os e2 new l st = Continue l' st'.
Proof.
  unfold xabspath_body.
  destruct (try l =? 0); [discriminate|].
  destruct (_ || _).
  - destruct (str_at new 1 =? 0); [auto|].
    destruct (llist_pop (done (set_try (try l - 1) l))) as [[x|] d];
      apply xabspath_lookup_exact.
  - destruct (xreadlinkat os _ new 4096 st) as [[len buf] st1].
    apply xabspath_lookup_exact.
Qed.

(** The frames a resolution passes through while components are pending do
    not depend on [exact]. *)
Lemma after_exact e1 e2 k : forall l st l' st',
  after os e1 k l st = Some (l', st') -> todo l' <> [] ->
  after os e2 k l st = Some (l', st').
Proof.
  induction k as [|k IH]; intros l st l' st' H Hne; simpl in H |- *; [assumption|].
  destruct (llist_pop (todo l)) as [[new|] rest]; [|discriminate].
  destruct (xabspath_body os e1 new (set_todo rest l) st) as [l1 st1| |] eqn:Hb;
    try discriminate.
  assert (todo l1 <> []) as Hl1.
  { destruct k; simpl in H.
    - injection H as <- <-. assumption.
    - destruct (todo l1); [discriminate | discriminate]. }
  rewrite (xabspath_body_exact e1 e2 new _ st l1 st1 Hb Hl1).
  apply IH; assumption.
Qed.

End Exact.

Section Lookups.
Context (os : OS).
Implicit Types (st : pstate os) (l : frame).

(** ** Lookup failures *)

Lemma run_error exact new rest l st l' st' :
  todo l = new :: rest ->
  xabspath_body os exact new (set_todo rest l) st = GotoError l' st' ->
  run os exact l st = Some (LoopError l' st').
Proof.
  intros Ht Hb. unfold run.
  replace (Z.to_nat (try l) + 1)%nat with (S (Z.to_nat (try l))) by lia.
  simpl. rewrite Ht. simpl. rewrite Hb. reflexivity.
Qed.

Lemma run_break exact new rest l st l' st' :
  todo l = new :: rest ->
  xabspath_body os exact new (set_todo rest l) st = Break l' st' ->
  run os exact l st = Some (LoopExit l' st').
Proof.
  intros Ht Hb. unfold run.
  replace (Z.to_nat (try l) + 1)%nat with (S (Z.to_nat (try l))) by lia.
  simpl. rewrite Ht. simpl. rewrite Hb. reflexivity.
Qed.

Lemma run_done exact l st : todo l = [] -> run os exact l st = Some (LoopExit l st).
Proof.
  intros Ht. unfold run.
  replace (Z.to_nat (try l) + 1)%nat with (S (Z.to_nat (try l))) by lia.
  simpl. rewrite Ht. reflexivity.
Qed.

(** A call that reaches a frame whose next iteration jumps to [error]
    returns NULL with the [errno] of that moment. *)
Lemma xabspath_fails_at path exact st l0 st0 k l stk new rest l' st1 :
  xabspath_seed os 9999 path st = Some (l0, st0) ->
  after os exact k l0 st0 = Some (l, stk) ->
  todo l = new :: rest ->
  xabspath_body os exact new (set_todo rest l) stk = GotoError l' st1 ->
  exists st', xabspath os path exact st = Returned None st' /\
              errno st' = errno st1 /\ fds st' = fds st.
Proof.
  intros Hseed Hafter Htodo Hb.
  pose proof (xabspath_seed_facts os 9999 path st l0 st0 Hseed) as (Hc & _ & Ht & _).
  rewrite (xabspath_unfold os path exact st l0 st0 Hseed).
  rewrite (run_after os exact k l0 st0 l stk ltac:(lia) Hafter).
  rewrite (run_error exact new rest l stk l' st1 Htodo Hb). simpl.
  destruct (after_cursor os _ _ exact k l0 st0 l stk Hc Hafter)
    as [Hcur | (_ & Hnil & _)]; [|congruence].
  assert (cursor_at (fds st) (log st) (set_todo rest l) stk) as Hcur'.
  { eapply cursor_at_ext; [reflexivity | reflexivity | reflexivity | exact Hcur]. }
  pose proof (xabspath_body_cursor os _ _ exact new _ stk Hcur') as Hb'.
  rewrite Hb in Hb'.
  destruct (xabspath_error_facts os _ _ l' st1 Hb') as (st' & He & Hf & Herr & _).
  exists st'. auto.
Qed.

(** A name that cannot be read as a link, for a reason other than "not a
    link", is fatal when it is not the last one or when [exact] is on. *)
Lemma xabspath_body_unreadable exact name l st i e :
  try l <> 0 -> name <> "." -> name <> ".." ->
  fd_lookup os (fds st) (dirfd l) = Some i ->
  os_readlinkat os i name = Err e -> e <> EINVAL ->
  exact <> 0 \/ todo l <> [] ->
  xabspath_body os exact name l st =
    GotoError (set_try (try l - 1) l) (set_errno os e st).
Proof.
  intros Ht H1 H2 Hi He Hne Hmust.
  rewrite xabspath_body_name by assumption.
  rewrite (xreadlinkat_err os _ name 4096 st i e Hi He).
  unfold xabspath_lookup. simpl.
  assert (negb (exact =? 0) || nonempty (todo l) = true) as ->.
  { destruct Hmust as [Hx | Hx].
    - destruct (exact =? 0) eqn:E; [lia | reflexivity].
    - destruct (todo l); [congruence | apply orb_true_r]. }
  destruct (e =? EINVAL) eqn:E; [lia | reflexivity].
Qed.

(** A link whose target fills the whole buffer: the iteration jumps to
    [error] and leaves the state as it is, [errno] included. *)
Lemma xabspath_body_oversized exact name l st i target :
  try l <> 0 -> name <> "." -> name <> ".." ->
  fd_lookup os (fds st) (dirfd l) = Some i ->
  os_readlinkat os i name = Ok target ->
  (4095 < String.length target)%nat ->
  xabspath_body os exact name l st = GotoError (set_try (try l - 1) l) st.
Proof.
  intros Ht H1 H2 Hi Hr Hlen.
  rewrite xabspath_body_name by assumption.
  rewrite (xreadlinkat_ok os _ name 4096 st i target Hi Hr).
  unfold xabspath_lookup. rewrite length_substring.
  rewrite Nat.min_l by lia. reflexivity.
Qed.

End Lookups.

Section LookupClaims.
Context (os : OS).
Implicit Types (st : pstate os) (l : frame).

(** C6: when resolution has reached a component that is not the last
    pending one and the component cannot be looked up under the cursor
    directory (the symlink read fails with an error other than "not a
    link", ENOENT when the name does not exist), [xabspath] returns NULL,
    whatever [exact] is; with budget left, [errno] is the error of the
    read. *)
Theorem xabspath_missing_intermediate path st e0 k l0 st0 l stk name rest i e :
  xabspath_seed os 9999 path st = Some (l0, st0) ->
  after os e0 k l0 st0 = Some (l, stk) ->
  todo l = name :: rest -> rest <> [] ->
  name <> "." -> name <> ".." ->
  fd_lookup os (fds stk) (dirfd l) = Some i ->
  os_readlinkat os i name = Err e -> e <> EINVAL ->
  forall exact,
    exists st', xabspath os path exact st = Returned None st' /\
                (Z.of_nat k < 9999 -> errno st' = e).
Proof.
  intros Hseed Hafter Htodo Hrest H1 H2 Hi He Hne exact.
  assert (after os exact k l0 st0 = Some (l, stk)) as Hafter'.
  { apply (after_exact os e0 exact k l0 st0 l stk Hafter). congruence. }
  pose proof (xabspath_seed_facts os 9999 path st l0 st0 Hseed) as (_ & _ & Ht & _).
  pose proof (after_try os exact k l0 st0 l stk Hafter') as Htry.
  destruct (Z.eq_dec (try l) 0) as [H0 | H0].
  - destruct (xabspath_fails_at os path exact st l0 st0 k l stk name rest _ _
                Hseed Hafter' Htodo (xabspath_body_eloop os exact name (set_todo rest l) stk H0))
      as (st' & Hcall & _).
    exists st'. split; [assumption | lia].
  - destruct (xabspath_fails_at os path exact st l0 st0 k l stk name rest _ _
                Hseed Hafter' Htodo
                (xabspath_body_unreadable os exact name (set_todo rest l) stk i e
                   H0 H1 H2 Hi He Hne (or_intror Hrest)))
      as (st' & Hcall & Herr & _).
    exists st'. split; [assumption | intros _; exact Herr].
Qed.

(** C9: when resolution has reached a component that is a link whose
    target has more than 4095 bytes, so that the read fills the 4096-byte
    buffer, [xabspath] returns NULL; with budget left the branch sets no
    [errno], and the caller finds the value [errno] had when the read was
    made, which the successful read did not touch. *)
Theorem xabspath_oversized_link path exact st k l0 st0 l stk name rest i target :
  xabspath_seed os 9999 path st = Some (l0, st0) ->
  after os exact k l0 st0 = Some (l, stk) ->
  todo l = name :: rest ->
  name <> "." -> name <> ".." ->
  fd_lookup os (fds stk) (dirfd l) = Some i ->
  os_readlinkat os i name = Ok target ->
  (4095 < String.length target)%nat ->
  exists st', xabspath os path exact st = Returned None st' /\
              (Z.of_nat k < 9999 -> errno st' = errno stk).
Proof.
  intros Hseed Hafter Htodo H1 H2 Hi Hr Hlen.
  pose proof (xabspath_seed_facts os 9999 path st l0 st0 Hseed) as (_ & _ & Ht & _).
  pose proof (after_try os exact k l0 st0 l stk Hafter) as Htry.
  destruct (Z.eq_dec (try l) 0) as [H0 | H0].
  - destruct (xabspath_fails_at os path exact st l0 st0 k l stk name rest _ _
                Hseed Hafter Htodo (xabspath_body_eloop os exact name (set_todo rest l) stk H0))
      as (st' & Hcall & _).
    exists st'. split; [assumption | lia].
  - destruct (xabspath_fails_at os path exact st l0 st0 k l stk name rest _ _
                Hseed Hafter Htodo
                (xabspath_body_oversized os exact name (set_todo rest l) stk i target
                   H0 H1 H2 Hi Hr Hlen))
      as (st' & Hcall & Herr & _).
    exists st'. split; [assumption | intros _; exact Herr].
Qed.

End LookupClaims.

(** On the sample tree, "/a/zz/q" with [zz] missing fails with and without
    [exact]. *)
Lemma xabspath_missing_intermediate_witness :
  let os := TreeFS.make TreeFS.sample (Ok "/") in
  let st := TreeFS.start TreeFS.sample (Ok "/") in
  (exists st', xabspath os "/a/zz/q" 0 st = Returned None st' /\
               errno st' = ENOENT) /\
  (exists st', xabspath os "/a/zz/q" 1 st = Returned None st' /\
               errno st' = ENOENT).
Proof.
  intros os st.
  assert (match xabspath_seed os 9999 "/a/zz/q" st with
          | Some (l0, st0) =>
              match after os 0 1 l0 st0 with
              | Some (l, stk) =>
                  todo l = ["zz"; "q"] /\
                  fd_lookup os (fds stk) (dirfd l) = Some ["a"]
              | None => False
              end
          | None => False
          end) as Hreach by (vm_compute; auto).
  destruct (xabspath_seed os 9999 "/a/zz/q" st) as [[l0 st0]|] eqn:Hseed;
    [|contradiction].
  destruct (after os 0 1 l0 st0) as [[l stk]|] eqn:Hafter; [|contradiction].
  destruct Hreach as [Htodo Hi].
  pose proof (xabspath_missing_intermediate os "/a/zz/q" st 0 1 l0 st0 l stk
                "zz" ["q"] ["a"] ENOENT Hseed Hafter Htodo
                ltac:(discriminate) ltac:(discriminate) ltac:(discriminate)
                Hi eq_refl ltac:(discriminate)) as Hfail.
  split.
  - destruct (Hfail 0) as (st' & Hcall & Herr).
    exists st'. split; [exact Hcall | apply Herr; reflexivity].
  - destruct (Hfail 1) as (st' & Hcall & Herr).
    exists st'. split; [exact Hcall | apply Herr; reflexivity].
Defined.

(** On the sample tree, "/big" is a link with a target of 4096
    characters. *)
Lemma xabspath_oversized_link_witness :
  let os := TreeFS.make TreeFS.sample (Ok "/") in
  let st := TreeFS.start TreeFS.sample (Ok "/") in
  exists st', xabspath os "/big/q" 0 st = Returned None st' /\
              errno st' = errno st.
Proof.
  intros os st.
  assert (match xabspath_seed os 9999 "/big/q" st with
          | Some (l0, st0) =>
              todo l0 = ["big"; "q"] /\
              fd_lookup os (fds st0) (dirfd l0) = Some [] /\
              errno st0 = errno st
          | None => False
          end) as Hreach by (vm_compute; auto).
  destruct (xabspath_seed os 9999 "/big/q" st) as [[l0 st0]|] eqn:Hseed;
    [|contradiction].
  destruct Hreach as (Htodo & Hi & Herr0).
  destruct (xabspath_oversized_link os "/big/q" 0 st 0 l0 st0 l0 st0
              "big" ["q"] [] (TreeFS.copies 4096 "x") Hseed eq_refl Htodo
              ltac:(discriminate) ltac:(discriminate) Hi eq_refl
              ltac:(vm_compute; lia))
    as (st' & Hcall & Herr).
  exists st'. split; [exact Hcall|]. rewrite Herr by reflexivity. exact Herr0.
Defined.

Section LastComponent.
Context (os : OS).
Implicit Types (st : pstate os) (l : frame).

(** ** A missing last component *)

Lemma slashed_app a b : slashed (a ++ b) = slashed a +:+ slashed b.
Proof.
  induction a as [|c a IH]; [reflexivity|].
  simpl. rewrite IH. rewrite !app_string_cons, !app_string_empty.
  rewrite app_string_assoc. reflexivity.
Qed.

Lemma canonical_snoc comps name :
  canonical (comps ++ [name]) = slashed comps +:+ "/" +:+ name.
Proof.
  unfold canonical. destruct (comps ++ [name])%list eqn:E.
  - destruct comps; discriminate.
  - rewrite <- E, slashed_app. cbn [slashed]. rewrite app_string_nil. reflexivity.
Qed.

(** With [exact] off, the last name is pushed on [done] whatever made the
    symlink read fail, and then opened. *)
Lemma xabspath_body_last_unreadable name l st i e :
  try l <> 0 -> name <> "." -> name <> ".." ->
  fd_lookup os (fds st) (dirfd l) = Some i ->
  os_readlinkat os i name = Err e -> e <> EINVAL ->
  todo l = [] ->
  xabspath_body os 0 name l st =
    xabspath_move os 0 name
      (set_done (name :: done l) (set_try (try l - 1) l)) (set_errno os e st).
Proof.
  intros Ht H1 H2 Hi He Hne Hnil.
  rewrite xabspath_body_name by assumption.
  rewrite (xreadlinkat_err os _ name 4096 st i e Hi He).
  unfold xabspath_lookup. simpl. rewrite Hnil. simpl.
  destruct (e =? EINVAL) eqn:E; [lia | reflexivity].
Qed.

(** C1 (as amended): when resolution has reached the last pending
    component and the name cannot be looked up under the cursor directory:
    the symlink read fails with [er], which is not "not a link", and the
    open fails with [eo]. While budget is left (fewer than 9999 components
    were consumed before), with [exact] non-zero the call returns NULL with
    [errno] = [er]; with [exact] zero the error of the read is not looked
    at and the error of the open decides: for ENOENT the call succeeds, and
    the string it returns is the resolved prefix followed by '/' and the
    name as it was given; for any other [eo] the call returns NULL with
    [errno] = [eo]. When the budget is spent (9999 components were consumed
    before), the call returns NULL with [errno] = ELOOP whatever [exact]
    is. One of the two is the case. *)
Theorem xabspath_missing_last path st e0 k l0 st0 l stk name i er eo :
  xabspath_seed os 9999 path st = Some (l0, st0) ->
  after os e0 k l0 st0 = Some (l, stk) ->
  todo l = [name] ->
  name <> "." -> name <> ".." ->
  fd_lookup os (fds stk) (dirfd l) = Some i ->
  os_readlinkat os i name = Err er -> os_openat os i name = Err eo ->
  er <> EINVAL ->
  Z.of_nat k <= 9999 /\
  (Z.of_nat k < 9999 ->
     (forall exact, exact <> 0 ->
        exists st', xabspath os path exact st = Returned None st' /\ errno st' = er) /\
     (eo = ENOENT ->
        exists st', xabspath os path 0 st =
                      Returned (Some (slashed (rev (done l)) +:+ "/" +:+ name)) st') /\
     (eo <> ENOENT ->
        exists st', xabspath os path 0 st = Returned None st' /\ errno st' = eo)) /\
  (Z.of_nat k = 9999 ->
     forall exact,
       exists st', xabspath os path exact st = Returned None st' /\ errno st' = ELOOP).
Proof.
  intros Hseed Hafter Htodo H1 H2 Hi Hr Ho Hne.
  pose proof (xabspath_seed_facts os 9999 path st l0 st0 Hseed)
    as (Hc & Hg0 & Ht & _).
  assert (forall exact, after os exact k l0 st0 = Some (l, stk)) as Hafter'.
  { intros exact. apply (after_exact os e0 exact k l0 st0 l stk Hafter). congruence. }
  pose proof (after_try os e0 k l0 st0 l stk Hafter) as Htry.
  pose proof (after_positive os e0 k l0 st0 l stk ltac:(lia) Hafter) as Hpos.
  split; [lia|]. split.
  - intros Hk. assert (try l <> 0) as H0 by lia.
    split; [|split].
    + intros exact Hexact.
      destruct (xabspath_fails_at os path exact st l0 st0 k l stk name [] _ _
                  Hseed (Hafter' exact) Htodo
                  (xabspath_body_unreadable os exact name (set_todo [] l) stk i er
                     H0 H1 H2 Hi Hr Hne (or_introl Hexact)))
        as (st' & Hcall & Herr & _).
      exists st'. split; assumption.
    + intros ->.
      pose proof (xabspath_body_last_unreadable name (set_todo [] l) stk i er
                    H0 H1 H2 Hi Hr Hne eq_refl) as Hb.
      match type of Hb with _ = xabspath_move _ _ _ ?f ?s =>
        rewrite (xabspath_move_err os 0 name f s i ENOENT Hi Ho) in Hb end.
      simpl in Hb.
      rewrite (xabspath_unfold os path 0 st l0 st0 Hseed).
      rewrite (run_after os 0 k l0 st0 l stk ltac:(lia) (Hafter' 0)).
      rewrite (run_step os 0 name [] l stk _ _ ltac:(lia) Htodo Hb).
      rewrite run_done by reflexivity. simpl.
      match goal with |- context [xabspath_finish os ?l1 ?s1] =>
        destruct (xabspath_finish_ret os l1 s1) as [st' Hfin] end.
      * pose proof (after_good os 0 k l0 st0 l stk Hg0 (Hafter' 0)) as [Hgt Hgd].
        rewrite Htodo in Hgt. apply Forall_cons in Hgt as [Hname _].
        split; simpl; [constructor | constructor; assumption].
      * reflexivity.
      * exists st'. rewrite Hfin. simpl. rewrite canonical_snoc. reflexivity.
    + intros Hother.
      pose proof (xabspath_body_last_unreadable name (set_todo [] l) stk i er
                    H0 H1 H2 Hi Hr Hne eq_refl) as Hb.
      match type of Hb with _ = xabspath_move _ _ _ ?f ?s =>
        rewrite (xabspath_move_err os 0 name f s i eo Hi Ho) in Hb end.
      simpl in Hb.
      destruct (eo =? ENOENT) eqn:E; [lia|]. simpl in Hb.
      destruct (xabspath_fails_at os path 0 st l0 st0 k l stk name [] _ _
                  Hseed (Hafter' 0) Htodo Hb)
        as (st' & Hcall & Herr & _).
      exists st'. split; assumption.
  - intros Hk exact.
    destruct (xabspath_fails_at os path exact st l0 st0 k l stk name [] _ _
                Hseed (Hafter' exact) Htodo
                (xabspath_body_eloop os exact name (set_todo [] l) stk
                   ltac:(simpl; lia)))
      as (st' & Hcall & Herr & _).
    exists st'. split; assumption.
Qed.

End LastComponent.

(** What a call returned, from its result on a tree. *)
Lemma result_returned {os} (o : outcome os) r e :
  TreeFS.result o = Some (r, e) -> returned o = r.
Proof. destruct o; simpl; [|discriminate..]. intros [= <- _]. reflexivity. Qed.

(** C1 as stated fails on the sample tree: in "/./././.../new", with 9999
    times "./", every component before the last is "." and resolves, and
    "new" is not in the root; with [exact] zero the call returns NULL with
    ELOOP, while "/new" is accepted. *)
Lemma xabspath_missing_last_fails :
  let os := TreeFS.make TreeFS.sample (Ok "/") in
  let st := TreeFS.start TreeFS.sample (Ok "/") in
  let path := "/" +:+ TreeFS.copies (Z.to_nat 9999) "./" +:+ "new" in
  splitpath path = (repeat "." (Z.to_nat 9999) ++ ["new"])%list /\
  os_readlinkat os (os_root os) "new" = Err ENOENT /\
  os_openat os (os_root os) "new" = Err ENOENT /\
  returned (xabspath os "/new" 0 st) = Some "/new" /\
  TreeFS.result (xabspath os path 0 st) = Some (None, ELOOP) /\
  returned (xabspath os path 0 st) = None.
Proof.
  intros os st path.
  assert (TreeFS.result (xabspath os path 0 st) = Some (None, ELOOP)) as Hp
    by (vm_compute; reflexivity).
  split; [vm_compute; reflexivity|].
  split; [reflexivity|]. split; [reflexivity|].
  split; [vm_compute; reflexivity|].
  split; [exact Hp|].
  exact (result_returned _ _ _ Hp).
Qed.

(** On the sample tree, "/a/b/new" names a file that is not there; and
    after 9999 times "./" the budget is spent when "new" is reached. *)
Lemma xabspath_missing_last_witness :
  let os := TreeFS.make TreeFS.sample (Ok "/") in
  let st := TreeFS.start TreeFS.sample (Ok "/") in
  let long := "/" +:+ TreeFS.copies (Z.to_nat 9999) "./" +:+ "new" in
  ((exists st', xabspath os "/a/b/new" 1 st = Returned None st' /\
                errno st' = ENOENT) /\
   (exists st', xabspath os "/a/b/new" 0 st = Returned (Some "/a/b/new") st')) /\
  (exists st', xabspath os long 0 st = Returned None st' /\ errno st' = ELOOP).
Proof.
  intros os st long.
  split.
  - clear long.
    assert (match xabspath_seed os 9999 "/a/b/new" st with
            | Some (l0, st0) =>
                match after os 0 2 l0 st0 with
                | Some (l, stk) =>
                    todo l = ["new"] /\ done l = ["b"; "a"] /\
                    fd_lookup os (fds stk) (dirfd l) = Some ["a"; "b"]
                | None => False
                end
            | None => False
            end) as Hreach by (vm_compute; auto).
    destruct (xabspath_seed os 9999 "/a/b/new" st) as [[l0 st0]|] eqn:Hseed;
      [|contradiction].
    destruct (after os 0 2 l0 st0) as [[l stk]|] eqn:Hafter; [|contradiction].
    destruct Hreach as (Htodo & Hdone & Hi).
    destruct (xabspath_missing_last os "/a/b/new" st 0 2 l0 st0 l stk
                "new" ["a"; "b"] ENOENT ENOENT Hseed Hafter Htodo
                ltac:(discriminate) ltac:(discriminate)
                Hi eq_refl eq_refl ltac:(discriminate))
      as (_ & Hleft & _).
    destruct (Hleft ltac:(reflexivity)) as (Hexact & Htolerated & _).
    split.
    + apply (Hexact 1). discriminate.
    + destruct (Htolerated eq_refl) as [st' Hcall]. exists st'.
      rewrite Hcall, Hdone. reflexivity.
  - assert (match xabspath_seed os 9999 long st with
            | Some (l0, st0) =>
                match after os 0 (Z.to_nat 9999) l0 st0 with
                | Some (l, stk) =>
                    todo l = ["new"] /\
                    fd_lookup os (fds stk) (dirfd l) = Some []
                | None => False
                end
            | None => False
            end) as Hspent by (vm_compute; split; reflexivity).
    destruct (xabspath_seed os 9999 long st) as [[l0 st0]|] eqn:Hseed;
      [|contradiction].
    destruct (after os 0 (Z.to_nat 9999) l0 st0) as [[l stk]|] eqn:Hafter;
      [|contradiction].
    destruct Hspent as (Htodo & Hi).
    destruct (xabspath_missing_last os long st 0 (Z.to_nat 9999) l0 st0 l stk
                "new" [] ENOENT ENOENT Hseed Hafter Htodo
                ltac:(discriminate) ltac:(discriminate)
                Hi eq_refl eq_refl ltac:(discriminate))
      as (_ & _ & Hspent').
    apply (Hspent' ltac:(reflexivity) 0).
Defined.

Section Bookkeeping.
Context (os : OS).
Implicit Types (st sa sb : pstate os) (l : frame).

(** ** The heap counters and the log are bookkeeping

    Nothing the function does depends on them: from states that agree on
    [errno] and on the descriptor table, every step goes the same way. *)

Lemma same_world_refl st : same_world st st.
Proof. split; reflexivity. Qed.

Lemma same_world_add_nodes n m sa sb :
  same_world sa sb -> same_world (add_nodes os n sa) (add_nodes os m sb).
Proof. intros [He Hf]. split; assumption. Qed.

Lemma same_world_add_bufs n m sa sb :
  same_world sa sb -> same_world (add_bufs os n sa) (add_bufs os m sb).
Proof. intros [He Hf]. split; assumption. Qed.

Lemma same_world_set_errno e sa sb :
  same_world sa sb -> same_world (set_errno os e sa) (set_errno os e sb).
Proof. intros [He Hf]. split; [reflexivity | assumption]. Qed.

Lemma same_world_close fd sa sb :
  same_world sa sb -> same_world (close os fd sa) (close os fd sb).
Proof.
  intros [He Hf]. unfold close. rewrite Hf.
  destruct (fd_lookup os (fds sb) fd); split; simpl; congruence.
Qed.

Lemma same_world_open_root sa sb :
  same_world sa sb ->
  fst (open_root os sa) = fst (open_root os sb) /\
  same_world (snd (open_root os sa)) (snd (open_root os sb)).
Proof.
  intros [He Hf]. unfold open_root. simpl. rewrite Hf.
  split; [reflexivity|]. split; simpl; congruence.
Qed.

Lemma same_world_xopenat fd s sa sb :
  same_world sa sb ->
  fst (xopenat os fd s sa) = fst (xopenat os fd s sb) /\
  same_world (snd (xopenat os fd s sa)) (snd (xopenat os fd s sb)).
Proof.
  intros [He Hf]. unfold xopenat. rewrite Hf.
  destruct (fd_lookup os (fds sb) fd) as [i|]; simpl.
  - destruct (os_openat os i s); simpl; (split; [reflexivity|]);
      split; simpl; congruence.
  - split; [reflexivity|]. split; simpl; congruence.
Qed.

Lemma same_world_xreadlinkat fd name n sa sb :
  same_world sa sb ->
  fst (xreadlinkat os fd name n sa) = fst (xreadlinkat os fd name n sb) /\
  same_world (snd (xreadlinkat os fd name n sa)) (snd (xreadlinkat os fd name n sb)).
Proof.
  intros [He Hf]. unfold xreadlinkat. rewrite Hf.
  destruct (fd_lookup os (fds sb) fd) as [i|]; simpl.
  - destruct (os_readlinkat os i name); simpl; (split; [reflexivity|]);
      split; simpl; congruence.
  - split; [reflexivity|]. split; simpl; congruence.
Qed.

Lemma same_ctl_move exact s l sa sb :
  same_world sa sb ->
  same_ctl (xabspath_move os exact s l sa) (xabspath_move os exact s l sb).
Proof.
  intros Hw. unfold xabspath_move.
  destruct (same_world_xopenat (dirfd l) s sa sb Hw) as [Hfd Hw'].
  destruct (xopenat os (dirfd l) s sa) as [fd1 t1].
  destruct (xopenat os (dirfd l) s sb) as [fd2 t2].
  simpl in Hfd, Hw'. subst fd2.
  destruct Hw' as [He Hf]. rewrite He.
  destruct (_ && _); simpl.
  - split; [reflexivity | split; assumption].
  - split; [reflexivity|]. apply same_world_close. split; assumption.
Qed.

Lemma same_ctl_lookup exact new len buf l sa sb :
  same_world sa sb ->
  same_ctl (xabspath_lookup os exact new len buf l sa)
           (xabspath_lookup os exact new len buf l sb).
Proof.
  intros Hw. unfold xabspath_lookup.
  destruct (4095 <? len); [split; [reflexivity | assumption]|].
  destruct (len <? 1).
  - destruct (len =? 0); [apply same_ctl_move; assumption|].
    destruct Hw as [He Hf]. rewrite He.
    destruct (_ && _); [split; [reflexivity | split; assumption]|].
    destruct (_ && _); [split; [reflexivity | split; assumption]|].
    apply same_ctl_move. split; assumption.
  - destruct (starts_with_slash buf).
    + pose proof (same_world_open_root
                    (close os (dirfd (set_done [] l)) (llist_traverse_free os (done l) sa))
                    (close os (dirfd (set_done [] l)) (llist_traverse_free os (done l) sb))
                    (same_world_close _ _ _ (same_world_add_nodes _ _ _ _ Hw)))
        as [Hfd Hw'].
      destruct (open_root os _) as [fd1 t1]. destruct (open_root os _) as [fd2 t2].
      simpl in Hfd, Hw'. subst fd2. simpl.
      split; [reflexivity|].
      apply same_world_add_nodes, same_world_add_nodes. assumption.
    + simpl. split; [reflexivity|].
      apply same_world_add_nodes, same_world_add_nodes. assumption.
Qed.

Lemma same_ctl_body exact new l sa sb :
  same_world sa sb ->
  same_ctl (xabspath_body os exact new l sa) (xabspath_body os exact new l sb).
Proof.
  intros Hw. unfold xabspath_body.
  destruct (try l =? 0).
  { split; [reflexivity | apply same_world_set_errno; assumption]. }
  destruct (_ || _).
  - destruct (str_at new 1 =? 0).
    { split; [reflexivity | apply same_world_add_nodes; assumption]. }
    destruct (llist_pop (done (set_try (try l - 1) l))) as [[x|] d];
      apply same_ctl_lookup; repeat apply same_world_add_nodes; assumption.
  - destruct (same_world_xreadlinkat (dirfd (set_try (try l - 1) l)) new 4096 sa sb Hw)
      as [Hr Hw'].
    destruct (xreadlinkat os _ new 4096 sa) as [[len1 buf1] t1].
    destruct (xreadlinkat os _ new 4096 sb) as [[len2 buf2] t2].
    simpl in Hr, Hw'. injection Hr as -> ->.
    apply same_ctl_lookup. assumption.
Qed.

Lemma same_end_loop exact fuel : forall l sa sb,
  same_world sa sb ->
  same_end (xabspath_loop os fuel exact l sa) (xabspath_loop os fuel exact l sb).
Proof.
  induction fuel as [|fuel IH]; intros l sa sb Hw; simpl.
  - destruct (todo l); simpl; [split; [reflexivity | assumption] | exact I].
  - destruct (todo l) as [|new rest]; simpl; [split; [reflexivity | assumption]|].
    pose proof (same_ctl_body exact new (set_todo rest l) sa sb Hw) as Hb.
    destruct (xabspath_body os exact new (set_todo rest l) sa) as [l1 t1|l1 t1|l1 t1];
      destruct (xabspath_body os exact new (set_todo rest l) sb) as [l2 t2|l2 t2|l2 t2];
      simpl in Hb; try contradiction; destruct Hb as [-> Hw'].
    + apply IH. assumption.
    + split; [reflexivity | assumption].
    + split; [reflexivity | assumption].
Qed.

Lemma assemble_fst comps : forall ret sa sb,
  fst (assemble os comps ret sa) = fst (assemble os comps ret sb).
Proof.
  induction comps as [|c comps IH]; intros ret sa sb; [reflexivity|].
  simpl. apply IH.
Qed.

Lemma same_outcome_end r1 r2 :
  same_end r1 r2 -> same_outcome (xabspath_end os r1) (xabspath_end os r2).
Proof.
  destruct r1 as [[l1 sa|l1 sa]|], r2 as [[l2 sb|l2 sb]|]; simpl;
    try contradiction; try (intros; exact I); intros [-> Hw].
  - unfold xabspath_finish.
    destruct (reverse_count (done l2) (todo l2) 2) as [todo' n].
    rewrite (surjective_pairing (assemble os todo' "/" (xmalloc os n (close os (dirfd l2) sa)))).
    rewrite (surjective_pairing (assemble os todo' "/" (xmalloc os n (close os (dirfd l2) sb)))).
    rewrite !assemble_state. simpl.
    split.
    + f_equal. apply assemble_fst.
    + apply same_world_add_nodes, same_world_add_bufs, same_world_close. assumption.
  - unfold xabspath_error. simpl. split; [reflexivity|].
    apply same_world_add_nodes, same_world_add_nodes, same_world_close. assumption.
Qed.

End Bookkeeping.

Section AbsoluteLink.
Context (os : OS).
Implicit Types (st : pstate os) (l : frame) (base : gmap Z (inode os))
               (blog : list event).

(** ** Links with an absolute target *)

(** The iteration on a link whose target starts with '/' and fits the
    buffer. *)
Lemma xabspath_body_absolute base blog exact name l st i target :
  cursor_at base blog l st ->
  fd_lookup os (fds st) (dirfd l) = Some i ->
  try l <> 0 -> name <> "." -> name <> ".." ->
  os_readlinkat os i name = Ok target ->
  starts_with_slash target = true -> (String.length target <= 4095)%nat ->
  exists st',
    xabspath_body os exact name l st =
      Continue {| todo := splitpath target ++ todo l; done := [];
                  try := try l - 1; dirfd := fd_alloc os base |} st' /\
    fds st' = <[fd_alloc os base := os_root os]> base /\
    errno st' = errno st /\
    log st' = Opened (fd_alloc os base) :: Closed (dirfd l) :: log st /\
    cursor_on base blog (os_root os)
      {| todo := splitpath target ++ todo l; done := [];
         try := try l - 1; dirfd := fd_alloc os base |} st'.
Proof.
  intros Hc Hi Ht H1 H2 Hr Hslash Hlen.
  rewrite xabspath_body_name by assumption.
  rewrite (xreadlinkat_ok os _ name 4096 st i target Hi Hr).
  rewrite substring_all by lia.
  unfold xabspath_lookup.
  assert (1 <= String.length target)%nat as Hpos.
  { destruct target; [discriminate | simpl; lia]. }
  destruct (4095 <? Z.of_nat (String.length target)) eqn:E1; [lia|].
  destruct (Z.of_nat (String.length target) <? 1) eqn:E2; [lia|].
  rewrite Hslash.
  rewrite (close_cursor os base blog (set_done [] (set_try (try l - 1) l))
             (llist_traverse_free os (done (set_try (try l - 1) l)) st)).
  2:{ eapply cursor_at_ext; [reflexivity | reflexivity | reflexivity | exact Hc]. }
  assert (forall comps l',
            (if nonempty comps then set_todo (comps ++ todo l') l' else l') =
            set_todo (comps ++ todo l') l') as Hfr.
  { intros [|c cs] l'; [destruct l'; reflexivity | reflexivity]. }
  unfold open_root, splitpath_alloc. cbn [fds set_fds]. rewrite Hfr.
  eexists. split; [reflexivity|].
  split; [reflexivity|]. split; [reflexivity|]. split; [reflexivity|].
  split.
  - eapply (cursor_reopen os base blog l st);
      [exact Hc | reflexivity | reflexivity | reflexivity | reflexivity].
  - simpl. apply fd_lookup_insert, fd_alloc_nonneg.
Qed.

Lemma after_snoc exact k : forall l0 st0 l stk new rest l1 st1,
  after os exact k l0 st0 = Some (l, stk) ->
  todo l = new :: rest ->
  xabspath_body os exact new (set_todo rest l) stk = Continue l1 st1 ->
  after os exact (S k) l0 st0 = Some (l1, st1).
Proof.
  induction k as [|k IH]; intros l0 st0 l stk new rest l1 st1 Hafter Htodo Hb.
  - simpl in Hafter. injection Hafter as -> ->.
    simpl. rewrite Htodo. simpl. rewrite Hb. reflexivity.
  - simpl in Hafter. cbn [after].
    destruct (llist_pop (todo l0)) as [[new0|] rest0]; [|discriminate].
    destruct (xabspath_body os exact new0 (set_todo rest0 l0) st0)
      as [l' st'| |]; try discriminate.
    eapply IH; eassumption.
Qed.

(** C4: when resolution has reached a component that is a link whose
    target starts with '/' (and fits the buffer), the next frame has an
    empty resolved list, a cursor that refers to the root (the handle held
    before is closed: the root handle is the only one added to the
    descriptors the call started with), and as pending components those of
    the target followed by what came after the link. So the outcome of the
    call (what it returns, [errno], the descriptors) is the same whatever
    the resolved list held when the link was met. *)
Theorem xabspath_absolute_link path exact st k l0 st0 l stk name rest i target :
  xabspath_seed os 9999 path st = Some (l0, st0) ->
  after os exact k l0 st0 = Some (l, stk) ->
  todo l = name :: rest ->
  name <> "." -> name <> ".." ->
  Z.of_nat k < 9999 ->
  fd_lookup os (fds stk) (dirfd l) = Some i ->
  os_readlinkat os i name = Ok target ->
  starts_with_slash target = true -> (String.length target <= 4095)%nat ->
  (exists l1 st1,
     after os exact (S k) l0 st0 = Some (l1, st1) /\
     done l1 = [] /\
     todo l1 = (splitpath target ++ rest)%list /\
     try l1 = try l - 1 /\
     fd_lookup os (fds st1) (dirfd l1) = Some (os_root os) /\
     fds st1 = <[dirfd l1 := os_root os]> (fds st)) /\
  (forall d,
     same_outcome (xabspath_end os (run os exact (set_done d l) stk))
                  (xabspath os path exact st)).
Proof.
  intros Hseed Hafter Htodo H1 H2 Hk Hi Hr Hslash Hlen.
  pose proof (xabspath_seed_facts os 9999 path st l0 st0 Hseed) as (Hc & _ & Ht & _).
  pose proof (after_try os exact k l0 st0 l stk Hafter) as Htry.
  assert (try l <> 0) as H0 by lia.
  destruct (after_cursor os _ _ exact k l0 st0 l stk Hc Hafter)
    as [Hcur | (_ & Hnil & _)]; [|congruence].
  assert (forall d, cursor_at (fds st) (log st) (set_todo rest (set_done d l)) stk)
    as Hcur'.
  { intros d. eapply cursor_at_ext; [reflexivity | reflexivity | reflexivity | exact Hcur]. }
  assert (forall d, exists st',
            xabspath_body os exact name (set_todo rest (set_done d l)) stk =
              Continue {| todo := splitpath target ++ rest; done := [];
                          try := try l - 1; dirfd := fd_alloc os (fds st) |} st' /\
            fds st' = <[fd_alloc os (fds st) := os_root os]> (fds st) /\
            errno st' = errno stk) as Hstep.
  { intros d.
    destruct (xabspath_body_absolute (fds st) (log st) exact name
                (set_todo rest (set_done d l)) stk i target
                (Hcur' d) Hi H0 H1 H2 Hr Hslash Hlen)
      as (st' & Hb & Hf & He & _).
    exists st'. auto. }
  assert (set_todo rest (set_done (done l) l) = set_todo rest l) as Hsame.
  { destruct l; reflexivity. }
  destruct (Hstep (done l)) as (st1 & Hb1 & Hf1 & He1). rewrite Hsame in Hb1.
  split.
  - eexists _, st1. split.
    + exact (after_snoc exact k l0 st0 l stk name rest _ st1 Hafter Htodo Hb1).
    + simpl. split; [reflexivity|]. split; [reflexivity|]. split; [reflexivity|].
      split; [|assumption].
      rewrite Hf1. apply fd_lookup_insert, fd_alloc_nonneg.
  - intros d.
    destruct (Hstep d) as (st2 & Hb2 & Hf2 & He2).
    rewrite (xabspath_unfold os path exact st l0 st0 Hseed).
    rewrite (run_after os exact k l0 st0 l stk ltac:(lia) Hafter).
    rewrite (run_step os exact name rest l stk _ _ ltac:(lia) Htodo Hb1).
    rewrite (run_step os exact name rest (set_done d l) stk _ _
               ltac:(simpl; lia) Htodo Hb2).
    apply same_outcome_end. unfold run. apply same_end_loop.
    split; congruence.
Qed.

End AbsoluteLink.

(** On the sample tree, /a/k is a link to "/a/b": resolving "/a/k/c" drops
    the resolved "a" at the link. *)
Lemma xabspath_absolute_link_witness :
  let os := TreeFS.make TreeFS.sample (Ok "/") in
  let st := TreeFS.start TreeFS.sample (Ok "/") in
  exists l0 st0 l1 st1,
    xabspath_seed os 9999 "/a/k/c" st = Some (l0, st0) /\
    after os 1 2 l0 st0 = Some (l1, st1) /\
    done l1 = [] /\ todo l1 = ["a"; "b"; "c"] /\
    fd_lookup os (fds st1) (dirfd l1) = Some [].
Proof.
  intros os st.
  assert (match xabspath_seed os 9999 "/a/k/c" st with
          | Some (l0, st0) =>
              match after os 1 1 l0 st0 with
              | Some (l, stk) =>
                  todo l = ["k"; "c"] /\ done l = ["a"] /\
                  fd_lookup os (fds stk) (dirfd l) = Some ["a"]
              | None => False
              end
          | None => False
          end) as Hreach by (vm_compute; auto).
  destruct (xabspath_seed os 9999 "/a/k/c" st) as [[l0 st0]|] eqn:Hseed;
    [|contradiction].
  destruct (after os 1 1 l0 st0) as [[l stk]|] eqn:Hafter; [|contradiction].
  destruct Hreach as (Htodo & Hdone & Hi).
  destruct (xabspath_absolute_link os "/a/k/c" 1 st 1 l0 st0 l stk
              "k" ["c"] ["a"] "/a/b" Hseed Hafter Htodo
              ltac:(discriminate) ltac:(discriminate) ltac:(reflexivity)
              Hi eq_refl eq_refl ltac:(vm_compute; lia))
    as ((l1 & st1 & Hnext & Hd & Ht & _ & Hroot & _) & _).
  exists l0, st0, l1, st1. auto.
Defined.

Section Walk.
Context (os : OS).
Implicit Types (st : pstate os) (l : frame) (base : gmap Z (inode os))
               (blog : list event).

(** ** Walking down and up *)

Lemma xabspath_seed_absolute budget path st :
  starts_with_slash path = true ->
  exists st0,
    xabspath_seed os budget path st =
      Some ({| todo := splitpath path; done := []; try := budget;
               dirfd := fd_alloc os (fds st) |}, st0) /\
    cursor_on (fds st) (log st) (os_root os)
      {| todo := splitpath path; done := []; try := budget;
         dirfd := fd_alloc os (fds st) |} st0 /\
    fds st0 = <[fd_alloc os (fds st) := os_root os]> (fds st) /\
    errno st0 = errno st.
Proof.
  intros Hs.
  destruct (xabspath_seed os budget path st) as [[l0 st0]|] eqn:Hseed.
  - pose proof (xabspath_seed_facts os budget path st l0 st0 Hseed) as (Hc & _).
    revert Hseed Hc. unfold xabspath_seed, open_root. rewrite Hs. simpl.
    intros [= <- <-] Hc. eexists. split; [reflexivity|].
    split; [|simpl; auto].
    split; [exact Hc|]. simpl. apply fd_lookup_insert, fd_alloc_nonneg.
  - revert Hseed. unfold xabspath_seed, open_root. rewrite Hs. discriminate.
Qed.

(** A "." is dropped: the frame and the state stay as they are, but for
    the unit of budget and the node that held the name. *)
Lemma xabspath_body_dot exact l st :
  try l <> 0 ->
  xabspath_body os exact "." l st =
    Continue (set_try (try l - 1) l) (free_node os st).
Proof.
  intros Ht. unfold xabspath_body.
  destruct (try l =? 0) eqn:E; [lia | reflexivity].
Qed.


(** Stepping into a directory that is not the last component. *)
Lemma xabspath_body_directory base blog exact name l st i j :
  cursor_on base blog i l st -> try l <> 0 ->
  name <> "." -> name <> ".." -> todo l <> [] ->
  os_readlinkat os i name = Err EINVAL -> os_openat os i name = Ok j ->
  exists fd st',
    xabspath_body os exact name l st =
      Continue {| todo := todo l; done := name :: done l;
                  try := try l - 1; dirfd := fd |} st' /\
    cursor_on base blog j
      {| todo := todo l; done := name :: done l; try := try l - 1; dirfd := fd |} st'.
Proof.
  intros [Hc Hi] Ht H1 H2 Hrest Hr Ho.
  rewrite xabspath_body_name by assumption.
  rewrite (xreadlinkat_err os _ name 4096 st i EINVAL Hi Hr).
  unfold xabspath_lookup. simpl.
  destruct (todo l) as [|c rest] eqn:Htodo; [congruence|]. simpl.
  rewrite !andb_false_r.
  destruct (xabspath_move_ok os base blog exact name
              (set_done (name :: done l) (set_try (try l - 1) l))
              (set_errno os EINVAL st) i j)
    as (fd & st' & Hm & Hc' & Hj & _).
  { eapply cursor_at_ext; [reflexivity | reflexivity | reflexivity | exact Hc]. }
  { exact Hi. } { exact Ho. }
  exists fd, st'. rewrite Hm.
  split; [unfold set_dirfd; simpl; rewrite Htodo; reflexivity|].
  split; [|exact Hj].
  eapply cursor_at_ext; [reflexivity | reflexivity | reflexivity | exact Hc'].
Qed.

(** The last component, when it exists and is no link: it is pushed and
    the loop is left, without opening it. *)
Lemma xabspath_body_final exact name l st i :
  fd_lookup os (fds st) (dirfd l) = Some i -> try l <> 0 ->
  name <> "." -> name <> ".." -> todo l = [] ->
  os_readlinkat os i name = Err EINVAL ->
  xabspath_body os exact name l st =
    Break {| todo := []; done := name :: done l; try := try l - 1;
             dirfd := dirfd l |} (set_errno os EINVAL st).
Proof.
  intros Hi Ht H1 H2 Hnil Hr.
  rewrite xabspath_body_name by assumption.
  rewrite (xreadlinkat_err os _ name 4096 st i EINVAL Hi Hr).
  unfold xabspath_lookup. simpl. rewrite Hnil. simpl.
  rewrite andb_false_r. unfold set_done. simpl. rewrite Hnil. reflexivity.
Qed.

End Walk.

Section DotDot.
Context (os : OS).
Implicit Types (st : pstate os) (l : frame) (base : gmap Z (inode os))
               (blog : list event).

Lemma cursor_on_todo base blog i rest l st :
  cursor_on base blog i l st -> cursor_on base blog i (set_todo rest l) st.
Proof.
  intros [Hc Hi]. split; [|exact Hi].
  eapply cursor_at_ext; [reflexivity | reflexivity | reflexivity | exact Hc].
Qed.

Lemma run_directory base blog exact name rest l st i j :
  cursor_on base blog i l st -> 0 < try l ->
  todo l = name :: rest -> rest <> [] ->
  name <> "." -> name <> ".." ->
  os_readlinkat os i name = Err EINVAL -> os_openat os i name = Ok j ->
  exists fd st',
    run os exact l st =
      run os exact {| todo := rest; done := name :: done l;
                      try := try l - 1; dirfd := fd |} st' /\
    cursor_on base blog j
      {| todo := rest; done := name :: done l; try := try l - 1; dirfd := fd |} st'.
Proof.
  intros Hc Ht Htodo Hrest H1 H2 Hr Ho.
  destruct (xabspath_body_directory os base blog exact name (set_todo rest l) st i j
              (cursor_on_todo base blog i rest l st Hc) ltac:(simpl; lia)
              H1 H2 Hrest Hr Ho)
    as (fd & st' & Hb & Hc').
  exists fd, st'. split; [|exact Hc'].
  apply (run_step os exact name rest l st _ st' ltac:(lia) Htodo Hb).
Qed.


Lemma run_final base blog exact name l st i :
  cursor_on base blog i l st -> 0 < try l ->
  todo l = [name] -> name <> "." -> name <> ".." ->
  os_readlinkat os i name = Err EINVAL ->
  run os exact l st =
    Some (LoopExit {| todo := []; done := name :: done l; try := try l - 1;
                      dirfd := dirfd l |} (set_errno os EINVAL st)).
Proof.
  intros [Hc Hi] Ht Htodo H1 H2 Hr.
  apply (run_break os exact name [] l st _ _ Htodo).
  apply (xabspath_body_final os exact name (set_todo [] l) st i Hi
           ltac:(simpl; lia) H1 H2 eq_refl Hr).
Qed.


End DotDot.


Section Splice.
Context (os : OS).
Implicit Types (st : pstate os) (l : frame).

(** ** More budget does no harm *)

Lemma xabspath_move_bump d exact s l st :
  xabspath_move os exact s (bump d l) st =
  bump_ctl d (xabspath_move os exact s l st).
Proof.
  unfold xabspath_move. simpl.
  destruct (xopenat os (dirfd l) s st) as [fd st1].
  destruct (_ && _); reflexivity.
Qed.

Lemma xabspath_lookup_bump d exact new len buf l st :
  xabspath_lookup os exact new len buf (bump d l) st =
  bump_ctl d (xabspath_lookup os exact new len buf l st).
Proof.
  unfold xabspath_lookup.
  destruct (4095 <? len); [reflexivity|].
  destruct (len <? 1).
  - destruct (len =? 0); [apply xabspath_move_bump|].
    simpl. destruct (_ && _); [reflexivity|].
    destruct (_ && _); [reflexivity|].
    apply (xabspath_move_bump d exact new (set_done (new :: done l) l)).
  - destruct (starts_with_slash buf); simpl;
      destruct (nonempty (splitpath buf)); reflexivity.
Qed.

Lemma xabspath_body_bump d exact new l st :
  try l <> 0 -> try l + d <> 0 ->
  xabspath_body os exact new (bump d l) st =
  bump_ctl d (xabspath_body os exact new l st).
Proof.
  intros H0 Hd. unfold xabspath_body.
  assert (set_try (try (bump d l) - 1) (bump d l) = bump d (set_try (try l - 1) l))
    as ->.
  { unfold bump, set_try. simpl. f_equal. lia. }
  simpl. destruct (try l + d =? 0) eqn:E1; [lia|].
  destruct (try l =? 0) eqn:E2; [lia|].
  destruct (_ || _).
  - destruct (str_at new 1 =? 0); [reflexivity|].
    destruct (done l) as [|x dn]; simpl.
    + apply (xabspath_lookup_bump d exact new 0 "" (set_try (try l - 1) l)).
    + apply (xabspath_lookup_bump d exact new 0 ""
               (set_done dn (set_try (try l - 1) l))).
  - destruct (xreadlinkat os (dirfd l) new 4096 st) as [[len buf] st1].
    apply (xabspath_lookup_bump d exact new len buf (set_try (try l - 1) l)).
Qed.

Lemma xabspath_loop_bump d exact fuel : forall fuel' l st l' st',
  0 <= d -> 0 <= try l -> (fuel <= fuel')%nat ->
  xabspath_loop os fuel exact l st = Some (LoopExit l' st') ->
  xabspath_loop os fuel' exact (bump d l) st = Some (LoopExit (bump d l') st').
Proof.
  induction fuel as [|fuel IH]; intros fuel' l st l' st' Hd Ht Hf H.
  - simpl in H. destruct (todo l) eqn:Htodo; simpl in H; [|discriminate].
    injection H as <- <-. destruct fuel'; simpl; rewrite Htodo; reflexivity.
  - simpl in H. destruct (todo l) as [|new rest] eqn:Htodo; simpl in H.
    + injection H as <- <-. destruct fuel'; simpl; rewrite Htodo; reflexivity.
    + destruct fuel' as [|fuel']; [lia|]. simpl. rewrite Htodo. simpl.
      change (set_todo rest (bump d l)) with (bump d (set_todo rest l)).
      destruct (xabspath_body os exact new (set_todo rest l) st)
        as [l1 st1|l1 st1|l1 st1] eqn:Hb; try discriminate.
      * pose proof (xabspath_body_try os exact new _ st l1 st1 Hb) as [H0 H1].
        simpl in H0, H1.
        rewrite xabspath_body_bump by (simpl; lia). rewrite Hb. simpl.
        apply IH; [assumption | lia | lia | assumption].
      * injection H as <- <-.
        assert (try l <> 0) as H0.
        { intros E. rewrite (xabspath_body_eloop os exact new (set_todo rest l) st E)
            in Hb. discriminate. }
        rewrite xabspath_body_bump by (simpl; lia). rewrite Hb. reflexivity.
Qed.

Lemma xabspath_seed_bump d budget path st l0 st0 :
  xabspath_seed os budget path st = Some (l0, st0) ->
  xabspath_seed os (budget + d) path st = Some (bump d l0, st0).
Proof.
  unfold xabspath_seed. destruct (open_root os st) as [fd st1].
  destruct (negb (starts_with_slash path)).
  - destruct (xgetcwd os st1) as [[temp|] st2]; [|discriminate].
    simpl. intros [= <- <-]. reflexivity.
  - simpl. intros [= <- <-]. reflexivity.
Qed.

(** A call that returns a string returns the same string with a larger
    budget. *)
Lemma xabspath_budget_mono budget d path exact st s :
  0 <= budget -> 0 <= d ->
  returned (xabspath_budget os budget path exact st) = Some s ->
  returned (xabspath_budget os (budget + d) path exact st) = Some s.
Proof.
  intros Hb Hd. unfold xabspath_budget.
  destruct (xabspath_seed os budget path st) as [[l0 st0]|] eqn:Hseed;
    [|discriminate].
  rewrite (xabspath_seed_bump d budget path st l0 st0 Hseed).
  pose proof (xabspath_seed_facts os budget path st l0 st0 Hseed) as (_ & _ & Ht & _).
  destruct (run os exact l0 st0) as [[l stf|l stf]|] eqn:Hrun; try discriminate.
  unfold run in Hrun |- *.
  rewrite (xabspath_loop_bump d exact (Z.to_nat (try l0) + 1)
             (Z.to_nat (try (bump d l0)) + 1) l0 st0 l stf
             Hd ltac:(lia) ltac:(simpl; lia) Hrun).
  auto.
Qed.

Lemma same_outcome_returned (o1 o2 : outcome os) :
  same_outcome o1 o2 -> returned o1 = returned o2.
Proof.
  destruct o1, o2; simpl; try contradiction; try reflexivity.
  intros [-> _]. reflexivity.
Qed.

(** The link /a -> /b/c costs "/a/d" one iteration; after it the call is
    where "/b/c/d" starts, with one unit of budget less. *)
Lemma xabspath_budget_splice n exact st :
  0 <= n ->
  os_readlinkat os (os_root os) "a" = Ok "/b/c" ->
  same_outcome (xabspath_budget os (n + 1) "/a/d" exact st)
               (xabspath_budget os n "/b/c/d" exact st).
Proof.
  intros Hn Hlink. unfold xabspath_budget.
  destruct (xabspath_seed_absolute os (n + 1) "/a/d" st eq_refl)
    as (sa & Hseeda & [Hca Hia] & Hfa & Hea).
  destruct (xabspath_seed_absolute os n "/b/c/d" st eq_refl)
    as (sb & Hseedb & _ & Hfb & Heb).
  rewrite Hseeda, Hseedb.
  change (splitpath "/a/d") with ["a"; "d"] in *.
  change (splitpath "/b/c/d") with ["b"; "c"; "d"].
  destruct (xabspath_body_absolute os (fds st) (log st) exact "a"
              {| todo := ["d"]; done := []; try := n + 1;
                 dirfd := fd_alloc os (fds st) |} sa (os_root os) "/b/c")
    as (s1 & Hb & Hf1 & He1 & _).
  { eapply cursor_at_ext; [reflexivity | reflexivity | reflexivity | exact Hca]. }
  { exact Hia. } { simpl. lia. } { discriminate. } { discriminate. }
  { exact Hlink. } { reflexivity. } { simpl. lia. }
  rewrite (run_step os exact "a" ["d"]
             {| todo := ["a"; "d"]; done := []; try := n + 1;
                dirfd := fd_alloc os (fds st) |} sa _ s1
             ltac:(simpl; lia) eq_refl Hb).
  change (splitpath "/b/c" ++ ["d"])%list with ["b"; "c"; "d"].
  simpl try. replace (n + 1 - 1) with n by lia.
  apply same_outcome_end. unfold run. apply same_end_loop.
  split; congruence.
Qed.

(** C3 (as amended): with /a a link to /b/c, [xabspath("/a/d")] does what
    [xabspath("/b/c/d")] does with a budget of 9998 instead of 9999: the
    components of the target are put in front of "d", and the link has
    taken one iteration. So whenever [xabspath("/a/d")] returns a string,
    [xabspath("/b/c/d")] returns the same string. *)
Theorem xabspath_link_splice exact st :
  os_readlinkat os (os_root os) "a" = Ok "/b/c" ->
  same_outcome (xabspath os "/a/d" exact st)
               (xabspath_budget os 9998 "/b/c/d" exact st) /\
  (forall s,
     returned (xabspath os "/a/d" exact st) = Some s ->
     returned (xabspath os "/b/c/d" exact st) = Some s).
Proof.
  intros Hlink.
  pose proof (xabspath_budget_splice 9998 exact st ltac:(lia) Hlink) as Hsame.
  change (9998 + 1) with 9999 in Hsame.
  split; [exact Hsame|].
  intros s Hs. unfold xabspath in Hs.
  rewrite (same_outcome_returned _ _ Hsame) in Hs.
  apply (xabspath_budget_mono 9998 1 "/b/c/d" exact st s ltac:(lia) ltac:(lia) Hs).
Qed.

End Splice.

(** C3 as stated fails on the chain tree: /a is a link to /b/c,
    [xabspath("/b/c/d")] needs all 9999 iterations and returns "/e/c/d",
    and [xabspath("/a/d")], one iteration behind, returns NULL with
    ELOOP. *)
Lemma xabspath_link_splice_fails :
  let os := TreeFS.make TreeFS.chain (Ok "/") in
  let st := TreeFS.start TreeFS.chain (Ok "/") in
  os_readlinkat os (os_root os) "a" = Ok "/b/c" /\
  TreeFS.result (xabspath os "/b/c/d" 1 st) = Some (Some "/e/c/d", EINVAL) /\
  TreeFS.result (xabspath os "/a/d" 1 st) = Some (None, ELOOP) /\
  returned (xabspath os "/a/d" 1 st) <> returned (xabspath os "/b/c/d" 1 st).
Proof.
  intros os st.
  assert (TreeFS.result (xabspath os "/b/c/d" 1 st) = Some (Some "/e/c/d", EINVAL))
    as Hb by (vm_compute; reflexivity).
  assert (TreeFS.result (xabspath os "/a/d" 1 st) = Some (None, ELOOP))
    as Ha by (vm_compute; reflexivity).
  split; [reflexivity|]. split; [exact Hb|]. split; [exact Ha|].
  intros Heq.
  pose proof (result_returned _ _ _ Ha) as Ra.
  pose proof (result_returned _ _ _ Hb) as Rb.
  congruence.
Qed.

(** On the sample tree extended with the link of the claim. *)
Lemma xabspath_link_splice_witness :
  let t := (["a"], TreeFS.Link "/b/c") :: (["b"], TreeFS.Dir)
           :: (["b"; "c"], TreeFS.Dir) :: [] in
  let os := TreeFS.make t (Ok "/") in
  let st := TreeFS.start t (Ok "/") in
  returned (xabspath os "/a/d" 0 st) = Some "/b/c/d" /\
  returned (xabspath os "/b/c/d" 0 st) = Some "/b/c/d".
Proof.
  intros t os st.
  assert (returned (xabspath os "/a/d" 0 st) = Some "/b/c/d") as Ha
    by (vm_compute; reflexivity).
  split; [exact Ha|].
  destruct (xabspath_link_splice os 0 st eq_refl) as [_ Hsame].
  apply Hsame. exact Ha.
Defined.

(** On the sample tree, "/a//b/./c" spells "/a/b/c". *)
Lemma xabspath_result_shape_witness :
  let os := TreeFS.make TreeFS.sample (Ok "/") in
  let st := TreeFS.start TreeFS.sample (Ok "/") in
  exists st', xabspath os "/a//b/.//../c/" 1 st = Returned (Some "/a/c") st' /\
    double_slash "/a/c" = false.
Proof.
  intros os st.
  assert (exists st', xabspath os "/a//b/.//../c/" 1 st = Returned (Some "/a/c") st')
    as [st' Hcall].
  { vm_compute. eexists. reflexivity. }
  exists st'. split; [exact Hcall|].
  destruct (xabspath_result_shape os _ 1 st "/a/c" st' Hcall)
    as (l0 & st0 & l & stf & _ & _ & _ & _ & _ & _ & _ & Hds & _).
  exact Hds.
Defined.

Section Cycle.
Context (os : OS).
Implicit Types (st : pstate os) (l : frame).

(** ** Two links that point at each other *)

(** While budget is left, resolution goes back and forth between the two
    names with nothing resolved. *)
Lemma cycle_after base blog exact k : forall l st,
  os_readlinkat os (os_root os) "a" = Ok "/b" ->
  os_readlinkat os (os_root os) "b" = Ok "/a" ->
  cursor_on base blog (os_root os) l st ->
  done l = [] -> todo l = ["a"] \/ todo l = ["b"] ->
  Z.of_nat k <= try l ->
  exists l' st',
    after os exact k l st = Some (l', st') /\
    cursor_on base blog (os_root os) l' st' /\
    (todo l' = ["a"] \/ todo l' = ["b"]).
Proof.
  induction k as [|k IH]; intros l st Ha Hb Hc Hd Ht Hk.
  - exists l, st. auto.
  - assert (exists name target,
              todo l = [name] /\ name <> "." /\ name <> ".." /\
              os_readlinkat os (os_root os) name = Ok target /\
              starts_with_slash target = true /\
              (String.length target <= 4095)%nat /\
              (splitpath target = ["a"] \/ splitpath target = ["b"]))
      as (name & target & Hname & H1 & H2 & Hr & Hs & Hlen & Hsplit).
    { destruct Ht as [Ht | Ht].
      - exists "a", "/b". repeat split; try assumption; try discriminate.
        + simpl. lia.
        + right. reflexivity.
      - exists "b", "/a". repeat split; try assumption; try discriminate.
        + simpl. lia.
        + left. reflexivity. }
    destruct Hc as [Hc Hi].
    destruct (xabspath_body_absolute os base blog exact name (set_todo [] l) st
                (os_root os) target)
      as (st1 & Hbody & _ & _ & _ & Hc1); try assumption.
    { simpl. lia. }
    cbn [after]. rewrite Hname. cbn [llist_pop]. rewrite Hbody.
    apply IH; try assumption.
    + reflexivity.
    + simpl. rewrite app_nil_r. exact Hsplit.
    + simpl. lia.
Qed.

(** With /a a link to /b and /b a link to /a, [xabspath("/a")] spends
    its whole budget and returns NULL with [errno] = ELOOP. *)
Lemma xabspath_symlink_cycle exact st :
  os_readlinkat os (os_root os) "a" = Ok "/b" ->
  os_readlinkat os (os_root os) "b" = Ok "/a" ->
  exists st', xabspath os "/a" exact st = Returned None st' /\ errno st' = ELOOP.
Proof.
  intros Ha Hb.
  destruct (xabspath_seed_absolute os 9999 "/a" st eq_refl)
    as (st0 & Hseed & Hc0 & _).
  change (splitpath "/a") with ["a"] in Hseed, Hc0.
  destruct (cycle_after (fds st) (log st) exact (Z.to_nat 9999) _ st0
              Ha Hb Hc0 eq_refl (or_introl eq_refl) ltac:(simpl; lia))
    as (l & stk & Hafter & _ & Htodo).
  pose proof (after_try os exact _ _ _ _ _ Hafter) as Htry.
  rewrite Z2Nat.id in Htry by lia. simpl in Htry.
  assert (exists name, todo l = [name]) as [name Hname].
  { destruct Htodo as [-> | ->]; eauto. }
  destruct (xabspath_fails_at os "/a" exact st _ st0 _ l stk name [] _ _
              Hseed Hafter Hname
              (xabspath_body_eloop os exact name (set_todo [] l) stk ltac:(simpl; lia)))
    as (st' & Hcall & Herr & _).
  exists st'. split; assumption.
Qed.

End Cycle.

Section Buffer.
Context (os : OS).

(** ** The size of the result buffer *)

Lemma reverse_count_more d : forall t n,
  t <> [] ->
  snd (reverse_count d t n) = n + Z.of_nat (String.length (slashed (rev d))).
Proof.
  induction d as [|x d IH]; intros t n Ht; simpl.
  - lia.
  - destruct t as [|y t]; [congruence|]. simpl.
    rewrite IH by discriminate.
    rewrite slashed_app, !length_app_string. simpl.
    rewrite !length_app_string. simpl. lia.
Qed.

(** The size that [reverse_count] hands to [xmalloc] is the length of the
    string that [assemble] writes, and one more for the terminator. *)
Lemma reverse_count_size d :
  snd (reverse_count d [] 2) = Z.of_nat (String.length (canonical (rev d))) + 1.
Proof.
  destruct d as [|x d]; [reflexivity|]. simpl.
  rewrite reverse_count_more by discriminate.
  unfold canonical. destruct (rev d ++ [x])%list eqn:E.
  - destruct (rev d); discriminate.
  - rewrite <- E. rewrite slashed_app, !length_app_string. simpl.
    rewrite !length_app_string. simpl. lia.
Qed.

End Buffer.

(** * Further properties of [xabspath] *)

Section NoDots.
Context (os : OS).
Implicit Types (st : pstate os) (l : frame).

(** ** "." and ".." never reach the resolved list *)

Lemma xabspath_move_done exact s l st :
  match xabspath_move os exact s l st with
  | Continue l' _ | Break l' _ | GotoError l' _ => done l' = done l
  end.
Proof.
  unfold xabspath_move. destruct (xopenat os (dirfd l) s st) as [fd st1].
  destruct (_ && _); reflexivity.
Qed.

Lemma xabspath_lookup_dotless exact new len buf l st :
  (len <> 0 -> dotless new) -> Forall dotless (done l) ->
  match xabspath_lookup os exact new len buf l st with
  | Continue l' _ | Break l' _ | GotoError l' _ => Forall dotless (done l')
  end.
Proof.
  intros Hnew Hd. unfold xabspath_lookup.
  destruct (4095 <? len); [exact Hd|].
  destruct (len <? 1).
  - destruct (len =? 0) eqn:E.
    + pose proof (xabspath_move_done exact ".." l st) as Hm.
      destruct (xabspath_move os exact ".." l st); rewrite Hm; exact Hd.
    + destruct (_ && _); [exact Hd|].
      assert (Forall dotless (new :: done l)) as Hd'.
      { constructor; [apply Hnew; lia | exact Hd]. }
      destruct (_ && _); [exact Hd'|].
      pose proof (xabspath_move_done exact new (set_done (new :: done l) l) st) as Hm.
      destruct (xabspath_move os exact new _ st); rewrite Hm; exact Hd'.
  - destruct (starts_with_slash buf); simpl;
      destruct (nonempty (splitpath buf)); simpl; try constructor; exact Hd.
Qed.

Lemma xabspath_body_dotless exact new l st :
  Forall dotless (done l) ->
  match xabspath_body os exact new l st with
  | Continue l' _ | Break l' _ | GotoError l' _ => Forall dotless (done l')
  end.
Proof.
  intros Hd. unfold xabspath_body.
  destruct (try l =? 0); [exact Hd|].
  destruct (String.eqb new "." || String.eqb new "..") eqn:Hdot.
  - destruct (str_at new 1 =? 0); [exact Hd|].
    simpl. destruct (done l) as [|x d] eqn:Hdone; simpl.
    + apply xabspath_lookup_dotless; [congruence|]. simpl. rewrite Hdone. constructor.
    + apply xabspath_lookup_dotless; [congruence|]. simpl.
      apply Forall_cons in Hd as [_ Hd]. exact Hd.
  - apply orb_false_elim in Hdot as [H1 H2].
    apply String.eqb_neq in H1, H2.
    destruct (xreadlinkat os _ new 4096 st) as [[len buf] st1].
    apply xabspath_lookup_dotless; [intros _; split; assumption | exact Hd].
Qed.

Lemma xabspath_loop_dotless exact fuel : forall l st,
  Forall dotless (done l) ->
  match xabspath_loop os fuel exact l st with
  | None => True
  | Some (LoopExit l' _) | Some (LoopError l' _) => Forall dotless (done l')
  end.
Proof.
  induction fuel as [|fuel IH]; intros l st Hd; simpl.
  - destruct (todo l); simpl; auto.
  - destruct (todo l) as [|new rest]; simpl; [exact Hd|].
    pose proof (xabspath_body_dotless exact new (set_todo rest l) st Hd) as Hb.
    destruct (xabspath_body os exact new (set_todo rest l) st) as [l' st'|l' st'|l' st'];
      [apply IH | |]; exact Hb.
Qed.

(** X1: a string that [xabspath] returns has no "." and no ".."
    component: it spells a list of components none of which is "." or
    "..", each after one '/'. *)
Theorem xabspath_no_dots path exact st s st' :
  xabspath os path exact st = Returned (Some s) st' ->
  exists comps,
    s = canonical comps /\ Forall good comps /\ Forall dotless comps.
Proof.
  intros Hcall.
  destruct (xabspath_seed os 9999 path st) as [[l0 st0]|] eqn:Hseed.
  2:{ rewrite (xabspath_exit os path exact st Hseed) in Hcall. discriminate. }
  rewrite (xabspath_unfold os path exact st l0 st0 Hseed) in Hcall.
  pose proof (run_facts os 9999 path exact st l0 st0 ltac:(lia) Hseed) as Hf.
  pose proof (xabspath_seed_facts os 9999 path st l0 st0 Hseed)
    as (_ & _ & _ & Hd0 & _).
  pose proof (xabspath_loop_dotless exact (Z.to_nat (try l0) + 1) l0 st0) as Hdl.
  rewrite Hd0 in Hdl. specialize (Hdl ltac:(constructor)).
  unfold run in *.
  destruct (xabspath_loop os _ exact l0 st0) as [[l stf|l stf]|]; [| |contradiction].
  2:{ simpl in Hcall. unfold xabspath_error in Hcall. discriminate. }
  destruct Hf as (Hnil & Hg & _).
  destruct (xabspath_finish_ret os l stf Hg Hnil) as [st2 H2].
  simpl in Hcall. rewrite H2 in Hcall. injection Hcall as <- <-.
  exists (rev (done l)). split; [reflexivity|].
  split; apply Forall_rev; [apply Hg | exact Hdl].
Qed.

End NoDots.

(** On the sample tree. *)
Lemma xabspath_no_dots_witness :
  let os := TreeFS.make TreeFS.sample (Ok "/") in
  let st := TreeFS.start TreeFS.sample (Ok "/") in
  exists st' comps,
    xabspath os "/a/./b/../c" 1 st = Returned (Some "/a/c") st' /\
    "/a/c" = canonical comps /\ Forall dotless comps.
Proof.
  intros os st.
  assert (exists st', xabspath os "/a/./b/../c" 1 st = Returned (Some "/a/c") st')
    as [st' Hcall].
  { vm_compute. eexists. reflexivity. }
  destruct (xabspath_no_dots os _ 1 st "/a/c" st' Hcall) as (comps & Hs & _ & Hd).
  exists st', comps. auto.
Defined.

Section Heap.
Context (os : OS).
Implicit Types (st : pstate os) (l : frame).

(** ** List nodes and heap strings *)

Lemma close_nodes fd st : nodes (close os fd st) = nodes st.
Proof. unfold close. destruct (fd_lookup os (fds st) fd); reflexivity. Qed.

Lemma xopenat_nodes fd s st : nodes (snd (xopenat os fd s st)) = nodes st.
Proof.
  unfold xopenat. destruct (fd_lookup os (fds st) fd) as [i|]; [|reflexivity].
  destruct (os_openat os i s); reflexivity.
Qed.

Lemma xabspath_move_unlisted exact s l st :
  match xabspath_move os exact s l st with
  | Continue l' st' | Break l' st' | GotoError l' st' =>
      unlisted l' st' = unlisted l st
  end.
Proof.
  unfold xabspath_move.
  pose proof (xopenat_nodes (dirfd l) s st) as Ho.
  destruct (xopenat os (dirfd l) s st) as [fd st1]. simpl in Ho.
  destruct (_ && _); unfold unlisted; simpl; rewrite ?close_nodes; lia.
Qed.

(** For "..": nothing is allocated or freed after the two frees of the
    caller. *)
Lemma xabspath_lookup_unlisted_zero exact new buf l st :
  match xabspath_lookup os exact new 0 buf l st with
  | Continue l' st' | Break l' st' | GotoError l' st' =>
      unlisted l' st' = unlisted l st
  end.
Proof.
  unfold xabspath_lookup. simpl. apply xabspath_move_unlisted.
Qed.

(** For a name: its node ends up on [done] or is freed, unless the
    iteration jumps to [error] before that. *)
Lemma xabspath_lookup_unlisted exact new len buf l st :
  len <> 0 ->
  match xabspath_lookup os exact new len buf l st with
  | Continue l' st' | Break l' st' => unlisted l' st' = unlisted l st - 1
  | GotoError l' st' =>
      unlisted l' st' = unlisted l st \/ unlisted l' st' = unlisted l st - 1
  end.
Proof.
  intros Hlen. unfold xabspath_lookup.
  destruct (4095 <? len); [left; reflexivity|].
  destruct (len <? 1).
  - destruct (len =? 0) eqn:E; [lia|].
    destruct (_ && _); [left; reflexivity|].
    assert (unlisted (set_done (new :: done l) l) st = unlisted l st - 1) as Hpush.
    { unfold unlisted. simpl. lia. }
    destruct (_ && _); [exact Hpush|].
    pose proof (xabspath_move_unlisted exact new (set_done (new :: done l) l) st) as Hm.
    destruct (xabspath_move os exact new _ st); try right; lia.
  - destruct (starts_with_slash buf); simpl;
      destruct (splitpath buf) as [|c comps]; unfold unlisted; simpl;
        rewrite ?close_nodes; simpl; rewrite ?length_app; lia.
Qed.

Lemma xreadlinkat_len fd name st :
  (forall i, os_readlinkat os i name <> Ok "") ->
  fst (fst (xreadlinkat os fd name 4096 st)) <> 0.
Proof.
  intros Hne. unfold xreadlinkat.
  destruct (fd_lookup os (fds st) fd) as [i|]; [|simpl; lia].
  destruct (os_readlinkat os i name) as [target|e] eqn:Hr; [|simpl; lia].
  simpl. destruct target as [|c t]; [destruct (Hne i Hr)|]. simpl. lia.
Qed.

Lemma xabspath_body_unlisted exact new l st :
  (forall i name, os_readlinkat os i name <> Ok "") ->
  match xabspath_body os exact new l st with
  | Continue l' st' | Break l' st' => unlisted l' st' = unlisted l st - 1
  | GotoError l' st' =>
      unlisted l' st' = unlisted l st \/ unlisted l' st' = unlisted l st - 1
  end.
Proof.
  intros Hne. unfold xabspath_body.
  destruct (try l =? 0); [left; reflexivity|].
  destruct (_ || _).
  - destruct (str_at new 1 =? 0); [unfold unlisted; simpl; lia|].
    simpl. destruct (done l) as [|x d] eqn:Hdone; simpl.
    + pose proof (xabspath_lookup_unlisted_zero exact new ""
                    (set_try (try l - 1) l) (free_node os st)) as Hz.
      assert (unlisted (set_try (try l - 1) l) (free_node os st) = unlisted l st - 1)
        as Hu by (unfold unlisted; simpl; lia).
      destruct (xabspath_lookup os exact new 0 "" _ _); try right; lia.
    + pose proof (xabspath_lookup_unlisted_zero exact new ""
                    (set_done d (set_try (try l - 1) l))
                    (free_node os (free_node os st))) as Hz.
      assert (unlisted (set_done d (set_try (try l - 1) l))
                (free_node os (free_node os st)) = unlisted l st - 1)
        as Hu by (unfold unlisted; simpl; rewrite Hdone; simpl; lia).
      destruct (xabspath_lookup os exact new 0 "" _ _); try right; lia.
  - pose proof (xreadlinkat_len (dirfd (set_try (try l - 1) l)) new st
                  (fun i => Hne i new)) as Hlen.
    pose proof (xreadlinkat_frame os (dirfd (set_try (try l - 1) l)) new 4096 st) as Hr.
    destruct (xreadlinkat os _ new 4096 st) as [[len buf] st1].
    simpl in Hlen. destruct Hr as (_ & _ & Hn & _).
    pose proof (xabspath_lookup_unlisted exact new len buf
                  (set_try (try l - 1) l) st1 Hlen) as Hl.
    assert (unlisted (set_try (try l - 1) l) st1 = unlisted l st) as Hu
      by (unfold unlisted; simpl; lia).
    destruct (xabspath_lookup os exact new len buf _ st1); lia.
Qed.

Lemma xabspath_loop_unlisted exact fuel : forall l st,
  (forall i name, os_readlinkat os i name <> Ok "") ->
  match xabspath_loop os fuel exact l st with
  | None => True
  | Some (LoopExit l' st') => unlisted l' st' = unlisted l st
  | Some (LoopError l' st') =>
      unlisted l' st' = unlisted l st \/ unlisted l' st' = unlisted l st + 1
  end.
Proof.
  induction fuel as [|fuel IH]; intros l st Hne; simpl.
  - destruct (todo l); simpl; auto.
  - destruct (todo l) as [|new rest] eqn:Htodo; simpl; [reflexivity|].
    pose proof (xabspath_body_unlisted exact new (set_todo rest l) st Hne) as Hb.
    assert (unlisted (set_todo rest l) st = unlisted l st + 1) as Hu
      by (unfold unlisted; simpl; rewrite Htodo; simpl; lia).
    destruct (xabspath_body os exact new (set_todo rest l) st) as [l' st'|l' st'|l' st'].
    + specialize (IH l' st' Hne).
      destruct (xabspath_loop os fuel exact l' st') as [[l2 st2|l2 st2]|]; lia.
    + lia.
    + lia.
Qed.

Lemma reverse_count_length d : forall t n,
  length (fst (reverse_count d t n)) = (length d + length t)%nat.
Proof.
  induction d as [|x d IH]; intros t n; simpl; [reflexivity|].
  rewrite IH. simpl. lia.
Qed.

Lemma xabspath_finish_nodes l st ret st' :
  xabspath_finish os l st = Returned ret st' ->
  nodes st' = unlisted l st.
Proof.
  unfold xabspath_finish.
  pose proof (reverse_count_length (done l) (todo l) 2) as Hlen.
  destruct (reverse_count (done l) (todo l) 2) as [todo' n]. simpl in Hlen.
  pose proof (assemble_state os todo' "/" (xmalloc os n (close os (dirfd l) st))) as Ha.
  destruct (assemble os todo' "/" _) as [r st2]. simpl in Ha.
  intros [= _ <-]. subst st2. unfold unlisted. simpl. rewrite close_nodes. lia.
Qed.

(** X2: when no link has an empty target, a call that returns a string
    has freed every list node it made and holds one heap string more than
    before, the result; a call that returns NULL holds no heap string more
    than before, and at most one list node (the one popped for the
    component at which it failed) is still allocated. *)
Theorem xabspath_heap path exact st ret st' :
  (forall i name, os_readlinkat os i name <> Ok "") ->
  xabspath os path exact st = Returned ret st' ->
  match ret with
  | Some _ => nodes st' = nodes st /\ bufs st' = bufs st + 1
  | None => (nodes st' = nodes st \/ nodes st' = nodes st + 1) /\
            bufs st' = bufs st
  end.
Proof.
  intros Hne Hcall.
  destruct (xabspath_seed os 9999 path st) as [[l0 st0]|] eqn:Hseed.
  2:{ rewrite (xabspath_exit os path exact st Hseed) in Hcall. discriminate. }
  rewrite (xabspath_unfold os path exact st l0 st0 Hseed) in Hcall.
  pose proof (run_facts os 9999 path exact st l0 st0 ltac:(lia) Hseed) as Hf.
  pose proof (xabspath_seed_facts os 9999 path st l0 st0 Hseed)
    as (_ & _ & _ & Hd0 & _ & _ & Hn0).
  assert (unlisted l0 st0 = nodes st) as Hu0.
  { unfold unlisted. rewrite Hd0. simpl. lia. }
  pose proof (xabspath_loop_unlisted exact (Z.to_nat (try l0) + 1) l0 st0 Hne) as Hl.
  unfold run in *.
  destruct (xabspath_loop os _ exact l0 st0) as [[l stf|l stf]|]; [| |contradiction].
  - destruct Hf as (Hnil & Hg & Hb & Hc). simpl in Hcall.
    destruct (xabspath_finish_ret os l stf Hg Hnil) as [st2 H2].
    pose proof (xabspath_finish_nodes l stf _ _ Hcall) as Hn.
    destruct (xabspath_finish_state os _ _ l stf ret st' Hc Hcall) as (_ & Hb' & _).
    rewrite H2 in Hcall. injection Hcall as <- <-. split; lia.
  - destruct Hf as (Hg & Hb & Hc).
    destruct (xabspath_error_facts os _ _ l stf Hc)
      as (st2 & H2 & _ & _ & Hb' & Hn & _).
    simpl in Hcall. rewrite H2 in Hcall. injection Hcall as <- <-.
    unfold unlisted in *. split; lia.
Qed.

End Heap.

(** In a tree every target that [readlinkat] gives is the target of a link
    of the tree. *)
Lemma treefs_find_in t p k :
  TreeFS.find t p = Some k -> In k (map snd t).
Proof.
  induction t as [|[q k'] t IH]; simpl; [discriminate|].
  destruct (bool_decide (p = q)); [intros [= ->]; left; reflexivity|].
  intros H. right. apply IH. exact H.
Qed.

Lemma treefs_readlinkat_in t dir name s :
  TreeFS.readlinkat t dir name = Ok s -> In (TreeFS.Link s) (map snd t).
Proof.
  unfold TreeFS.readlinkat.
  destruct (TreeFS.kind_of t dir) as [[| |x]|]; try discriminate.
  destruct (_ || _); [discriminate|].
  destruct (TreeFS.find t (dir ++ [name])) as [[| |x]|] eqn:Hf; try discriminate.
  intros [= ->]. eapply treefs_find_in. exact Hf.
Qed.

Lemma sample_no_empty_link i name :
  os_readlinkat (TreeFS.make TreeFS.sample (Ok "/")) i name <> Ok "".
Proof.
  intros H. apply treefs_readlinkat_in in H. simpl in H.
  repeat (destruct H as [H | H]; [discriminate H|]). exact H.
Qed.

(** On the sample tree: a success and a failure that leaves one node. *)
Lemma xabspath_heap_witness :
  let os := TreeFS.make TreeFS.sample (Ok "/") in
  let st := TreeFS.start TreeFS.sample (Ok "/") in
  (exists st', xabspath os "/a/b" 1 st = Returned (Some "/a/b") st' /\
               nodes st' = nodes st /\ bufs st' = bufs st + 1) /\
  (exists st', xabspath os "/a/zz/q" 1 st = Returned None st' /\
               nodes st' = nodes st + 1 /\ bufs st' = bufs st).
Proof.
  intros os st. split.
  - assert (exists st', xabspath os "/a/b" 1 st = Returned (Some "/a/b") st')
      as [st' Hcall].
    { vm_compute. eexists. reflexivity. }
    exists st'. split; [exact Hcall|].
    exact (xabspath_heap os "/a/b" 1 st _ st' sample_no_empty_link Hcall).
  - assert (exists st', xabspath os "/a/zz/q" 1 st = Returned None st' /\
                        nodes st' = nodes st + 1)
      as (st' & Hcall & Hn).
    { vm_compute. eexists. split; reflexivity. }
    exists st'. split; [exact Hcall|]. split; [exact Hn|].
    exact (proj2 (xabspath_heap os "/a/zz/q" 1 st _ st' sample_no_empty_link Hcall)).
Defined.

Section Relative.
Context (os : OS).
Implicit Types (st : pstate os) (l : frame).

(** ** Relative paths and the working directory *)

Lemma splitpath_from_app a : forall cur b,
  splitpath_from cur (a +:+ "/" +:+ b) =
  (splitpath_from cur a ++ splitpath_from "" b)%list.
Proof.
  induction a as [|c a IH]; intros cur b.
  - rewrite app_string_empty. reflexivity.
  - rewrite app_string_cons. simpl.
    destruct (Ascii.eqb c "/").
    + rewrite IH. apply app_assoc.
    + apply IH.
Qed.

Lemma splitpath_app a b :
  splitpath (a +:+ "/" +:+ b) = (splitpath a ++ splitpath b)%list.
Proof. apply splitpath_from_app. Qed.

Lemma starts_with_slash_app a b :
  starts_with_slash a = true -> starts_with_slash (a +:+ b) = true.
Proof. destruct a; [discriminate | intros H; exact H]. Qed.

(** X3: a path that does not start with '/' is resolved as the working
    directory, a '/', and the path: when [getcwd] gives an absolute [cwd],
    [xabspath(path)] and [xabspath(cwd "/" path)] return the same, with the
    same [errno] and descriptors. *)
Theorem xabspath_relative path exact st cwd :
  starts_with_slash path = false ->
  os_getcwd os = Ok cwd ->
  starts_with_slash cwd = true ->
  same_outcome (xabspath os path exact st)
               (xabspath os (cwd +:+ "/" +:+ path) exact st).
Proof.
  intros Hrel Hcwd Habs.
  assert (exists sa,
            xabspath_seed os 9999 path st =
              Some ({| todo := splitpath cwd ++ splitpath path; done := [];
                       try := 9999; dirfd := fd_alloc os (fds st) |}, sa) /\
            fds sa = <[fd_alloc os (fds st) := os_root os]> (fds st) /\
            errno sa = errno st) as (sa & Hseeda & Hfa & Hea).
  { unfold xabspath_seed, open_root, xgetcwd. rewrite Hrel, Hcwd. simpl.
    eexists. split; [reflexivity|]. split; reflexivity. }
  destruct (xabspath_seed_absolute os 9999 (cwd +:+ "/" +:+ path) st
              (starts_with_slash_app cwd _ Habs))
    as (sb & Hseedb & _ & Hfb & Heb).
  rewrite splitpath_app in Hseedb.
  rewrite (xabspath_unfold os _ exact st _ sa Hseeda).
  rewrite (xabspath_unfold os _ exact st _ sb Hseedb).
  apply same_outcome_end. unfold run. apply same_end_loop.
  split; congruence.
Qed.

(** X4: [xabspath] ends the process exactly when the path is relative and
    [getcwd] fails; in every other case it returns, a string or NULL. *)
Theorem xabspath_exits path exact st :
  match xabspath os path exact st with
  | Exited _ =>
      starts_with_slash path = false /\ exists e, os_getcwd os = Err e
  | Returned _ _ =>
      starts_with_slash path = true \/ exists cwd, os_getcwd os = Ok cwd
  | Diverged => False
  end.
Proof.
  destruct (xabspath_seed os 9999 path st) as [[l0 st0]|] eqn:Hseed.
  - rewrite (xabspath_unfold os path exact st l0 st0 Hseed).
    pose proof (run_facts os 9999 path exact st l0 st0 ltac:(lia) Hseed) as Hf.
    assert (starts_with_slash path = true \/ exists cwd, os_getcwd os = Ok cwd) as Hor.
    { revert Hseed. unfold xabspath_seed, open_root, xgetcwd.
      destruct (starts_with_slash path); [auto|]. simpl.
      destruct (os_getcwd os); [eauto | discriminate]. }
    destruct (run os exact l0 st0) as [[l stf|l stf]|]; [| |contradiction].
    + destruct Hf as (Hnil & Hg & _).
      destruct (xabspath_finish_ret os l stf Hg Hnil) as [st2 H2].
      simpl. rewrite H2. exact Hor.
    + simpl. unfold xabspath_error. exact Hor.
  - rewrite (xabspath_exit os path exact st Hseed).
    revert Hseed. unfold xabspath_seed, open_root, xgetcwd.
    destruct (starts_with_slash path); [discriminate|]. simpl.
    destruct (os_getcwd os); [discriminate | eauto].
Qed.

End Relative.

(** On the sample tree with working directory /a. *)
Lemma xabspath_relative_witness :
  let os := TreeFS.make TreeFS.sample (Ok "/a") in
  let st := TreeFS.start TreeFS.sample (Ok "/a") in
  returned (xabspath os "b/../c" 1 st) = Some "/a/c" /\
  returned (xabspath os "/a/b/../c" 1 st) = Some "/a/c".
Proof.
  intros os st.
  assert (returned (xabspath os "b/../c" 1 st) = Some "/a/c") as Hrel
    by (vm_compute; reflexivity).
  split; [exact Hrel|].
  rewrite <- Hrel. symmetry. apply same_outcome_returned.
  exact (xabspath_relative os "b/../c" 1 st "/a" eq_refl eq_refl eq_refl).
Defined.

Section Canonical.
Context (os : OS).
Implicit Types (st : pstate os) (l : frame) (base : gmap Z (inode os))
               (blog : list event).

(** ** Paths that are already canonical *)

Lemma splitpath_from_skip c : forall cur r,
  has_slash c = false ->
  splitpath_from cur (c +:+ r) = splitpath_from (cur +:+ c) r.
Proof.
  induction c as [|a c IH]; intros cur r Hc.
  - rewrite app_string_empty, app_string_nil. reflexivity.
  - simpl in Hc. apply orb_false_elim in Hc as [Ha Hc].
    rewrite app_string_cons. simpl. rewrite Ha.
    rewrite IH by assumption. rewrite app_string_assoc. reflexivity.
Qed.

Lemma splitpath_from_slashed comps : forall cur,
  Forall good comps ->
  splitpath_from cur (slashed comps) = (component cur ++ comps)%list.
Proof.
  induction comps as [|c comps IH]; intros cur Hg.
  - simpl. symmetry. apply app_nil_r.
  - apply Forall_cons in Hg as [[Hne Hc] Hg].
    cbn [slashed]. rewrite app_string_cons, app_string_empty. simpl.
    rewrite splitpath_from_skip by assumption. rewrite app_string_empty.
    rewrite IH by assumption.
    destruct c; [congruence | reflexivity].
Qed.

(** Splitting what the assembler spells gives the components back. *)
Lemma splitpath_canonical comps :
  Forall good comps -> splitpath (canonical comps) = comps.
Proof.
  intros Hg. destruct comps as [|c comps]; [reflexivity|].
  exact (splitpath_from_slashed (c :: comps) "" Hg).
Qed.

Lemma run_plain base blog exact comps : forall l st i,
  cursor_on base blog i l st ->
  todo l = comps ->
  Forall dotless comps ->
  plain_walk os i comps ->
  Z.of_nat (length comps) <= try l ->
  exists l' st',
    run os exact l st = Some (LoopExit l' st') /\
    todo l' = [] /\ done l' = (rev comps ++ done l)%list.
Proof.
  induction comps as [|c comps IH]; intros l st i Hc Htodo Hdot Hwalk Hlen.
  - exists l, st. split; [apply run_done; exact Htodo|]. auto.
  - apply Forall_cons in Hdot as [[H1 H2] Hdot].
    destruct Hwalk as [Hr Hwalk]. simpl in Hlen.
    destruct comps as [|c2 comps].
    + eexists _, _. split.
      * apply (run_final os base blog exact c l st i Hc ltac:(lia) Htodo H1 H2 Hr).
      * split; reflexivity.
    + destruct Hwalk as (j & Ho & Hwalk).
      destruct (run_directory os base blog exact c (c2 :: comps) l st i j Hc
                  ltac:(lia) Htodo ltac:(discriminate) H1 H2 Hr Ho)
        as (fd & st1 & Hrun & Hc1).
      destruct (IH _ st1 j Hc1 eq_refl Hdot Hwalk ltac:(simpl in *; lia))
        as (l' & st' & Hrun' & Hnil & Hdone).
      exists l', st'. rewrite Hrun, Hrun'. split; [reflexivity|].
      split; [exact Hnil|]. rewrite Hdone. simpl.
      rewrite <- !app_assoc. reflexivity.
Qed.

(** X5: a canonical path is returned as it is. When the components are
    plain names (made as [splitpath] makes them, none "." or ".."), at
    most 9999 of them, and they lead down from the root through
    directories without meeting a link, [xabspath] of their canonical
    spelling returns that spelling, for every [exact]. *)
Theorem xabspath_idempotent comps exact st :
  Forall good comps -> Forall dotless comps ->
  Z.of_nat (length comps) <= 9999 ->
  plain_walk os (os_root os) comps ->
  exists st',
    xabspath os (canonical comps) exact st = Returned (Some (canonical comps)) st'.
Proof.
  intros Hg Hdot Hlen Hwalk.
  assert (starts_with_slash (canonical comps) = true) as Habs.
  { destruct comps; reflexivity. }
  destruct (xabspath_seed_absolute os 9999 (canonical comps) st Habs)
    as (st0 & Hseed & Hc0 & _).
  rewrite (splitpath_canonical comps Hg) in Hseed, Hc0.
  rewrite (xabspath_unfold os _ exact st _ st0 Hseed).
  destruct (run_plain _ _ exact comps _ st0 _ Hc0 eq_refl Hdot Hwalk Hlen)
    as (l' & st' & Hrun & Hnil & Hdone).
  rewrite Hrun. simpl in Hdone. rewrite app_nil_r in Hdone.
  destruct (xabspath_finish_ret os l' st') as [st2 Hfin].
  - split; [rewrite Hnil; constructor | rewrite Hdone; apply Forall_rev, Hg].
  - exact Hnil.
  - exists st2. simpl. rewrite Hfin, Hdone, rev_involutive. reflexivity.
Qed.

(** ** Paths made of "." only *)

Lemma after_dots exact comps : forall rest l st,
  Forall (eq ".") comps ->
  todo l = (comps ++ rest)%list ->
  Z.of_nat (length comps) <= try l ->
  exists st',
    after os exact (length comps) l st =
      Some ({| todo := rest; done := done l;
               try := try l - Z.of_nat (length comps); dirfd := dirfd l |}, st') /\
    fds st' = fds st /\ log st' = log st /\ errno st' = errno st.
Proof.
  induction comps as [|c comps IH]; intros rest l st Hall Htodo Hlen.
  - exists st. simpl in *. split; [|auto].
    destruct l; simpl in *. subst. do 3 f_equal. lia.
  - apply Forall_cons in Hall as [<- Hall]. simpl in Hlen, Htodo.
    cbn [after length]. rewrite Htodo. cbn [llist_pop].
    rewrite xabspath_body_dot by (simpl; lia).
    destruct (IH rest (set_try (try (set_todo (comps ++ rest) l) - 1)
                         (set_todo (comps ++ rest) l)) (free_node os st)
                Hall eq_refl ltac:(simpl; lia))
      as (st' & Hafter & Hf & Hl & He).
    exists st'. rewrite Hafter. split; [|auto].
    simpl. do 3 f_equal. lia.
Qed.

(** X6: an absolute path whose components are all "." (such as "/",
    "//" or "/./") gives "/" when it has at most 9999 of them, and NULL
    with [errno] = ELOOP when it has more: every "." takes one unit of the
    budget although there is no link. *)
Theorem xabspath_only_dots path exact st :
  starts_with_slash path = true ->
  Forall (eq ".") (splitpath path) ->
  (Z.of_nat (length (splitpath path)) <= 9999 ->
   exists st', xabspath os path exact st = Returned (Some "/") st') /\
  (9999 < Z.of_nat (length (splitpath path)) ->
   exists st', xabspath os path exact st = Returned None st' /\ errno st' = ELOOP).
Proof.
  intros Habs Hall.
  destruct (xabspath_seed_absolute os 9999 path st Habs) as (st0 & Hseed & Hc0 & _).
  set (l0 := {| todo := splitpath path; done := []; try := 9999;
                dirfd := fd_alloc os (fds st) |}) in *.
  split.
  - intros Hlen.
    destruct (after_dots exact (splitpath path) [] l0 st0 Hall
                ltac:(simpl; symmetry; apply app_nil_r) ltac:(simpl; lia))
      as (st1 & Hafter & _).
    rewrite (xabspath_unfold os path exact st l0 st0 Hseed).
    rewrite (run_after os exact _ l0 st0 _ st1 ltac:(simpl; lia) Hafter).
    rewrite run_done by reflexivity. simpl.
    match goal with |- context [xabspath_finish os ?l1 ?s1] =>
      destruct (xabspath_finish_ret os l1 s1) as [st' Hfin] end.
    + split; constructor.
    + reflexivity.
    + exists st'. rewrite Hfin. reflexivity.
  - intros Hlen.
    set (comps := splitpath path) in *.
    assert (exists first rest,
              comps = (first ++ rest)%list /\ length first = Z.to_nat 9999 /\
              rest <> []) as (first & rest & Hsplit & Hfirst & Hrest).
    { exists (take (Z.to_nat 9999) comps), (drop (Z.to_nat 9999) comps).
      split; [symmetry; apply take_drop|].
      split; [rewrite length_take; lia|].
      intros Hnil. pose proof (length_drop comps (Z.to_nat 9999)) as Hd.
      rewrite Hnil in Hd. simpl in Hd. lia. }
    assert (Forall (eq ".") first) as Hall1.
    { rewrite Hsplit in Hall. apply Forall_app in Hall. apply Hall. }
    destruct (after_dots exact first rest l0 st0 Hall1 Hsplit
                ltac:(simpl; lia))
      as (st1 & Hafter & _).
    destruct rest as [|new rest]; [congruence|].
    destruct (xabspath_fails_at os path exact st l0 st0 _ _ st1 new rest _ _
                Hseed Hafter eq_refl
                (xabspath_body_eloop os exact new
                   (set_todo rest
                      {| todo := new :: rest; done := done l0;
                         try := try l0 - Z.of_nat (length first);
                         dirfd := dirfd l0 |}) st1 ltac:(simpl; lia)))
      as (st' & Hcall & Herr & _).
    exists st'. split; assumption.
Qed.

End Canonical.

(** On the sample tree /a/b is reached through directories. *)
Lemma xabspath_idempotent_witness :
  let os := TreeFS.make TreeFS.sample (Ok "/") in
  let st := TreeFS.start TreeFS.sample (Ok "/") in
  exists st', xabspath os "/a/b" 1 st = Returned (Some "/a/b") st'.
Proof.
  intros os st.
  apply (xabspath_idempotent os ["a"; "b"] 1 st).
  - repeat constructor; discriminate.
  - repeat constructor; discriminate.
  - simpl. lia.
  - simpl. split; [reflexivity|]. exists ["a"]. split; [reflexivity|].
    split; [reflexivity | exact I].
Defined.

Lemma xabspath_only_dots_witness :
  let os := TreeFS.make TreeFS.sample (Ok "/") in
  let st := TreeFS.start TreeFS.sample (Ok "/") in
  let long := "/" +:+ TreeFS.copies (Z.to_nat 10000) "./" in
  (exists st', xabspath os "//./" 0 st = Returned (Some "/") st') /\
  (exists st', xabspath os long 0 st = Returned None st' /\ errno st' = ELOOP).
Proof.
  intros os st long.
  split.
  - apply (xabspath_only_dots os "//./" 0 st eq_refl).
    + repeat constructor.
    + simpl. lia.
  - assert (splitpath long = repeat "." (Z.to_nat 10000))
      as Hsplit by (vm_compute; reflexivity).
    apply (xabspath_only_dots os long 0 st eq_refl).
    + rewrite Hsplit. clear. induction (Z.to_nat 10000); constructor; auto.
    + rewrite Hsplit, repeat_length. lia.
Defined.

Section Links.
Context (os : OS).
Implicit Types (st : pstate os) (l : frame).

(** ** Links with a relative or an empty target *)

(** The iteration on a link whose target does not start with '/'. *)
Lemma xabspath_body_relative exact name l st i target :
  fd_lookup os (fds st) (dirfd l) = Some i ->
  try l <> 0 -> name <> "." -> name <> ".." ->
  os_readlinkat os i name = Ok target ->
  target <> "" -> starts_with_slash target = false ->
  (String.length target <= 4095)%nat ->
  xabspath_body os exact name l st =
    Continue {| todo := splitpath target ++ todo l; done := done l;
                try := try l - 1; dirfd := dirfd l |}
             (add_nodes os (Z.of_nat (length (splitpath target))) (free_node os st)).
Proof.
  intros Hi Ht H1 H2 Hr Hne Hslash Hlen.
  rewrite xabspath_body_name by assumption.
  rewrite (xreadlinkat_ok os _ name 4096 st i target Hi Hr).
  rewrite substring_all by lia.
  unfold xabspath_lookup.
  assert (1 <= String.length target)%nat as Hpos.
  { destruct target; [congruence | simpl; lia]. }
  destruct (4095 <? Z.of_nat (String.length target)) eqn:E1; [lia|].
  destruct (Z.of_nat (String.length target) <? 1) eqn:E2; [lia|].
  rewrite Hslash. unfold splitpath_alloc.
  destruct (splitpath target) as [|c comps]; [destruct l|]; reflexivity.
Qed.

(** The iteration on a link whose target is empty: the read returns 0,
    which the code takes for the case of "..". *)
Lemma xabspath_body_empty exact name l st i :
  fd_lookup os (fds st) (dirfd l) = Some i ->
  try l <> 0 -> name <> "." -> name <> ".." ->
  os_readlinkat os i name = Ok "" ->
  xabspath_body os exact name l st =
    xabspath_move os exact ".." (set_try (try l - 1) l) st.
Proof.
  intros Hi Ht H1 H2 Hr.
  rewrite xabspath_body_name by assumption.
  rewrite (xreadlinkat_ok os _ name 4096 st i "" Hi Hr).
  reflexivity.
Qed.

(** X7: when resolution has reached, with budget left, a component that
    is a link with a target that does not start with '/', is not empty
    and fits the buffer, the next frame has the same resolved list and the
    same cursor, with the same descriptors open, and as pending components
    those of the target followed by what came after the link. *)
Theorem xabspath_relative_link path exact st k l0 st0 l stk name rest i target :
  xabspath_seed os 9999 path st = Some (l0, st0) ->
  after os exact k l0 st0 = Some (l, stk) ->
  todo l = name :: rest ->
  name <> "." -> name <> ".." ->
  Z.of_nat k < 9999 ->
  fd_lookup os (fds stk) (dirfd l) = Some i ->
  os_readlinkat os i name = Ok target ->
  target <> "" -> starts_with_slash target = false ->
  (String.length target <= 4095)%nat ->
  exists st1,
    after os exact (S k) l0 st0 =
      Some ({| todo := splitpath target ++ rest; done := done l;
               try := try l - 1; dirfd := dirfd l |}, st1) /\
    fds st1 = fds stk /\ errno st1 = errno stk /\ log st1 = log stk.
Proof.
  intros Hseed Hafter Htodo H1 H2 Hk Hi Hr Hne Hslash Hlen.
  pose proof (xabspath_seed_facts os 9999 path st l0 st0 Hseed) as (_ & _ & Ht & _).
  pose proof (after_try os exact k l0 st0 l stk Hafter) as Htry.
  pose proof (xabspath_body_relative exact name (set_todo rest l) stk i target
                Hi ltac:(simpl; lia) H1 H2 Hr Hne Hslash Hlen) as Hb.
  eexists. split.
  - exact (after_snoc os exact k l0 st0 l stk name rest _ _ Hafter Htodo Hb).
  - auto.
Qed.

(** X8: when resolution has reached, with budget left, a component that
    is a link with an empty target, and ".." of the cursor directory
    opens, the component is dropped like a "..", but the resolved list is
    left as it is: the next frame has the same resolved list, the rest as
    pending components, and a cursor on the parent; the node of the
    component is not freed. *)
Theorem xabspath_empty_link path exact st k l0 st0 l stk name rest i j :
  xabspath_seed os 9999 path st = Some (l0, st0) ->
  after os exact k l0 st0 = Some (l, stk) ->
  todo l = name :: rest ->
  name <> "." -> name <> ".." ->
  Z.of_nat k < 9999 ->
  fd_lookup os (fds stk) (dirfd l) = Some i ->
  os_readlinkat os i name = Ok "" ->
  os_openat os i ".." = Ok j ->
  exists fd st1,
    after os exact (S k) l0 st0 =
      Some ({| todo := rest; done := done l; try := try l - 1; dirfd := fd |}, st1) /\
    fd_lookup os (fds st1) fd = Some j /\
    nodes st1 = nodes stk.
Proof.
  intros Hseed Hafter Htodo H1 H2 Hk Hi Hr Ho.
  pose proof (xabspath_seed_facts os 9999 path st l0 st0 Hseed) as (Hc & _ & Ht & _).
  pose proof (after_try os exact k l0 st0 l stk Hafter) as Htry.
  destruct (after_cursor os _ _ exact k l0 st0 l stk Hc Hafter)
    as [Hcur | (_ & Hnil & _)]; [|congruence].
  pose proof (xabspath_body_empty exact name (set_todo rest l) stk i
                Hi ltac:(simpl; lia) H1 H2 Hr) as Hb.
  destruct (xabspath_move_ok os (fds st) (log st) exact ".."
              (set_try (try (set_todo rest l) - 1) (set_todo rest l)) stk i j)
    as (fd & st1 & Hm & _ & Hj & _ & Hn & _).
  { eapply cursor_at_ext; [reflexivity | reflexivity | reflexivity | exact Hcur]. }
  { exact Hi. } { exact Ho. }
  rewrite Hm in Hb.
  exists fd, st1. split; [|auto].
  exact (after_snoc os exact k l0 st0 l stk name rest _ _ Hafter Htodo Hb).
Qed.

End Links.

(** On the sample tree /r is a link to "a/./b/..". *)
Lemma xabspath_relative_link_witness :
  let os := TreeFS.make TreeFS.sample (Ok "/") in
  let st := TreeFS.start TreeFS.sample (Ok "/") in
  exists l0 st0 l1 st1,
    xabspath_seed os 9999 "/r/c" st = Some (l0, st0) /\
    after os 1 1 l0 st0 = Some (l1, st1) /\
    todo l1 = ["a"; "."; "b"; ".."; "c"] /\ done l1 = [] /\
    dirfd l1 = dirfd l0.
Proof.
  intros os st.
  assert (match xabspath_seed os 9999 "/r/c" st with
          | Some (l0, st0) =>
              todo l0 = ["r"; "c"] /\ done l0 = [] /\
              fd_lookup os (fds st0) (dirfd l0) = Some []
          | None => False
          end) as Hreach by (vm_compute; auto).
  destruct (xabspath_seed os 9999 "/r/c" st) as [[l0 st0]|] eqn:Hseed;
    [|contradiction].
  destruct Hreach as (Htodo & Hdone & Hi).
  destruct (xabspath_relative_link os "/r/c" 1 st 0 l0 st0 l0 st0
              "r" ["c"] [] "a/./b/.." Hseed eq_refl Htodo
              ltac:(discriminate) ltac:(discriminate) ltac:(reflexivity)
              Hi eq_refl ltac:(discriminate) eq_refl ltac:(simpl; lia))
    as (st1 & Hnext & _).
  eexists l0, st0, _, st1. split; [reflexivity|]. split; [exact Hnext|].
  simpl. auto.
Defined.

(** A tree with an empty link /a/e beside a file /c: "/a/e/c" comes out
    as "/a/c", a name that is not in the tree. *)
Lemma xabspath_empty_link_witness :
  let t := (["a"], TreeFS.Dir) :: (["a"; "e"], TreeFS.Link "")
           :: (["c"], TreeFS.File) :: [] in
  let os := TreeFS.make t (Ok "/") in
  let st := TreeFS.start t (Ok "/") in
  returned (xabspath os "/a/e/c" 1 st) = Some "/a/c" /\
  returned (xabspath os "/a/c" 1 st) = None /\
  exists l0 st0 l1 st1,
    xabspath_seed os 9999 "/a/e/c" st = Some (l0, st0) /\
    after os 1 2 l0 st0 = Some (l1, st1) /\
    todo l1 = ["c"] /\ done l1 = ["a"] /\
    fd_lookup os (fds st1) (dirfd l1) = Some [].
Proof.
  intros t os st.
  split; [vm_compute; reflexivity|]. split; [vm_compute; reflexivity|].
  assert (match xabspath_seed os 9999 "/a/e/c" st with
          | Some (l0, st0) =>
              match after os 1 1 l0 st0 with
              | Some (l, stk) =>
                  todo l = ["e"; "c"] /\ done l = ["a"] /\
                  fd_lookup os (fds stk) (dirfd l) = Some ["a"]
              | None => False
              end
          | None => False
          end) as Hreach by (vm_compute; auto).
  destruct (xabspath_seed os 9999 "/a/e/c" st) as [[l0 st0]|] eqn:Hseed;
    [|contradiction].
  destruct (after os 1 1 l0 st0) as [[l stk]|] eqn:Hafter; [|contradiction].
  destruct Hreach as (Htodo & Hdone & Hi).
  destruct (xabspath_empty_link os "/a/e/c" 1 st 1 l0 st0 l stk
              "e" ["c"] ["a"] [] Hseed Hafter Htodo
              ltac:(discriminate) ltac:(discriminate) ltac:(reflexivity)
              Hi eq_refl eq_refl)
    as (fd & st1 & Hnext & Hj & _).
  eexists l0, st0, _, st1. split; [reflexivity|]. split; [exact Hnext|].
  simpl. auto.
Defined.

Section ExactFlag.
Context (os : OS).
Implicit Types (st : pstate os) (l : frame).

(** ** The flag [exact] only adds failures *)

Lemma xabspath_move_weaken exact s l st :
  (forall l' st', xabspath_move os exact s l st <> GotoError l' st') ->
  xabspath_move os 0 s l st = xabspath_move os exact s l st.
Proof.
  unfold xabspath_move. destruct (xopenat os (dirfd l) s st) as [fd st1].
  destruct (fd =? -1); simpl; [|reflexivity].
  destruct (exact =? 0); simpl; [reflexivity|].
  intros H. exfalso. exact (H _ _ eq_refl).
Qed.

Lemma xabspath_lookup_weaken exact new len buf l st :
  (forall l' st', xabspath_lookup os exact new len buf l st <> GotoError l' st') ->
  xabspath_lookup os 0 new len buf l st = xabspath_lookup os exact new len buf l st.
Proof.
  unfold xabspath_lookup.
  destruct (4095 <? len); [reflexivity|].
  destruct (len <? 1); [|reflexivity].
  destruct (len =? 0); [apply xabspath_move_weaken|].
  destruct (exact =? 0) eqn:He; [apply Z.eqb_eq in He; subst; reflexivity|].
  simpl. destruct (errno st =? EINVAL) eqn:Hv; simpl.
  - rewrite !andb_false_r. simpl.
    destruct (nonempty (todo l)); simpl;
      [apply xabspath_move_weaken | reflexivity].
  - rewrite andb_true_r. intros H. exfalso. exact (H _ _ eq_refl).
Qed.

Lemma xabspath_body_weaken exact new l st :
  (forall l' st', xabspath_body os exact new l st <> GotoError l' st') ->
  xabspath_body os 0 new l st = xabspath_body os exact new l st.
Proof.
  unfold xabspath_body.
  destruct (try l =? 0); [reflexivity|].
  destruct (String.eqb new "." || String.eqb new "..").
  - destruct (str_at new 1 =? 0); [reflexivity|].
    cbv zeta.
    destruct (llist_pop (done (set_try (try l - 1) l))) as [[x|] d];
      apply xabspath_lookup_weaken.
  - destruct (xreadlinkat os (dirfd (set_try (try l - 1) l)) new 4096 st)
      as [[len buf] st1].
    apply xabspath_lookup_weaken.
Qed.

Lemma xabspath_loop_weaken fuel exact l st l' st' :
  xabspath_loop os fuel exact l st = Some (LoopExit l' st') ->
  xabspath_loop os fuel 0 l st = Some (LoopExit l' st').
Proof.
  revert l st. induction fuel as [|fuel IH]; intros l st; simpl.
  - destruct (llist_pop (todo l)) as [[new|] rest]; [discriminate | auto].
  - destruct (llist_pop (todo l)) as [[new|] rest]; [|auto].
    intros H.
    rewrite (xabspath_body_weaken exact).
    + destruct (xabspath_body os exact new (set_todo rest l) st); auto.
    + intros l1 st1 E. rewrite E in H. discriminate.
Qed.

(** X9: a call that returns a string with [exact] set returns the same
    string, and leaves the same state, with [exact] zero: the flag only
    turns results into failures. *)
Theorem xabspath_exact_weaken path exact st s st' :
  xabspath os path exact st = Returned (Some s) st' ->
  xabspath os path 0 st = Returned (Some s) st'.
Proof.
  unfold xabspath, xabspath_budget.
  destruct (xabspath_seed os 9999 path st) as [[l0 st0]|]; [|discriminate].
  unfold run. generalize (Z.to_nat (try l0) + 1)%nat. intros fuel.
  destruct (xabspath_loop os fuel exact l0 st0) as [[l1 st1|l1 st1]|] eqn:E;
    unfold xabspath_end at 1.
  - rewrite (xabspath_loop_weaken fuel exact l0 st0 l1 st1 E). auto.
  - unfold xabspath_error. discriminate.
  - discriminate.
Qed.

End ExactFlag.

Lemma xabspath_exact_weaken_witness :
  let os := TreeFS.make TreeFS.sample (Ok "/") in
  let st := TreeFS.start TreeFS.sample (Ok "/") in
  exists s st',
    xabspath os "/r/c" 1 st = Returned (Some s) st' /\
    xabspath os "/r/c" 0 st = Returned (Some s) st'.
Proof.
  intros os st.
  assert (exists s st', xabspath os "/r/c" 1 st = Returned (Some s) st')
    as (s & st' & H) by (vm_compute; eexists; eexists; reflexivity).
  exists s, st'. split; [exact H|].
  exact (xabspath_exact_weaken os "/r/c" 1 st s st' H).
Defined.

Section ReadLink.
Context (os : OS) (os_readlink : string -> sysres string).
Implicit Types (st : pstate os).

(** ** [xreadlink] *)

Lemma div64_bounds n : (64 * (n / 64) <= n < 64 * (n / 64 + 1))%nat.
Proof.
  pose proof (Nat.div_mod_eq n 64) as Hd.
  pose proof (Nat.mod_upper_bound n 64 ltac:(lia)) as Hm.
  lia.
Qed.

Lemma xreadlink_loop_step fuel name size live st :
  xreadlink_loop os os_readlink (S fuel) name size live st =
    let '(len, buf, st1) :=
      readlink os os_readlink name (size + 64) (xrealloc os live (size + 64) st) in
    if len <? 0 then Some (None, size + 64, free_buf os st1)
    else if len <? size + 64 then Some (Some buf, size + 64, st1)
    else xreadlink_loop os os_readlink fuel name (size + 64) true st1.
Proof. reflexivity. Qed.

(** The loop entered with a buffer of 64 * k bytes that the target does
    not fit returns the target once the buffer has outgrown it. *)
Lemma xreadlink_loop_ok name target :
  os_readlink name = Ok target ->
  forall d k live st,
    (k + d = String.length target / 64)%nat ->
    xreadlink_loop os os_readlink (S d) name (64 * Z.of_nat k) live st =
      Some (Some target, 64 * (Z.of_nat (String.length target / 64) + 1),
            xrealloc os live 0 st).
Proof.
  intros Hr. pose proof (div64_bounds (String.length target)) as [Hlo Hhi].
  induction d as [|d IH]; intros k live st Hk.
  - rewrite xreadlink_loop_step. unfold readlink. rewrite Hr.
    rewrite substring_all by lia.
    destruct (Z.of_nat (String.length target) <? 0) eqn:E0; [lia|].
    destruct (Z.of_nat (String.length target) <? 64 * Z.of_nat k + 64) eqn:E1; [|lia].
    replace (String.length target / 64)%nat with k by lia.
    destruct live; repeat f_equal; lia.
  - rewrite xreadlink_loop_step. unfold readlink. rewrite Hr.
    rewrite length_substring.
    assert (Nat.min (Z.to_nat (64 * Z.of_nat k + 64)) (String.length target)
            = Z.to_nat (64 * Z.of_nat k + 64)) as -> by lia.
    rewrite Z2Nat.id by lia.
    destruct (64 * Z.of_nat k + 64 <? 0) eqn:E0; [lia|].
    rewrite Z.ltb_irrefl.
    replace (64 * Z.of_nat k + 64) with (64 * Z.of_nat (S k)) by lia.
    rewrite (IH (S k) true _ ltac:(lia)).
    destruct live; reflexivity.
Qed.

(** X10: when the kernel reads the link, [xreadlink] returns the whole
    target whatever its length, in a buffer that is a multiple of 64
    bytes and has room for the terminator; one heap string more is live,
    and [errno] and the descriptors are as before. *)
Theorem xreadlink_whole name target st :
  os_readlink name = Ok target ->
  exists size st',
    xreadlink os os_readlink name st = Some (Some target, size, st') /\
    size = 64 * (Z.of_nat (String.length target) / 64 + 1) /\
    Z.of_nat (String.length target) < size /\
    bufs st' = bufs st + 1 /\ errno st' = errno st /\ fds st' = fds st.
Proof.
  intros Hr. unfold xreadlink, xreadlink_fuel. rewrite Hr.
  replace (String.length target / 64 + 1)%nat
    with (S (String.length target / 64)) by lia.
  pose proof (xreadlink_loop_ok name target Hr (String.length target / 64) 0
                false st ltac:(lia)) as H.
  change (64 * Z.of_nat 0) with 0 in H. rewrite H.
  pose proof (div64_bounds (String.length target)) as [Hlo Hhi].
  eexists _, _. split; [reflexivity|].
  rewrite Nat2Z.inj_div. simpl.
  repeat split; try reflexivity.
  rewrite <- (Nat2Z.inj_div _ 64). lia.
Qed.

(** X11: when the kernel refuses to read the link, [xreadlink] returns
    NULL after one round: the buffer it made is freed, [errno] is the
    kernel's, and the descriptors are as before. *)
Theorem xreadlink_fails name e st :
  os_readlink name = Err e ->
  exists st',
    xreadlink os os_readlink name st = Some (None, 64, st') /\
    bufs st' = bufs st /\ errno st' = e /\ fds st' = fds st /\
    nodes st' = nodes st.
Proof.
  intros Hr. unfold xreadlink, xreadlink_fuel. rewrite Hr.
  simpl. unfold readlink. rewrite Hr. simpl.
  eexists. split; [reflexivity|]. simpl. repeat split; lia.
Qed.

End ReadLink.

(** A link "l" with a target of exactly 64 bytes takes two rounds. *)
Lemma xreadlink_whole_witness :
  let os := TreeFS.make [] (Ok "/") in
  let st := TreeFS.start [] (Ok "/") in
  let target := TreeFS.copies 64 "x" in
  let rl := fun name : string =>
              if String.eqb name "l" then Ok target else Err ENOENT in
  exists st',
    xreadlink os rl "l" st = Some (Some target, 128, st') /\
    bufs st' = 1.
Proof.
  intros os st target rl.
  destruct (xreadlink_whole os rl "l" target st eq_refl)
    as (size & st' & H & Hsize & _ & Hb & _).
  exists st'. split; [|exact Hb].
  rewrite H. rewrite Hsize. reflexivity.
Defined.

Lemma xreadlink_fails_witness :
  let os := TreeFS.make [] (Ok "/") in
  let st := TreeFS.start [] (Ok "/") in
  let rl := fun name : string =>
              if String.eqb name "l" then Ok "target" else Err ENOENT in
  exists st',
    xreadlink os rl "m" st = Some (None, 64, st') /\
    bufs st' = 0 /\ errno st' = ENOENT.
Proof.
  intros os st rl.
  destruct (xreadlink_fails os rl "m" ENOENT st eq_refl)
    as (st' & H & Hb & He & _).
  exists st'. auto.
Defined.

Section Descriptors.
Context (os : OS) (os_open : string -> Z -> Z -> sysres (inode os)).
Implicit Types (st : pstate os).

(** ** [xcreate], [xopen], [xdup] and [xclose] *)

(** A descriptor that is open stays open, on the same file, when a fresh
    one is handed out. *)
Lemma fd_lookup_alloc (t : gmap Z (inode os)) fd i j :
  fd_lookup os t fd = Some j ->
  fd_lookup os (<[fd_alloc os t := i]> t) fd = Some j.
Proof.
  intros H. destruct (fd_lookup_Some os t fd j H) as [H0 Hj].
  unfold fd_lookup. destruct (fd <? 0) eqn:E; [lia|].
  rewrite lookup_insert_ne; [exact Hj|].
  intros <-. rewrite fd_alloc_fresh in Hj. discriminate.
Qed.

Lemma fd_alloc_unused (t : gmap Z (inode os)) :
  fd_lookup os t (fd_alloc os t) = None.
Proof.
  unfold fd_lookup. destruct (fd_alloc os t <? 0); [reflexivity|].
  apply fd_alloc_fresh.
Qed.

(** [O_CLOEXEC] is bit 19. *)
Lemma lxor_cloexec flags n :
  0 <= n ->
  Z.testbit (Z.lxor flags O_CLOEXEC) n =
    if n =? 19 then negb (Z.testbit flags n) else Z.testbit flags n.
Proof.
  intros Hn. rewrite Z.lxor_spec.
  change O_CLOEXEC with (2 ^ 19).
  destruct (n =? 19) eqn:E.
  - apply Z.eqb_eq in E. subst n. rewrite Z.pow2_bits_true by lia.
    destruct (Z.testbit flags 19); reflexivity.
  - apply Z.eqb_neq in E. rewrite Z.pow2_bits_false by lia.
    destruct (Z.testbit flags n); reflexivity.
Qed.

(** X12: what [xcreate] returns is never -1: it is a descriptor that was
    not open before, now open on the file the kernel opened; the
    descriptors that were open are kept, and [errno] is untouched. The
    kernel was asked with the mode as given and with the flags as given
    but for the close-on-exec bit (bit 19), which is inverted. *)
Theorem xcreate_returns path flags mode st fd st' :
  xcreate os os_open path flags mode st = Ret fd st' ->
  exists asked i,
    os_open path asked mode = Ok i /\
    Z.testbit asked 19 = negb (Z.testbit flags 19) /\
    (forall n, 0 <= n -> n <> 19 -> Z.testbit asked n = Z.testbit flags n) /\
    0 <= fd /\
    fd_lookup os (fds st) fd = None /\
    fd_lookup os (fds st') fd = Some i /\
    (forall fd0 j, fd_lookup os (fds st) fd0 = Some j ->
                   fd_lookup os (fds st') fd0 = Some j) /\
    errno st' = errno st.
Proof.
  unfold xcreate, open_path.
  destruct (os_open path (Z.lxor flags O_CLOEXEC) mode) as [i|e] eqn:Ho.
  - pose proof (fd_alloc_nonneg os (fds st)) as H0.
    destruct (fd_alloc os (fds st) =? -1) eqn:E; [lia|].
    intros H. injection H as <- <-.
    exists (Z.lxor flags O_CLOEXEC), i. split; [exact Ho|].
    split; [rewrite lxor_cloexec by lia; reflexivity|].
    split.
    { intros n Hn Hne. rewrite lxor_cloexec by lia.
      destruct (n =? 19) eqn:En; [lia | reflexivity]. }
    split; [exact H0|].
    split; [apply fd_alloc_unused|].
    split; [apply fd_lookup_insert; exact H0|].
    split; [|reflexivity].
    intros fd0 j Hj. apply fd_lookup_alloc. exact Hj.
  - simpl. discriminate.
Qed.

(** X13: [xopen] ends the process only when the kernel refuses the open
    with mode 0 and the close-on-exec bit inverted; then [errno] is the
    kernel's and no descriptor has changed. *)
Theorem xopen_dies path flags st st' :
  xopen os os_open path flags st = Die st' ->
  exists e,
    os_open path (Z.lxor flags O_CLOEXEC) 0 = Err e /\
    errno st' = e /\ fds st' = fds st /\ log st' = log st.
Proof.
  unfold xopen, xcreate, open_path.
  destruct (os_open path (Z.lxor flags O_CLOEXEC) 0) as [i|e] eqn:Ho.
  - pose proof (fd_alloc_nonneg os (fds st)) as H0.
    destruct (fd_alloc os (fds st) =? -1) eqn:E; [lia | discriminate].
  - simpl. intros H. injection H as <-. exists e. auto.
Qed.

(** X14: what [xdup] returns: -1 for -1, with nothing done; otherwise a
    descriptor other than the one given, not open before, now open on
    the same file, beside the one given. It never returns -1 for another
    argument. *)
Theorem xdup_returns fd st fd' st' :
  xdup os fd st = Ret fd' st' ->
  (fd = -1 /\ fd' = -1 /\ st' = st) \/
  (exists i,
     fd_lookup os (fds st) fd = Some i /\
     0 <= fd' /\ fd' <> fd /\
     fd_lookup os (fds st) fd' = None /\
     fd_lookup os (fds st') fd' = Some i /\
     fd_lookup os (fds st') fd = Some i).
Proof.
  unfold xdup. destruct (fd =? -1) eqn:E; simpl.
  - intros H. injection H as <- <-. left. repeat split; lia.
  - unfold dup. destruct (fd_lookup os (fds st) fd) as [i|] eqn:Hi.
    + pose proof (fd_alloc_nonneg os (fds st)) as H0.
      destruct (fd_alloc os (fds st) =? -1) eqn:E1; [lia|].
      intros H. injection H as <- <-. right. exists i.
      split; [reflexivity|]. split; [exact H0|].
      split.
      { intros Heq. pose proof (fd_alloc_unused (fds st)) as Hu.
        rewrite Heq in Hu. congruence. }
      split; [apply fd_alloc_unused|].
      split; [apply fd_lookup_insert; exact H0|].
      apply fd_lookup_alloc. exact Hi.
    + simpl. discriminate.
Qed.

(** X15: [xdup] of an open descriptor and then [xclose] of the copy both
    return, and the table of descriptors and [errno] are as before. *)
Theorem xclose_xdup fd st i :
  fd_lookup os (fds st) fd = Some i ->
  exists fd' st1 st2,
    xdup os fd st = Ret fd' st1 /\
    xclose os fd' st1 = Ret tt st2 /\
    fds st2 = fds st /\ errno st2 = errno st /\
    log st2 = Closed fd' :: Opened fd' :: log st.
Proof.
  intros Hi. destruct (fd_lookup_Some os _ _ _ Hi) as [Hfd _].
  pose proof (fd_alloc_nonneg os (fds st)) as H0.
  pose proof (fd_alloc_fresh os (fds st)) as Hfresh.
  unfold xdup, dup. rewrite Hi.
  destruct (fd =? -1) eqn:E; [lia|]. simpl.
  destruct (fd_alloc os (fds st) =? -1) eqn:E1; [lia|].
  eexists _, _, _. split; [reflexivity|].
  unfold xclose, close_rc, close. simpl.
  rewrite fd_lookup_insert by exact H0. simpl.
  split; [reflexivity|]. simpl.
  split; [|auto].
  rewrite delete_insert_eq. apply delete_id. exact Hfresh.
Qed.

(** X16: a descriptor that [xclose] has closed cannot be closed again:
    the second [xclose] ends the process, with [errno] EBADF. *)
Theorem xclose_twice fd st st1 :
  xclose os fd st = Ret tt st1 ->
  exists st2,
    xclose os fd st1 = Die st2 /\ errno st2 = EBADF /\ fds st2 = fds st1.
Proof.
  unfold xclose, close_rc, close.
  destruct (fd_lookup os (fds st) fd) as [i|] eqn:Hi; simpl; [|discriminate].
  intros H. injection H as <-. simpl.
  assert (fd_lookup os (delete fd (fds st)) fd = None) as ->.
  { unfold fd_lookup. destruct (fd <? 0); [reflexivity|]. apply lookup_delete_eq. }
  simpl. eexists. split; [reflexivity|]. auto.
Qed.

End Descriptors.

(** A kernel that opens /a/c of the sample tree and nothing else. *)
Lemma xcreate_returns_witness :
  let os := TreeFS.make TreeFS.sample (Ok "/") in
  let st := TreeFS.start TreeFS.sample (Ok "/") in
  let oo := fun (path : string) (flags mode : Z) =>
              if String.eqb path "/a/c" then Ok ["a"; "c"] else Err ENOENT in
  exists st',
    xcreate os oo "/a/c" 0 0 st = Ret 3 st' /\
    fd_lookup os (fds st') 3 = Some ["a"; "c"] /\
    fd_lookup os (fds st') 2 = Some TreeFS.tty.
Proof.
  intros os st oo.
  assert (exists st', xcreate os oo "/a/c" 0 0 st = Ret 3 st') as [st' H]
    by (vm_compute; eexists; reflexivity).
  destruct (xcreate_returns os oo "/a/c" 0 0 st 3 st' H)
    as (asked & i & Ho & _ & _ & _ & _ & Hnew & Hold & _).
  exists st'. split; [exact H|].
  injection Ho as <-. split; [exact Hnew|].
  apply Hold. reflexivity.
Defined.

Lemma xopen_dies_witness :
  let os := TreeFS.make TreeFS.sample (Ok "/") in
  let st := TreeFS.start TreeFS.sample (Ok "/") in
  let oo := fun (path : string) (flags mode : Z) =>
              if String.eqb path "/a/c" then Ok ["a"; "c"] else Err ENOENT in
  exists st',
    xopen os oo "/a/d" 0 st = Die st' /\
    errno st' = ENOENT /\ fds st' = fds st.
Proof.
  intros os st oo.
  assert (exists st', xopen os oo "/a/d" 0 st = Die st') as [st' H]
    by (vm_compute; eexists; reflexivity).
  destruct (xopen_dies os oo "/a/d" 0 st st' H) as (e & Ho & He & Hf & _).
  exists st'. split; [exact H|].
  injection Ho as <-. auto.
Defined.

Lemma xdup_returns_witness :
  let os := TreeFS.make TreeFS.sample (Ok "/") in
  let st := TreeFS.start TreeFS.sample (Ok "/") in
  exists st',
    xdup os 1 st = Ret 3 st' /\
    fd_lookup os (fds st') 3 = Some TreeFS.tty /\
    fd_lookup os (fds st') 1 = Some TreeFS.tty.
Proof.
  intros os st.
  assert (exists st', xdup os 1 st = Ret 3 st') as [st' H]
    by (vm_compute; eexists; reflexivity).
  destruct (xdup_returns os 1 st 3 st' H)
    as [(H1 & _) | (i & Hi & _ & _ & _ & Hnew & Hold)]; [discriminate|].
  exists st'. split; [exact H|].
  assert (fd_lookup os (fds st) 1 = Some TreeFS.tty) as Hk by reflexivity.
  pose proof (eq_trans (eq_sym Hi) Hk) as Hx. injection Hx as ->.
  auto.
Defined.

Lemma xclose_xdup_witness :
  let os := TreeFS.make TreeFS.sample (Ok "/") in
  let st := TreeFS.start TreeFS.sample (Ok "/") in
  exists fd' st1 st2,
    xdup os 1 st = Ret fd' st1 /\
    xclose os fd' st1 = Ret tt st2 /\
    fds st2 = fds st /\ errno st2 = errno st /\
    log st2 = Closed fd' :: Opened fd' :: log st.
Proof.
  intros os st.
  exact (xclose_xdup os 1 st TreeFS.tty eq_refl).
Defined.

Lemma xclose_twice_witness :
  let os := TreeFS.make TreeFS.sample (Ok "/") in
  let st := TreeFS.start TreeFS.sample (Ok "/") in
  exists st1 st2,
    xclose os 2 st = Ret tt st1 /\
    xclose os 2 st1 = Die st2 /\ errno st2 = EBADF.
Proof.
  intros os st.
  assert (exists st1, xclose os 2 st = Ret tt st1) as [st1 H]
    by (vm_compute; eexists; reflexivity).
  destruct (xclose_twice os 2 st st1 H) as (st2 & H2 & He & _).
  exists st1, st2. auto.
Defined.
